(** * large_data: the item record store, its filter stages, the TTL cache
      and the adaptive concurrency controller

    A shallow embedding of [src/utils.py], [src/database.py],
    [src/apify_db.py] and [src/ai_analyzer.py], followed by the
    properties of the specification that concern them.

    Conventions of the embedding.
    - A Python [float] is an IEEE-754 binary64 number.  Finite values are
      rationals ([Q]); every arithmetic operation computes the exact
      rational result and rounds it to the nearest binary64 value, ties to
      even ([F64.round64]).
    - A Python [str] is a [string]; its characters are read as the code
      points 0..255.
    - An SQLite table is the list of its rows in rowid order (the [asins]
      table) or a finite map on its [UNIQUE] key (the [apify_cache]
      table).  [NULL] is [None]; a comparison with [NULL] is not true.
    - A timestamp is a number of seconds ([Z]); the textual form
      [YYYY-MM-DD HH:MM:SS] that the code compares is ordered the same
      way. *)

From Stdlib Require Import ZArith QArith Qround Qabs Lia List Bool String Ascii.
From Stdlib Require Import Sorted.
From stdpp Require Import gmap strings list fin_maps.

Open Scope Z_scope.

(* ===================================================================== *)
(** * Part I: the embedding                                               *)
(* ===================================================================== *)

(** ** Python values that the code tests or raises *)

Inductive exn : Type :=
| OverflowError   (* int(inf), float(huge int) *)
| ValueError.     (* float("1.2.3") *)

Inductive py_result (A : Type) : Type :=
| Returns (a : A)
| Raises (e : exn).
Arguments Returns {A} a.
Arguments Raises {A} e.

(** ** IEEE-754 binary64, as far as the code uses it *)

Module F64.

(** A float is a finite rational or an infinity.  The modelled code
    only adds, scales and rounds non-negative numbers, so NaN never
    arises. *)
Inductive float : Type :=
| Finite (q : Q)
| Inf (negative : bool).

Definition pow2 (e : Z) : Q :=
  if 0 <=? e then inject_Z (2 ^ e) else Qinv (inject_Z (2 ^ (- e))).

(** [ilog2 x] is the integer [e] with [2^e <= x < 2^(e+1)], for [x > 0]. *)
Definition ilog2 (x : Q) : Z :=
  let d := Z.log2 (Qnum x) - Z.log2 (Zpos (Qden x)) in
  if Qle_bool (pow2 d) x then d else d - 1.

(** Round to the nearest integer, ties to the even one. *)
Definition rne (x : Q) : Z :=
  let f := Qfloor x in
  match Qcompare (x - inject_Z f) (1 # 2) with
  | Lt => f
  | Gt => f + 1
  | Eq => if Z.even f then f else f + 1
  end.

(** Round a rational to binary64: 53 bits of precision, the smallest
    exponent is that of the subnormals, and a result of [2^1024] or
    more is an infinity. *)
Definition round64 (x : Q) : float :=
  if Qeq_bool x 0 then Finite 0
  else
    let a := Qabs x in
    let ex := Z.max (ilog2 a - 52) (-1074) in
    let y := (inject_Z (rne (a / pow2 ex)) * pow2 ex)%Q in
    let neg := negb (Qle_bool 0 x) in
    if Qle_bool (pow2 1024) y then Inf neg
    else Finite (Qred (if neg then - y else y)).

(** [a * k] for a float [a] and a non-zero finite [k]. *)
Definition mul (a : float) (k : Q) : float :=
  match a with
  | Finite q => round64 (q * k)
  | Inf n => Inf (xorb n (negb (Qle_bool 0 k)))
  end.

(** [a + b]; the code only adds positive prices. *)
Definition add (a b : float) : float :=
  match a, b with
  | Finite p, Finite q => round64 (p + q)
  | Inf n, _ => Inf n
  | _, Inf n => Inf n
  end.

(** [a / k] for a positive integer [k]. *)
Definition div (a : float) (k : Z) : float :=
  match a with
  | Finite q => round64 (q / inject_Z k)
  | Inf n => Inf n
  end.

(** [round(a, 2)]: CPython prints [a] with two decimals, correctly
    rounded (ties to even on the exact value), and reads the result
    back. *)
Definition round2 (a : float) : float :=
  match a with
  | Finite q => round64 (inject_Z (rne (q * 100)) / 100)
  | Inf n => Inf n
  end.

(** [int(a)]: truncation toward zero; an infinity raises. *)
Definition to_int (a : float) : py_result Z :=
  match a with
  | Finite q => Returns (Z.quot (Qnum q) (Zpos (Qden q)))
  | Inf _ => Raises OverflowError
  end.

(** [float(n)] for an [int]: rounds; raises when out of range. *)
Definition of_int (n : Z) : py_result float :=
  match round64 (inject_Z n) with
  | Finite q => Returns (Finite q)
  | Inf _ => Raises OverflowError
  end.

Definition compare (a b : float) : comparison :=
  match a, b with
  | Finite p, Finite q => Qcompare p q
  | Inf true, Inf true => Eq
  | Inf false, Inf false => Eq
  | Inf true, _ => Lt
  | _, Inf true => Gt
  | Inf false, _ => Gt
  | _, Inf false => Lt
  end.

Definition ltb (a b : float) : bool :=
  match compare a b with Lt => true | _ => false end.
Definition leb (a b : float) : bool :=
  match compare a b with Gt => false | _ => true end.
Definition eqb (a b : float) : bool :=
  match compare a b with Eq => true | _ => false end.

Definition zero : float := Finite 0.

End F64.

(** ** Exceptions: a small error monad *)

#[export] Instance py_bind : MBind py_result := fun A B f m =>
  match m with
  | Returns a => f a
  | Raises e => Raises e
  end.

#[export] Instance py_ret : MRet py_result := fun A a => Returns a.

(** ** The regular expressions of [re], as far as the code uses them *)

Module Regex.

(** Every repetition in the patterns of [utils.py] is over a character
    class, so the syntax has classes, greedy repetition of a class,
    sequence, greedy option and capturing groups. *)
Inductive re : Type :=
| Cls (p : ascii -> bool)
| Star (p : ascii -> bool)
| Seq (r1 r2 : re)
| Opt (r : re)
| Group (n : nat) (r : re).

Definition Plus (p : ascii -> bool) : re := Seq (Cls p) (Star p).

(** [m.group(n)]: [None] for a group that took no part in the match. *)
Definition captures : Type := nat -> option string.
Definition no_captures : captures := fun _ => None.
Definition set_group (n : nat) (s : string) (c : captures) : captures :=
  fun i => if Nat.eqb i n then Some s else c i.

(** The part of [s] consumed when [rest] is what remains of it. *)
Definition consumed (s rest : string) : string :=
  substring 0 (String.length s - String.length rest) s.

(** Greedy [p*]: take a character when possible, and give it back when
    the rest of the pattern fails. *)
Fixpoint star {A : Type} (p : ascii -> bool) (s : string)
    (k : string -> option A) : option A :=
  match s with
  | String c s' =>
      if p c then
        match star p s' k with
        | Some r => Some r
        | None => k s
        end
      else k s
  | EmptyString => k s
  end.

(** The backtracking matcher, in continuation-passing style: [run r s c k]
    matches [r] at the head of [s] and hands the rest of [s] to [k];
    when [k] fails, the next alternative of [r] is tried. *)
Fixpoint run (r : re) (s : string) (c : captures)
    (k : string -> captures -> option captures) : option captures :=
  match r with
  | Cls p =>
      match s with
      | String a s' => if p a then k s' c else None
      | EmptyString => None
      end
  | Star p => star p s (fun s' => k s' c)
  | Seq r1 r2 => run r1 s c (fun s1 c1 => run r2 s1 c1 k)
  | Opt r1 =>
      match run r1 s c k with
      | Some res => Some res
      | None => k s c
      end
  | Group n r1 => run r1 s c (fun s' c' => k s' (set_group n (consumed s s') c'))
  end.

Definition match_here (r : re) (s : string) : option captures :=
  run r s no_captures (fun _ c => Some c).

(** [re.search]: the match at the leftmost position that has one. *)
Fixpoint search (r : re) (s : string) : option captures :=
  match match_here r s with
  | Some c => Some c
  | None =>
      match s with
      | String _ s' => search r s'
      | EmptyString => None
      end
  end.

(** Character classes on the code points 0..255. *)
Definition is_digit (a : ascii) : bool :=
  let n := N_of_ascii a in ((48 <=? n) && (n <=? 57))%N.

(** [\s] on [str]: the white space of Unicode. *)
Definition is_space (a : ascii) : bool :=
  let n := N_of_ascii a in
  (((9 <=? n) && (n <=? 13)) || ((28 <=? n) && (n <=? 32))
   || (n =? 133) || (n =? 160))%N.

Definition is_char (x : ascii) (a : ascii) : bool := Ascii.eqb a x.

End Regex.

(** ** [src/utils.py] *)

Module Utils.
Import Regex.

Definition digit_value (a : ascii) : Z := Z.of_N (N_of_ascii a) - 48.

(** The number written by a string of decimal digits. *)
Fixpoint digits_value (acc : Z) (s : string) : Z :=
  match s with
  | String a s' => digits_value (10 * acc + digit_value a) s'
  | EmptyString => acc
  end.

Fixpoint all_chars (p : ascii -> bool) (s : string) : bool :=
  match s with
  | String a s' => p a && all_chars p s'
  | EmptyString => true
  end.

(** Split at the first ["."]: the text before it, and the text after it
    when there is one. *)
Fixpoint split_dot (s : string) : string * option string :=
  match s with
  | String a s' =>
      if Ascii.eqb a "." then (EmptyString, Some s')
      else let (i, f) := split_dot s' in (String a i, f)
  | EmptyString => (EmptyString, None)
  end.

(** [float(s)] for a text of digits and dots: a literal has at least
    one digit and at most one dot; its value is rounded correctly. *)
Definition float_of_str (s : string) : py_result F64.float :=
  let (i, f) := split_dot s in
  let f := match f with Some f => f | None => EmptyString end in
  if all_chars is_digit i && all_chars is_digit f
     && negb (Nat.eqb (String.length i + String.length f) 0)
  then Returns (F64.round64
         (inject_Z (digits_value 0 (i ++ f)) /
          inject_Z (10 ^ Z.of_nat (String.length f))))
  else Raises ValueError.

(** [(\d+(?:\.\d+)?)\s*([KkMm])?\s*\+] *)
Definition is_unit (a : ascii) : bool :=
  Ascii.eqb a "K" || Ascii.eqb a "k" || Ascii.eqb a "M" || Ascii.eqb a "m".

Definition sales_re : re :=
  Seq (Group 1 (Seq (Plus is_digit)
                    (Opt (Seq (Cls (is_char ".")) (Plus is_digit)))))
 (Seq (Star is_space)
 (Seq (Opt (Group 2 (Cls is_unit)))
 (Seq (Star is_space)
      (Cls (is_char "+"))))).

(** [str.upper] on the letters that the pattern lets through. *)
Definition upper_ascii (a : ascii) : ascii :=
  let n := N_of_ascii a in
  if ((97 <=? n) && (n <=? 122))%N then ascii_of_N (n - 32) else a.

Fixpoint upper (s : string) : string :=
  match s with
  | String a s' => String (upper_ascii a) (upper s')
  | EmptyString => EmptyString
  end.

Definition parse_sales (message : option string) : py_result Z :=
  match message with
  | None | Some EmptyString => Returns 0
  | Some text =>
      match search sales_re text with
      | None => Returns 0
      | Some m =>
          number ← float_of_str (default EmptyString (m 1%nat));
          let number :=
            match m 2%nat with
            | None | Some EmptyString => number
            | Some unit =>
                let unit := upper unit in
                if String.eqb unit "K" then F64.mul number 1000
                else if String.eqb unit "M" then F64.mul number 1000000
                else number
            end in
          F64.to_int number
      end
  end.

(** The values a scraped item may carry in its [price] field. *)
Inductive pyval : Type :=
| PyNone
| PyInt (n : Z)
| PyFloat (f : F64.float)
| PyStr (s : string)
| PyOther.

(** [price.replace(',', '')] *)
Fixpoint remove_commas (s : string) : string :=
  match s with
  | String a s' =>
      if Ascii.eqb a "," then remove_commas s' else String a (remove_commas s')
  | EmptyString => EmptyString
  end.

(** [[\d.]+]; group 0 is the whole match. *)
Definition price_re : re :=
  Group 0 (Plus (fun a => is_digit a || is_char "." a)).

Definition parse_price (price : pyval) : py_result (option F64.float) :=
  match price with
  | PyNone => Returns None
  | PyInt n => f ← F64.of_int n; Returns (Some f)
  | PyFloat f => Returns (Some f)
  | PyStr s =>
      match search price_re (remove_commas s) with
      | Some m =>
          f ← float_of_str (default EmptyString (m 0%nat)); Returns (Some f)
      | None => Returns None
      end
  | PyOther => Returns None
  end.

End Utils.

(** ** [src/database.py]: the [asins] table and its filter stages *)

Module Database.
Import Utils.

(** A row of [asins].  [filter_status] is [None] for a kept row and the
    tag of the stage that excluded it otherwise.  The rowid is the
    position in the table. *)
Record asin_row : Type := mk_row {
  asin : string;
  keyword : string;
  source_type : string;
  source_value : string;
  name : option string;
  brand : option string;
  category : option string;
  category_path : option string;
  category_main : option string;
  category_sub : option string;
  price : option F64.float;
  rating : option F64.float;
  reviews_count : option Z;
  sales_volume : option Z;
  page_rank : option Z;
  url : option string;
  is_sponsored : Z;
  filter_status : option string;
  created_at : Z;
  (* enrichment columns, filled by later stages *)
  sales_3m : option Z;
  price_min : option F64.float;
  price_max : option F64.float;
  price_min_date : option string;
  price_max_date : option string;
  ss_monthly_sales : option Z;
  listing_date : option string;
  avg_monthly_sales : option Z;
  sales_months_count : option Z
}.

Abbreviation table := (list asin_row).

(** [SET filter_status = v] on one row. *)
Definition set_filter_status (v : option string) (r : asin_row) : asin_row :=
  mk_row (asin r) (keyword r) (source_type r) (source_value r) (name r)
    (brand r) (category r) (category_path r) (category_main r)
    (category_sub r) (price r) (rating r) (reviews_count r)
    (sales_volume r) (page_rank r) (url r) (is_sponsored r) v
    (created_at r) (sales_3m r) (price_min r) (price_max r)
    (price_min_date r) (price_max_date r) (ss_monthly_sales r)
    (listing_date r) (avg_monthly_sales r) (sales_months_count r).

(** *** SQL fragments *)

Definition is_null {A : Type} (v : option A) : bool :=
  match v with None => true | Some _ => false end.

(** [col > x], [col < x], [col = x], [col != x]: not true on [NULL]. *)
Definition gt_Z (v : option Z) (x : Z) : bool :=
  match v with Some n => x <? n | None => false end.
Definition gt_float (v : option F64.float) (x : F64.float) : bool :=
  match v with Some p => F64.ltb x p | None => false end.
Definition lt_text (v : option string) (x : string) : bool :=
  match v with Some s => String.ltb s x | None => false end.
Definition eq_text (v : option string) (x : string) : bool :=
  match v with Some s => String.eqb s x | None => false end.
Definition ne_text (v : option string) (x : string) : bool :=
  match v with Some s => negb (String.eqb s x) | None => false end.

(** [SELECT COUNT( * ) FROM asins WHERE w] *)
Definition count_where (w : asin_row -> bool) (db : table) : Z :=
  Z.of_nat (length (filter w db)).

(** [UPDATE asins SET filter_status = tag WHERE w]: the row count and
    the new table. *)
Definition update_status (tag : string) (w : asin_row -> bool) (db : table)
    : Z * table :=
  (count_where w db,
   map (fun r => if w r then set_filter_status (Some tag) r else r) db).

Definition for_keyword (kw : string) (r : asin_row) : bool :=
  String.eqb (keyword r) kw.
Definition unfiltered (r : asin_row) : bool := is_null (filter_status r).

(** *** [reset_filter_status] *)

Definition reset_filter_status (kw : string) (db : table) : Z * table :=
  let w r := for_keyword kw r && negb (unfiltered r) in
  (count_where w db,
   map (fun r => if w r then set_filter_status None r else r) db).

(** *** [filter_sponsored_asins] *)

Record sponsored_report : Type := {
  sp_total : Z; sp_sponsored_count : Z; sp_removed : Z; sp_kept : Z
}.

Definition filter_sponsored_asins (kw : string) (db : table)
    : sponsored_report * table :=
  let total := count_where (for_keyword kw) db in
  let sponsored_count :=
    count_where (fun r => for_keyword kw r && (is_sponsored r =? 1)) db in
  let (removed, db') :=
    update_status "sponsored"
      (fun r => for_keyword kw r && (is_sponsored r =? 1) && unfiltered r) db in
  ({| sp_total := total; sp_sponsored_count := sponsored_count;
      sp_removed := removed; sp_kept := total - removed |}, db').

(** *** [filter_low_sales_asins] *)

Record count_report : Type := {
  total : Z; removed : Z; kept : Z
}.

Definition filter_low_sales_asins (kw : string) (max_sales : Z) (db : table)
    : count_report * table :=
  let total := count_where (fun r => for_keyword kw r && unfiltered r) db in
  let (removed, db') :=
    update_status "sales_filtered"
      (fun r => for_keyword kw r && gt_Z (sales_volume r) max_sales
                && unfiltered r) db in
  ({| total := total; removed := removed; kept := total - removed |}, db').

(** *** [filter_by_price] *)

Definition filter_by_price (kw : string) (max_price : F64.float) (db : table)
    : count_report * table :=
  let total := count_where (fun r => for_keyword kw r && unfiltered r) db in
  if total =? 0 then ({| total := 0; removed := 0; kept := 0 |}, db)
  else
    let (removed, db') :=
      update_status "price_filtered"
        (fun r => for_keyword kw r && gt_float (price r) max_price
                  && unfiltered r) db in
    ({| total := total; removed := removed; kept := total - removed |}, db').

(** *** [filter_by_listing_date]

    [cutoff_date] is the text [strftime] gives for
    [now - months * 30 days]; the caller's clock is outside the model. *)

Record listing_report : Type := {
  ld_total : Z; ld_removed : Z; ld_removed_by_date : Z;
  ld_removed_by_sales_months : Z; ld_kept : Z
}.

Definition filter_by_listing_date (kw : string) (cutoff_date : string)
    (months : Z) (db : table) : listing_report * table :=
  let total := count_where (fun r => for_keyword kw r && unfiltered r) db in
  if total =? 0 then
    ({| ld_total := 0; ld_removed := 0; ld_removed_by_date := 0;
        ld_removed_by_sales_months := 0; ld_kept := 0 |}, db)
  else
    let (removed_by_date, db1) :=
      update_status "listing_date_filtered"
        (fun r => for_keyword kw r && negb (is_null (listing_date r))
                  && lt_text (listing_date r) cutoff_date && unfiltered r) db in
    let (removed_by_sales_months, db2) :=
      update_status "sales_months_filtered"
        (fun r => for_keyword kw r && negb (is_null (sales_months_count r))
                  && gt_Z (sales_months_count r) months && unfiltered r) db1 in
    let removed := removed_by_date + removed_by_sales_months in
    ({| ld_total := total; ld_removed := removed;
        ld_removed_by_date := removed_by_date;
        ld_removed_by_sales_months := removed_by_sales_months;
        ld_kept := total - removed |}, db2).

(** *** [filter_by_top_category] *)

(** [GROUP BY]: one group for each distinct value, with its size.  SQL
    leaves the order of groups of equal size open; the groups are
    listed here in the order in which their first row occurs, so that
    [ORDER BY cnt DESC LIMIT 1] returns the first of the largest
    groups. *)
Fixpoint distinct (l : list string) : list string :=
  match l with
  | [] => []
  | x :: l' => x :: filter (fun y => negb (String.eqb y x)) (distinct l')
  end.

Definition count_text (x : string) (l : list string) : Z :=
  Z.of_nat (length (filter (String.eqb x) l)).

Definition group_by_count (l : list string) : list (string * Z) :=
  map (fun c => (c, count_text c l)) (distinct l).

Fixpoint top_group (gs : list (string * Z)) : option (string * Z) :=
  match gs with
  | [] => None
  | g :: gs' =>
      match top_group gs' with
      | Some h => if snd g <? snd h then Some h else Some g
      | None => Some g
      end
  end.

(** The [category_sub] of the rows that the grouping query reads:
    [keyword = ? AND category_sub IS NOT NULL AND category_sub != ''
     AND filter_status IS NULL]. *)
Definition grouped_sub_categories (kw : string) (db : table) : list string :=
  omap (fun r =>
          if for_keyword kw r && ne_text (category_sub r) "" && unfiltered r
          then category_sub r else None) db.

(** [ORDER BY price] *)
Fixpoint insert_sorted (x : F64.float) (l : list F64.float) : list F64.float :=
  match l with
  | [] => [x]
  | y :: l' => if F64.leb x y then x :: l else y :: insert_sorted x l'
  end.

Definition order_by_price (l : list F64.float) : list F64.float :=
  fold_right insert_sorted [] l.

(** [SELECT price FROM asins WHERE keyword = ? AND category_sub = ?
     AND price IS NOT NULL AND price > 0 ORDER BY price]; the query does
    not look at [filter_status]. *)
Definition category_prices (kw top : string) (db : table) : list F64.float :=
  order_by_price
    (omap (fun r =>
             if for_keyword kw r && eq_text (category_sub r) top
                && gt_float (price r) F64.zero
             then price r else None) db).

Definition median_of_sorted (prices : list F64.float) : option F64.float :=
  match prices with
  | [] => None
  | _ =>
      let n := length prices in
      if Nat.eqb (n mod 2) 1 then
        Some (F64.round2 (nth (n / 2) prices F64.zero))
      else
        Some (F64.round2
                (F64.div (F64.add (nth (n / 2 - 1) prices F64.zero)
                                  (nth (n / 2) prices F64.zero)) 2))
  end.

(** The report, without [avg_price]: the rounding of SQL's [AVG] is
    SQLite's own and no property below depends on it. *)
Record category_report : Type := {
  cat_total : Z;
  top_category : option string;
  top_category_count : Z;
  cat_removed : Z;
  cat_kept : Z;
  median_price : option F64.float
}.

Definition filter_by_top_category (kw : string) (db : table)
    : category_report * table :=
  let total := count_where (fun r => for_keyword kw r && unfiltered r) db in
  if total =? 0 then
    ({| cat_total := 0; top_category := None; top_category_count := 0;
        cat_removed := 0; cat_kept := 0; median_price := None |}, db)
  else
    match top_group (group_by_count (grouped_sub_categories kw db)) with
    | None =>
        ({| cat_total := total; top_category := None; top_category_count := 0;
            cat_removed := 0; cat_kept := total; median_price := None |}, db)
    | Some (top, cnt) =>
        let median := median_of_sorted (category_prices kw top db) in
        let (removed, db') :=
          update_status "category_filtered"
            (fun r => for_keyword kw r
                      && (is_null (category_sub r) || ne_text (category_sub r) top)
                      && unfiltered r) db in
        ({| cat_total := total; top_category := Some top;
            top_category_count := cnt; cat_removed := removed;
            cat_kept := total - removed; median_price := median |}, db')
    end.

(** *** [save_asins] *)

(** A scraped item: a dictionary read with [item.get]. *)
Record item : Type := {
  i_asin : option string;
  i_name : option string;
  i_brand : option string;
  i_category : option string;
  i_category_path : option string;
  i_category_main : option string;
  i_category_sub : option string;
  i_price : pyval;
  i_stars : option F64.float;
  i_rating : option F64.float;
  i_total_reviews : option Z;
  i_ratings_total : option Z;
  i_sales_volume : option Z;
  i_purchase_history_message : option string;
  i_page : option Z;
  i_url : option string;
  i_is_sponsored : bool
}.

(** [a or b]: [b] when [a] is [None] or a zero. *)
Definition py_or {A : Type} (truthy : A -> bool) (a b : option A) : option A :=
  match a with
  | Some x => if truthy x then a else b
  | None => b
  end.

Definition truthy_float (f : F64.float) : bool := negb (F64.eqb f F64.zero).
Definition truthy_int (n : Z) : bool := negb (n =? 0).

(** The row that [INSERT OR REPLACE] writes: the seventeen listed
    columns from the item, every other column at its default
    ([filter_status] and the enrichment columns [NULL], [created_at]
    the clock). *)
Definition row_of_item (it : item) (a kw src_type src_value : string) (now : Z)
    : py_result asin_row :=
  p ← parse_price (i_price it);
  sv ← match i_sales_volume it with
       | Some v => Returns v
       | None => parse_sales (i_purchase_history_message it)
       end;
  Returns
    (mk_row a kw src_type src_value (i_name it) (i_brand it) (i_category it)
       (i_category_path it) (i_category_main it) (i_category_sub it)
       p (py_or truthy_float (i_stars it) (i_rating it))
       (py_or truthy_int (i_total_reviews it) (i_ratings_total it))
       (Some sv) (i_page it) (i_url it)
       (if i_is_sponsored it then 1 else 0)
       None now None None None None None None None None None).

Definition same_key (a kw : string) (r : asin_row) : bool :=
  String.eqb (asin r) a && String.eqb (keyword r) kw.

(** [INSERT OR REPLACE] under [UNIQUE(asin, keyword)]: the row in
    conflict is deleted and the new row is inserted with a new rowid. *)
Definition insert_or_replace (r : asin_row) (db : table) : table :=
  filter (fun x => negb (same_key (asin r) (keyword r) x)) db ++ [r].

Definition save_one (kw src_type src_value : string) (now : Z)
    (acc : Z * table) (it : item) : Z * table :=
  match i_asin it with
  | None | Some EmptyString => acc
  | Some a =>
      match row_of_item it a kw src_type src_value now with
      | Returns r => (fst acc + 1, insert_or_replace r (snd acc))
      | Raises _ => acc     (* logged; the item is skipped *)
      end
  end.

Definition save_asins (asins : list item) (kw src_type src_value : string)
    (now : Z) (db : table) : Z * table :=
  fold_left (save_one kw src_type src_value now) asins (0, db).

End Database.

(** ** [src/apify_db.py]: the [apify_cache] table *)

Module ApifyDB.

(** One element of a price history: a JSON value that is either not an
    object, or an object with a [price] (a number or null) and a
    [date].  A record without date reads as [Some ""], since the code
    reads it with [record.get('date', '')]. *)
Inductive history_record : Type :=
| NotDict
| Point (price : option F64.float) (date : option string).

(** The payload of a provider.  A history that is absent, null or
    empty is the empty list. *)
Record payload : Type := {
  p_asin : option string;
  p_country : option string;
  p_name : option string;
  p_brand : option string;
  p_rating : option F64.float;
  p_n_reviews : option Z;
  p_main_category : option string;
  p_primary_category : option string;
  p_sub_categories : list string;
  p_seller_type : option string;
  p_in_stock : bool;
  p_currency : option string;
  p_list_price : option F64.float;
  p_price : option F64.float;
  p_price_new : option F64.float;
  p_price_buybox : option F64.float;
  p_price_prime_exclusive : option F64.float;
  p_price_amazon : option F64.float;
  p_price_min : option F64.float;
  p_price_max : option F64.float;
  p_price_min_date : option string;
  p_price_max_date : option string;
  p_listed_at : option string;
  p_tracked_since : option string;
  p_last_updated : option string;
  p_data_captured_at : option string;
  p_price_amazon_history : list history_record;
  p_price_buybox_history : list history_record;
  p_price_new_history : list history_record
}.

(** A row of [apify_cache]; [asin] is its key in the map. *)
Record entry : Type := {
  country : string;
  name : option string;
  brand : option string;
  rating : option F64.float;
  n_reviews : option Z;
  main_category : option string;
  primary_category : option string;
  sub_categories : list string;
  seller_type : option string;
  in_stock : Z;
  currency : option string;
  list_price : option F64.float;
  price : option F64.float;
  price_new : option F64.float;
  price_buybox : option F64.float;
  price_prime_exclusive : option F64.float;
  price_amazon : option F64.float;
  price_min : option F64.float;
  price_max : option F64.float;
  price_min_date : option string;
  price_max_date : option string;
  listed_at : option string;
  tracked_since : option string;
  last_updated : option string;
  data_captured_at : option string;
  raw_data : payload;
  created_at : Z;
  updated_at : Z
}.

Abbreviation cache := (gmap string entry).

Definition history_fields (data : payload) : list (list history_record) :=
  [p_price_amazon_history data; p_price_buybox_history data;
   p_price_new_history data].

Definition truthy_list {A : Type} (l : list A) : bool :=
  match l with [] => false | _ => true end.

Definition truthy_text (s : option string) : bool :=
  match s with None | Some EmptyString => false | Some _ => true end.

(** The first history that is not empty, in the order Amazon, BuyBox,
    New. *)
Fixpoint first_history (hs : list (list history_record)) : list history_record :=
  match hs with
  | [] => []
  | h :: hs' => if truthy_list h then h else first_history hs'
  end.

(** The records with a price that is not null and positive. *)
Definition valid_prices (h : list history_record)
    : list (F64.float * option string) :=
  omap (fun r =>
          match r with
          | Point (Some p) d => if F64.ltb F64.zero p then Some (p, d) else None
          | _ => None
          end) h.

(** [min(l, key=price)] and [max(l, key=price)]: the first of the
    least, respectively of the greatest. *)
Fixpoint min_record (l : list (F64.float * option string))
    : option (F64.float * option string) :=
  match l with
  | [] => None
  | x :: l' =>
      match min_record l' with
      | Some m => if F64.ltb (fst m) (fst x) then Some m else Some x
      | None => Some x
      end
  end.

Fixpoint max_record (l : list (F64.float * option string))
    : option (F64.float * option string) :=
  match l with
  | [] => None
  | x :: l' =>
      match max_record l' with
      | Some m => if F64.ltb (fst x) (fst m) then Some m else Some x
      | None => Some x
      end
  end.

(** [_calc_price_history]: (price_min, price_max, price_min_date,
    price_max_date) *)
Definition calc_price_history (data : payload)
    : option F64.float * option F64.float * option string * option string :=
  let valid := valid_prices (first_history (history_fields data)) in
  match min_record valid, max_record valid with
  | Some mn, Some mx => (Some (fst mn), Some (fst mx), snd mn, snd mx)
  | _, _ => (None, None, None, None)
  end.

Definition has_history (data : payload) : bool :=
  existsb truthy_list (history_fields data).

(** The four reconciled columns that [save_apify_data] stores. *)
Definition reconciled (data : payload)
    : option F64.float * option F64.float * option string * option string :=
  if has_history data then
    let '(calc_min, calc_max, calc_min_date, calc_max_date) :=
      calc_price_history data in
    (match calc_min with Some _ => calc_min | None => p_price_min data end,
     match calc_max with Some _ => calc_max | None => p_price_max data end,
     if truthy_text calc_min_date then calc_min_date else p_price_min_date data,
     if truthy_text calc_max_date then calc_max_date else p_price_max_date data)
  else
    (p_price_min data, p_price_max data,
     p_price_min_date data, p_price_max_date data).

Definition entry_of_payload (data : payload) (now : Z) : entry :=
  let '(mn, mx, mn_date, mx_date) := reconciled data in
  {| country := default "us"%string (p_country data);
     name := p_name data; brand := p_brand data; rating := p_rating data;
     n_reviews := p_n_reviews data; main_category := p_main_category data;
     primary_category := p_primary_category data;
     sub_categories := p_sub_categories data;
     seller_type := p_seller_type data;
     in_stock := if p_in_stock data then 1 else 0;
     currency := p_currency data; list_price := p_list_price data;
     price := p_price data; price_new := p_price_new data;
     price_buybox := p_price_buybox data;
     price_prime_exclusive := p_price_prime_exclusive data;
     price_amazon := p_price_amazon data;
     price_min := mn; price_max := mx;
     price_min_date := mn_date; price_max_date := mx_date;
     listed_at := p_listed_at data; tracked_since := p_tracked_since data;
     last_updated := p_last_updated data;
     data_captured_at := p_data_captured_at data;
     raw_data := data; created_at := now; updated_at := now |}.

(** [save_apify_data]: [False] and no write for a payload without
    identifier; otherwise [INSERT OR REPLACE] on the key [asin]. *)
Definition save_apify_data (data : payload) (now : Z) (c : cache)
    : bool * cache :=
  match p_asin data with
  | None | Some EmptyString => (false, c)
  | Some a => (true, <[a := entry_of_payload data now]> c)
  end.

(** [datetime.now() - timedelta(days=days)] *)
Definition cutoff (now days : Z) : Z := now - days * 86400.

Definition fresh (now days : Z) (e : entry) : bool :=
  cutoff now days <=? created_at e.

(** [get_cached_data]: [SELECT * FROM apify_cache WHERE asin = ?] *)
Definition get_cached_data (a : string) (c : cache) : option entry := c !! a.

(** [is_cached] *)
Definition is_cached (a : string) (days now : Z) (c : cache) : bool :=
  match c !! a with
  | Some e => fresh now days e
  | None => false
  end.

(** [SELECT ... WHERE asin IN (asins) AND created_at >= cutoff] *)
Definition select_fresh (asins : list string) (days now : Z) (c : cache) : cache :=
  filter (fun kv => kv.1 ∈ asins ∧ fresh now days kv.2 = true) c.

(** [get_uncached_asins] *)
Definition get_uncached_asins (asins : list string) (days now : Z) (c : cache)
    : list string :=
  match asins with
  | [] => []
  | _ =>
      let cached_asins : gset string := dom (select_fresh asins days now c) in
      filter (fun a => a ∉ cached_asins) asins
  end.

(** [get_cached_data_batch] *)
Definition get_cached_data_batch (asins : list string) (days now : Z) (c : cache)
    : cache :=
  match asins with
  | [] => ∅
  | _ => select_fresh asins days now c
  end.

(** [clean_expired_cache]: [DELETE FROM apify_cache WHERE created_at < cutoff] *)
Definition clean_expired_cache (days now : Z) (c : cache) : Z * cache :=
  (Z.of_nat (size (filter (fun kv : string * entry => fresh now days kv.2 = false) c)),
   filter (fun kv : string * entry => fresh now days kv.2 = true) c).

End ApifyDB.

(** ** [src/apify_price.py]: reads through the cache *)

Module ApifyPrice.
Import ApifyDB.

Record price_history : Type := {
  h_asin : string;
  h_price_min : option F64.float;
  h_price_max : option F64.float;
  h_price_min_date : option string;
  h_price_max_date : option string;
  h_history_count : Z;
  h_from_cache : bool
}.

Definition format_cached_data (a : string) (e : entry) : price_history :=
  {| h_asin := a; h_price_min := price_min e; h_price_max := price_max e;
     h_price_min_date := price_min_date e;
     h_price_max_date := price_max_date e;
     h_history_count := 0; h_from_cache := true |}.

Definition parse_price_history (data : payload) : option price_history :=
  match p_asin data with
  | None | Some EmptyString => None
  | Some a =>
      let valid := valid_prices (first_history (history_fields data)) in
      let '(mn, mx, mn_date, mx_date) :=
        match min_record valid, max_record valid with
        | Some mn, Some mx => (Some (fst mn), Some (fst mx), snd mn, snd mx)
        | _, _ => (None, None, None, None)
        end in
      Some {| h_asin := a; h_price_min := mn; h_price_max := mx;
              h_price_min_date := mn_date; h_price_max_date := mx_date;
              h_history_count := Z.of_nat (length valid);
              h_from_cache := false |}
  end.

(** [get_price_history].  [fetched] is what the provider returns for
    the identifier when it is asked ([None]: nothing, or an error). *)
Definition get_price_history (a : string) (cache_days now : Z)
    (fetched : option payload) (c : cache) : option price_history * cache :=
  match (if is_cached a cache_days now c then get_cached_data a c else None) with
  | Some e => (Some (format_cached_data a e), c)
  | None =>
      match fetched with
      | Some raw => (parse_price_history raw, (save_apify_data raw now c).2)
      | None => (None, c)
      end
  end.

End ApifyPrice.

(** ** [src/ai_analyzer.py]: the concurrency controller *)

Module Analyzer.

(** The fields of [GeminiProductAnalyzer] that the controller reads
    and writes. *)
Record controller : Type := {
  max_concurrent : Z;
  current_concurrent : Z;
  consecutive_successes : Z;
  success_threshold : Z
}.

(** [__init__] *)
Definition init (max_concurrent : Z) : controller :=
  {| max_concurrent := max_concurrent; current_concurrent := 5;
     consecutive_successes := 0; success_threshold := 3 |}.

(** [needle in hay] *)
Fixpoint contains (needle hay : string) : bool :=
  String.prefix needle hay ||
  match hay with
  | String _ hay' => contains needle hay'
  | EmptyString => false
  end.

Definition is_server_error (error_msg : string) : bool :=
  existsb (fun err => contains err error_msg)
    ["503"; "504"; "RESOURCE_EXHAUSTED"; "timeout"]%string.

(** [_adjust_concurrency] *)
Definition adjust_concurrency (success : bool) (error_msg : string)
    (st : controller) : controller :=
  if success then
    let n := consecutive_successes st + 1 in
    if success_threshold st <=? n then
      {| max_concurrent := max_concurrent st;
         current_concurrent :=
           Z.min (current_concurrent st + 2) (max_concurrent st);
         consecutive_successes := 0;
         success_threshold := success_threshold st |}
    else
      {| max_concurrent := max_concurrent st;
         current_concurrent := current_concurrent st;
         consecutive_successes := n;
         success_threshold := success_threshold st |}
  else if is_server_error error_msg then
    {| max_concurrent := max_concurrent st;
       current_concurrent := Z.max 1 (current_concurrent st / 2);
       consecutive_successes := 0;
       success_threshold := success_threshold st |}
  else st.

(** What one attempt of [validate_product_async] ends in: a judgment
    that parses, a judgment that does not parse, or an exception of the
    API call with its message. *)
Inductive attempt : Type :=
| Judged
| Unparsable
| Failed (error_msg : string).

Definition after_attempt (a : attempt) (st : controller) : controller :=
  match a with
  | Judged => adjust_concurrency true "" st
  | Unparsable => st
  | Failed msg => adjust_concurrency false msg st
  end.

(** The head of [filter_products_async]. *)
Definition start_batch (st : controller) : controller :=
  {| max_concurrent := max_concurrent st; current_concurrent := 5;
     consecutive_successes := 0; success_threshold := success_threshold st |}.

End Analyzer.

(* ===================================================================== *)
(** * Part II: properties                                                 *)
(* ===================================================================== *)

(** ** The concurrency controller *)

Module AnalyzerProps.
Import Analyzer.

(** The states the controller of an analyzer built with ceiling [m]
    can be in: after construction, after the start of a batch, after
    the end of an attempt. *)
Inductive reachable (m : Z) : controller -> Prop :=
| reach_init : reachable m (init m)
| reach_batch st : reachable m st -> reachable m (start_batch st)
| reach_attempt a st : reachable m st -> reachable m (after_attempt a st).

(** Markers of a transient server condition, on examples. *)
Example server_error_503 :
  is_server_error "503 Service Unavailable" = true.
Proof. reflexivity. Qed.

Example server_error_quota :
  is_server_error "429 RESOURCE_EXHAUSTED: quota" = true.
Proof. reflexivity. Qed.

Example server_error_timeout :
  is_server_error "Read timeout after 30s" = true.
Proof. reflexivity. Qed.

Example not_server_error_json :
  is_server_error "Expecting value: line 1 column 1" = false.
Proof. reflexivity. Qed.

Lemma adjust_keeps_config success msg st :
  max_concurrent (adjust_concurrency success msg st) = max_concurrent st /\
  success_threshold (adjust_concurrency success msg st) = success_threshold st.
Proof.
  unfold adjust_concurrency.
  destruct success; [destruct (_ <=? _) | destruct (is_server_error msg)];
    simpl; auto.
Qed.

(** The configuration is fixed and the streak stays below the
    threshold in every reachable state; the concurrency never drops
    below one. *)
Lemma reachable_invariant m st :
  reachable m st ->
  max_concurrent st = m /\ success_threshold st = 3 /\
  0 <= consecutive_successes st < 3 /\
  (1 <= current_concurrent st \/ current_concurrent st = m).
Proof.
  induction 1 as [| st _ IH | a st _ IH].
  - simpl. lia.
  - destruct IH as (Hm & Ht & Hs & Hc). simpl. lia.
  - destruct IH as (Hm & Ht & Hs & Hc).
    destruct a as [| | msg]; simpl; [| auto |].
    + unfold adjust_concurrency.
      destruct (Z.leb_spec (success_threshold st) (consecutive_successes st + 1));
        simpl; repeat split; try lia.
    + unfold adjust_concurrency.
      destruct (is_server_error msg); simpl; repeat split; try lia; auto.
Qed.

(** C7.  In every reachable state of the controller: a judgment that
    parses extends the streak, and the third in a row sets the
    concurrency to [min (current + 2) ceiling] and clears the streak;
    a failure whose message carries a server marker sets the
    concurrency to [max 1 (current / 2)] and clears the streak; any
    other failure, and a judgment that does not parse, change nothing;
    a new batch starts again from the initial concurrency 5 with an
    empty streak. *)
Theorem C7_controller_steps (m : Z) (st : controller) :
  reachable m st ->
  (* success below the threshold *)
  (consecutive_successes st + 1 < 3 ->
     consecutive_successes (after_attempt Judged st)
       = consecutive_successes st + 1 /\
     current_concurrent (after_attempt Judged st) = current_concurrent st) /\
  (* the third success in a row *)
  (consecutive_successes st + 1 = 3 ->
     current_concurrent (after_attempt Judged st)
       = Z.min (current_concurrent st + 2) m /\
     consecutive_successes (after_attempt Judged st) = 0) /\
  (* transient server failure *)
  (forall msg, is_server_error msg = true ->
     current_concurrent (after_attempt (Failed msg) st)
       = Z.max 1 (current_concurrent st / 2) /\
     consecutive_successes (after_attempt (Failed msg) st) = 0) /\
  (* other failures *)
  (forall msg, is_server_error msg = false ->
     after_attempt (Failed msg) st = st) /\
  after_attempt Unparsable st = st /\
  (* a new batch *)
  current_concurrent (start_batch st) = current_concurrent (init m) /\
  consecutive_successes (start_batch st) = 0.
Proof.
  intros Hr.
  destruct (reachable_invariant m st Hr) as (Hm & Ht & Hs & _).
  repeat split; simpl; unfold adjust_concurrency.
  - rewrite Ht. destruct (Z.leb_spec 3 (consecutive_successes st + 1)); simpl; lia.
  - rewrite Ht. destruct (Z.leb_spec 3 (consecutive_successes st + 1)); simpl; lia.
  - rewrite Ht, Hm.
    destruct (Z.leb_spec 3 (consecutive_successes st + 1)); simpl; lia.
  - rewrite Ht. destruct (Z.leb_spec 3 (consecutive_successes st + 1)); simpl; lia.
  - rewrite H. reflexivity.
  - rewrite H. reflexivity.
  - intros msg ->. reflexivity.
Qed.

(** Three judgments in a row that parse, from the start of a batch. *)
Definition three_successes (st : controller) : controller :=
  after_attempt Judged (after_attempt Judged (after_attempt Judged st)).

Lemma C7_controller_steps_witness :
  let st := after_attempt Judged (after_attempt Judged (start_batch (init 50))) in
  reachable 50 st /\
  current_concurrent (after_attempt Judged st) = 7 /\
  current_concurrent (after_attempt (Failed "504 Gateway Timeout") st) = 2.
Proof.
  intro st.
  assert (Hr : reachable 50 st) by (repeat constructor).
  split; [exact Hr |].
  destruct (C7_controller_steps 50 st Hr) as (_ & H3 & Hf & _).
  split.
  - rewrite (proj1 (H3 eq_refl)). reflexivity.
  - rewrite (proj1 (Hf "504 Gateway Timeout"%string eq_refl)). reflexivity.
Defined.

End AnalyzerProps.

(** ** Order of floats *)

Module F64Props.
Import F64.

Lemma compare_antisym a b : CompOpp (compare a b) = compare b a.
Proof.
  destruct a as [p | [|]], b as [q | [|]]; simpl; try reflexivity.
  apply Qcompare_antisym.
Qed.

Lemma ltb_false_of_eqb a b : eqb a b = true -> ltb b a = false.
Proof.
  unfold eqb, ltb. rewrite <- (compare_antisym a b).
  destruct (compare a b); simpl; congruence.
Qed.

(** A value equal to zero is not above a threshold that is not
    negative. *)
Lemma ltb_false_of_zero a x :
  eqb a zero = true -> leb zero x = true -> ltb x a = false.
Proof.
  unfold eqb, leb, ltb, zero.
  destruct a as [p | [|]], x as [q | [|]]; simpl; try congruence.
  destruct (Qcompare_spec p 0) as [Hp | |]; try congruence. intros _.
  destruct (Qcompare_spec 0 q) as [H0 | H0 |]; try congruence; intros _.
  - destruct (Qcompare_spec q p) as [| Hlt |]; try reflexivity.
    rewrite Hp, <- H0 in Hlt. destruct (Qlt_irrefl _ Hlt).
  - destruct (Qcompare_spec q p) as [| Hlt |]; try reflexivity.
    rewrite Hp in Hlt. destruct (Qlt_irrefl _ (Qlt_trans _ _ _ H0 Hlt)).
Qed.

Lemma leb_total a b : leb a b = false -> leb b a = true.
Proof.
  unfold leb. rewrite <- (compare_antisym a b).
  destruct (compare a b); simpl; congruence.
Qed.

Lemma leb_trans a b c : leb a b = true -> leb b c = true -> leb a c = true.
Proof.
  unfold leb.
  destruct a as [p | [|]], b as [q | [|]], c as [r | [|]]; simpl;
    try congruence.
  destruct (Qcompare_spec p q) as [H1 | H1 | H1]; try congruence; intros _;
    destruct (Qcompare_spec q r) as [H2 | H2 | H2]; try congruence; intros _;
    destruct (Qcompare_spec p r) as [H3 | H3 | H3]; try reflexivity; exfalso.
  - rewrite H1, H2 in H3. exact (Qlt_irrefl _ H3).
  - rewrite H1 in H3. exact (Qlt_irrefl _ (Qlt_trans _ _ _ H2 H3)).
  - rewrite <- H2 in H3. exact (Qlt_irrefl _ (Qlt_trans _ _ _ H1 H3)).
  - exact (Qlt_irrefl _ (Qlt_trans _ _ _ H1 (Qlt_trans _ _ _ H2 H3))).
Qed.




End F64Props.

(** ** The filter stages of the record store *)

Module DatabaseProps.
Import Database.

Lemma map_is_fmap {A B : Type} (f : A -> B) (l : list A) : map f l = f <$> l.
Proof. induction l as [| a l IH]; [reflexivity | cbn; f_equal; exact IH]. Qed.


Lemma update_status_length tag w db :
  length (update_status tag w db).2 = length db.
Proof. unfold update_status. simpl. apply length_map. Qed.

Lemma count_where_nonneg w db : 0 <= count_where w db.
Proof. unfold count_where. lia. Qed.

Lemma unfiltered_None r : unfiltered r = true <-> filter_status r = None.
Proof. unfold unfiltered, is_null. destruct (filter_status r); split; congruence. Qed.

Lemma for_keyword_eq kw r : for_keyword kw r = true <-> keyword r = kw.
Proof. unfold for_keyword. apply String.eqb_eq. Qed.

(** A row with a tag is a fixed point of every guarded update. *)
Lemma set_filter_status_id r : set_filter_status (filter_status r) r = r.
Proof. destruct r; reflexivity. Qed.

(** Rows for examples: identifier, keyword, sub-category, price, sales
    volume, sponsored flag and tag; every other column is empty. *)
Definition example_row (a kw : string) (sub : option string)
    (p : option F64.float) (sv : option Z) (sponsored : Z)
    (status : option string) : asin_row :=
  mk_row a kw "keyword_search" kw None None None None None sub p None None
    sv None None sponsored status 0 None None None None None None None None
    None.

(** *** The sales and price filters *)




Lemma count_where_zero w db :
  count_where w db = 0 -> forall r, r ∈ db -> w r = false.
Proof.
  unfold count_where. intros H r Hr.
  destruct (w r) eqn:Hw; [| reflexivity].
  assert (Hin : r ∈ filter w db) by (apply list_elem_of_filter; rewrite Hw; done).
  destruct (filter w db); [inversion Hin | simpl in H; lia].
Qed.






(** *** Every stage tags untagged rows only *)

(** The filter stages of the pipeline, with their parameters. *)
Inductive stage : Type :=
| Sponsored
| TopCategory
| LowSales (max_sales : Z)
| Price (max_price : F64.float)
| ListingDate (cutoff_date : string) (months : Z).

Definition run_stage (kw : string) (s : stage) (db : table) : table :=
  match s with
  | Sponsored => (filter_sponsored_asins kw db).2
  | TopCategory => (filter_by_top_category kw db).2
  | LowSales max_sales => (filter_low_sales_asins kw max_sales db).2
  | Price max_price => (filter_by_price kw max_price db).2
  | ListingDate cutoff_date months =>
      (filter_by_listing_date kw cutoff_date months db).2
  end.

Definition run_stages (kw : string) (ss : list stage) (db : table) : table :=
  fold_left (fun d s => run_stage kw s d) ss db.

(** How a row may differ after a stage: not at all, or by a tag put on
    a row that had none. *)
Definition tags_untagged (r r' : asin_row) : Prop :=
  r' = r \/
  (filter_status r = None /\ exists tag, r' = set_filter_status (Some tag) r).

Lemma tags_untagged_refl db : Forall2 tags_untagged db db.
Proof. induction db; constructor; auto. by left. Qed.

Lemma tags_untagged_step r r' r'' :
  tags_untagged r r' -> tags_untagged r' r'' -> tags_untagged r r''.
Proof.
  intros [-> | (Hn & tag & ->)] H; [exact H |].
  destruct H as [-> | (Hn' & _)].
  - right. eauto.
  - destruct r; simpl in *. discriminate.
Qed.

Lemma tags_untagged_trans db db' db'' :
  Forall2 tags_untagged db db' -> Forall2 tags_untagged db' db'' ->
  Forall2 tags_untagged db db''.
Proof.
  intros H. revert db''. induction H as [| r r' db db' Hr _ IH]; intros db'' H';
    inversion H'; subst; constructor; eauto using tags_untagged_step.
Qed.

(** An [UPDATE] whose [WHERE] clause ends in [filter_status IS NULL]. *)
Lemma update_status_guarded tag w db :
  Forall2 tags_untagged db
    (update_status tag (fun r => w r && unfiltered r) db).2.
Proof.
  unfold update_status. simpl. induction db as [| r db IH]; simpl; constructor; auto.
  destruct (w r); simpl; [| by left].
  destruct (unfiltered r) eqn:Hu; [| by left].
  right. split; [by apply unfiltered_None | eauto].
Qed.

Lemma run_stage_guarded kw s db : Forall2 tags_untagged db (run_stage kw s db).
Proof.
  destruct s as [| | max_sales | max_price | cutoff_date months]; simpl.
  - apply (update_status_guarded "sponsored"
             (fun r => for_keyword kw r && (is_sponsored r =? 1))).
  - unfold filter_by_top_category.
    destruct (_ =? 0); [apply tags_untagged_refl |].
    destruct (top_group _) as [[top cnt] |]; [| apply tags_untagged_refl].
    apply (update_status_guarded "category_filtered"
             (fun r => for_keyword kw r
                       && (is_null (category_sub r) || ne_text (category_sub r) top))).
  - apply (update_status_guarded "sales_filtered"
             (fun r => for_keyword kw r && gt_Z (sales_volume r) max_sales)).
  - unfold filter_by_price.
    destruct (_ =? 0); [apply tags_untagged_refl |].
    apply (update_status_guarded "price_filtered"
             (fun r => for_keyword kw r && gt_float (price r) max_price)).
  - unfold filter_by_listing_date.
    destruct (_ =? 0); [apply tags_untagged_refl |].
    eapply tags_untagged_trans.
    + apply (update_status_guarded "listing_date_filtered"
               (fun r => for_keyword kw r && negb (is_null (listing_date r))
                         && lt_text (listing_date r) cutoff_date)).
    + apply (update_status_guarded "sales_months_filtered"
               (fun r => for_keyword kw r && negb (is_null (sales_months_count r))
                         && gt_Z (sales_months_count r) months)).
Qed.

Lemma run_stages_guarded kw ss db : Forall2 tags_untagged db (run_stages kw ss db).
Proof.
  revert db. induction ss as [| s ss IH]; intros db; simpl.
  - apply tags_untagged_refl.
  - eapply tags_untagged_trans; [apply run_stage_guarded | apply IH].
Qed.

Lemma run_stages_app kw ss1 ss2 db :
  run_stages kw (ss1 ++ ss2) db = run_stages kw ss2 (run_stages kw ss1 db).
Proof. unfold run_stages. apply fold_left_app. Qed.

(** C2.  Each of the five filter stages leaves every row as it is or
    puts a tag on a row whose [filter_status] was [None]; so does any
    sequence of stages; hence a row that carries a tag after some
    stages carries the same tag, and is otherwise the same row, after
    any further stages: the first stage that tags a row decides its
    tag. *)
Theorem C2_first_tag_wins (kw : string) (db : table) :
  (forall s, Forall2 tags_untagged db (run_stage kw s db)) /\
  (forall ss, Forall2 tags_untagged db (run_stages kw ss db)) /\
  (forall ss1 ss2 i r tag,
     run_stages kw ss1 db !! i = Some r ->
     filter_status r = Some tag ->
     run_stages kw (ss1 ++ ss2) db !! i = Some r).
Proof.
  split; [intros s; apply run_stage_guarded |].
  split; [intros ss; apply run_stages_guarded |].
  intros ss1 ss2 i r tag Hi Ht. rewrite run_stages_app.
  destruct (Forall2_lookup_l _ _ _ _ _
              (run_stages_guarded kw ss2 (run_stages kw ss1 db)) Hi)
    as (r' & Hi' & [-> | (Hn & _)]); [exact Hi' | congruence].
Qed.

(** A sponsored row above the sales threshold: the stage that runs
    first gives the tag. *)
Example first_stage_attributes :
  let r := example_row "A001" "camping" (Some "Tents"%string) None (Some 500) 1 None in
  filter_status <$> run_stages "camping" [Sponsored; LowSales 100] [r]
    = [Some "sponsored"%string] /\
  filter_status <$> run_stages "camping" [LowSales 100; Sponsored] [r]
    = [Some "sales_filtered"%string].
Proof. split; reflexivity. Qed.

(** *** The category-majority filter *)

Lemma filter_bool_cons {A : Type} (w : A -> bool) (x : A) (l : list A) :
  filter w (x :: l) = if w x then x :: filter w l else filter w l.
Proof.
  destruct (w x) eqn:Hw.
  - apply filter_cons_True. by rewrite Hw.
  - apply filter_cons_False. rewrite Hw. exact id.
Qed.

Lemma count_where_cons w r db :
  count_where w (r :: db) = (if w r then 1 else 0) + count_where w db.
Proof.
  unfold count_where. rewrite filter_bool_cons.
  destruct (w r); simpl length; lia.
Qed.

Lemma count_text_cons x y l :
  count_text x (y :: l) = (if String.eqb x y then 1 else 0) + count_text x l.
Proof.
  unfold count_text. rewrite filter_bool_cons.
  destruct (String.eqb x y); simpl length; lia.
Qed.

Lemma count_text_nonneg x l : 0 <= count_text x l.
Proof. unfold count_text. lia. Qed.

Lemma count_text_pos x l : x ∈ l -> 0 < count_text x l.
Proof.
  induction 1 as [x l | x y l _ IH]; rewrite count_text_cons.
  - rewrite String.eqb_refl. pose proof (count_text_nonneg x l). lia.
  - destruct (String.eqb x y); lia.
Qed.

Lemma count_text_zero x l : x ∉ l -> count_text x l = 0.
Proof.
  induction l as [| y l IH]; intros Hx; [reflexivity |].
  rewrite count_text_cons. apply not_elem_of_cons in Hx as [Hne Hx].
  destruct (String.eqb_spec x y); [congruence | rewrite IH; auto].
Qed.

Lemma elem_of_distinct x l : x ∈ distinct l <-> x ∈ l.
Proof.
  induction l as [| y l IH]; simpl; [reflexivity |].
  rewrite !elem_of_cons, list_elem_of_filter, IH.
  destruct (String.eqb_spec x y) as [-> | Hne]; simpl; [tauto |].
  split; [tauto |]. intros [? | ?]; [tauto | right; split; auto].
Qed.

Lemma elem_of_group_by_count c n l :
  (c, n) ∈ group_by_count l <-> c ∈ l /\ n = count_text c l.
Proof.
  unfold group_by_count. rewrite map_is_fmap, list_elem_of_fmap. split.
  - intros (c' & [= -> ->] & Hc). by rewrite <- elem_of_distinct.
  - intros [Hc ->]. exists c. by rewrite elem_of_distinct.
Qed.

(** [ORDER BY cnt DESC LIMIT 1] returns a group, and no group is
    larger. *)
Lemma top_group_Some gs c n :
  top_group gs = Some (c, n) ->
  (c, n) ∈ gs /\ forall c' n', (c', n') ∈ gs -> n' <= n.
Proof.
  revert c n. induction gs as [| [gc gn] gs IH]; intros c n; simpl; [discriminate |].
  destruct (top_group gs) as [[hc hn] |] eqn:Htop.
  - destruct (IH hc hn eq_refl) as [Hin Hmax]. simpl.
    destruct (Z.ltb_spec gn hn) as [Hlt | Hge]; intros Heq;
      injection Heq as <- <-.
    + split; [by right |].
      intros c' n' Hc'. apply elem_of_cons in Hc' as [Hc' | Hc'].
      * injection Hc' as -> ->. lia.
      * eauto.
    + split; [by left |].
      intros c' n' Hc'. apply elem_of_cons in Hc' as [Hc' | Hc'].
      * injection Hc' as -> ->. lia.
      * specialize (Hmax _ _ Hc'). lia.
  - intros Heq. injection Heq as <- <-.
    destruct gs as [| g' gs']; [| simpl in Htop].
    + split; [by left |].
      intros c' n' Hc'. apply elem_of_cons in Hc' as [Hc' | Hc'].
      * injection Hc' as -> ->. lia.
      * inversion Hc'.
    + destruct (top_group gs') as [h |]; [destruct (_ <? _) |]; discriminate.
Qed.

Lemma top_group_None gs : top_group gs = None -> gs = [].
Proof.
  destruct gs as [| g gs]; [reflexivity |]. simpl.
  destruct (top_group gs) as [h |]; [destruct (_ <? _) |]; discriminate.
Qed.

(** The untagged rows of the keyword, and among them the group of a
    sub-category. *)
Definition candidate (kw : string) (r : asin_row) : bool :=
  for_keyword kw r && unfiltered r.

Definition group_size (kw c : string) (db : table) : Z :=
  count_where (fun r => candidate kw r && eq_text (category_sub r) c) db.

(** The rows that the category filter tags when [top] is selected. *)
Definition category_where (kw top : string) (r : asin_row) : bool :=
  for_keyword kw r
  && (is_null (category_sub r) || ne_text (category_sub r) top)
  && unfiltered r.

Lemma category_where_spec kw top r :
  category_where kw top r = true <->
  keyword r = kw /\ filter_status r = None /\ category_sub r <> Some top.
Proof.
  unfold category_where. rewrite !andb_true_iff, orb_true_iff.
  rewrite for_keyword_eq, unfiltered_None.
  unfold is_null, ne_text. destruct (category_sub r) as [c |].
  - destruct (String.eqb_spec c top) as [-> | Hne]; simpl.
    + split; [intros [[_ [? | ?]] _]; discriminate | intros (_ & _ & H); congruence].
    + split; [intros [[? _] ?] | intros (? & ? & _)]; repeat split; auto.
      congruence.
  - split; [intros [[? _] ?] | intros (? & ? & _)]; repeat split; auto.
Qed.

Lemma elem_of_grouped c kw db :
  c ∈ grouped_sub_categories kw db <->
  exists r, r ∈ db /\ candidate kw r = true /\ category_sub r = Some c /\ c <> ""%string.
Proof.
  unfold grouped_sub_categories, candidate. rewrite list_elem_of_omap.
  split; intros (r & Hr & H); exists r; (split; [exact Hr |]).
  - destruct (for_keyword kw r), (unfiltered r); simpl in *;
      rewrite ?andb_false_r in H; try discriminate.
    destruct (category_sub r) as [c' |]; simpl in *; [| discriminate].
    destruct (String.eqb_spec c' ""); simpl in *; [discriminate |].
    injection H as ->. auto.
  - destruct H as (Hc & -> & Hne). apply andb_true_iff in Hc as [-> ->].
    simpl. destruct (String.eqb_spec c ""); [congruence | reflexivity].
Qed.

Lemma group_size_grouped kw c db :
  c <> ""%string -> count_text c (grouped_sub_categories kw db) = group_size kw c db.
Proof.
  intros Hc. unfold group_size, grouped_sub_categories, candidate.
  induction db as [| r db IH]; [reflexivity |].
  rewrite count_where_cons, <- IH. cbn [omap list_omap].
  destruct (for_keyword kw r), (unfiltered r); simpl; try lia;
    rewrite ?andb_false_r; try lia.
  destruct (category_sub r) as [c' |]; simpl; [| lia].
  destruct (String.eqb_spec c' ""); simpl.
  - subst c'. destruct (String.eqb_spec "" c); [congruence | lia].
  - rewrite count_text_cons, (String.eqb_sym c c'). lia.
Qed.

(** Counting the candidates after a guarded update. *)
Lemma count_after_update kw tag w db :
  (forall r, w r = true -> candidate kw r = true) ->
  count_where (candidate kw) (update_status tag w db).2
  = count_where (candidate kw) db - count_where w db.
Proof.
  intros Hw. unfold update_status. simpl.
  induction db as [| r db IH]; [reflexivity |].
  simpl map. rewrite !count_where_cons, IH.
  destruct (w r) eqn:Hr.
  - rewrite (Hw r Hr). unfold candidate, unfiltered. simpl.
    rewrite andb_false_r. lia.
  - destruct (candidate kw r); lia.
Qed.

Lemma category_where_candidate kw top r :
  category_where kw top r = true -> candidate kw r = true.
Proof.
  unfold category_where, candidate.
  destruct (for_keyword kw r), (unfiltered r); simpl;
    rewrite ?andb_false_r; auto.
Qed.

Lemma count_where_le kw w db :
  (forall r, w r = true -> candidate kw r = true) ->
  count_where w db <= count_where (candidate kw) db.
Proof.
  intros Hw. induction db as [| r db IH]; [reflexivity |].
  rewrite !count_where_cons. destruct (w r) eqn:Hr.
  - rewrite (Hw r Hr). lia.
  - destruct (candidate kw r); lia.
Qed.

Lemma group_by_count_nil l : group_by_count l = [] -> l = [].
Proof.
  destruct l as [| x l]; [reflexivity |]. discriminate.
Qed.

(** A row without sub-category: [NULL] or the empty text. *)
Definition no_sub_category (r : asin_row) : Prop :=
  category_sub r = None \/ category_sub r = Some ""%string.

(** C1.  For every keyword and table, the category-majority filter
    - reports as total the number of untagged rows of the keyword, as
      kept the number of them that are still untagged afterwards, and
      kept + removed = total;
    - selects no category exactly when no untagged row of the keyword
      has a sub-category, and then changes no row;
    - otherwise selects a sub-category whose group of untagged rows is
      not empty and at least as large as every other group, and puts
      the tag [category_filtered] on exactly the untagged rows of the
      keyword whose sub-category is not the selected one (null and
      empty included); every other row is unchanged. *)
Theorem C1_category_majority (kw : string) (db : table) :
  let rep := (filter_by_top_category kw db).1 in
  let db' := (filter_by_top_category kw db).2 in
  cat_total rep = count_where (candidate kw) db /\
  cat_kept rep = count_where (candidate kw) db' /\
  cat_kept rep + cat_removed rep = cat_total rep /\
  0 <= cat_removed rep /\
  (top_category rep = None <->
   forall r, r ∈ db -> candidate kw r = true -> no_sub_category r) /\
  (top_category rep = None -> db' = db) /\
  (forall top, top_category rep = Some top ->
     top <> ""%string /\
     top_category_count rep = group_size kw top db /\
     0 < group_size kw top db /\
     (forall c, c <> ""%string -> group_size kw c db <= group_size kw top db) /\
     db' = map (fun r =>
                  if decide (keyword r = kw /\ filter_status r = None /\
                             category_sub r <> Some top)
                  then set_filter_status (Some "category_filtered"%string) r
                  else r) db).
Proof.
  unfold filter_by_top_category.
  change (count_where (fun r => for_keyword kw r && unfiltered r) db)
    with (count_where (candidate kw) db).
  destruct (Z.eqb_spec (count_where (candidate kw) db) 0) as [H0 | Hpos].
  { (* no candidate row *)
    simpl. rewrite H0. split_and!; try done.
    split; [| done]. intros _ r Hr Hc.
    rewrite (count_where_zero _ _ H0 r Hr) in Hc. discriminate. }
  destruct (top_group (group_by_count (grouped_sub_categories kw db)))
    as [[top cnt] |] eqn:Htop.
  - (* a category is selected *)
    apply top_group_Some in Htop as [Hin Hmax].
    apply elem_of_group_by_count in Hin as [Hin ->].
    pose proof (proj1 (elem_of_grouped _ _ _) Hin) as (r0 & Hr0 & Hc0 & Hs0 & Hne).
    change (fun r => for_keyword kw r
              && (is_null (category_sub r) || ne_text (category_sub r) top)
              && unfiltered r) with (category_where kw top).
    rewrite (surjective_pairing (update_status _ _ _)).
    cbn [fst snd cat_total cat_kept cat_removed top_category top_category_count].
    rewrite (count_after_update kw _ _ db (category_where_candidate kw top)).
    split_and!.
    + reflexivity.
    + reflexivity.
    + lia.
    + apply count_where_nonneg.
    + split; [discriminate |].
      intros Hall. destruct (Hall r0 Hr0 Hc0) as [H | H]; congruence.
    + discriminate.
    + intros top' Htop'. injection Htop' as <-. split_and!.
      * exact Hne.
      * by apply group_size_grouped.
      * rewrite <- group_size_grouped by exact Hne. by apply count_text_pos.
      * intros c Hc. rewrite <- !group_size_grouped by assumption.
        destruct (decide (c ∈ grouped_sub_categories kw db)) as [Hcin | Hcout].
        -- apply (Hmax c). by apply elem_of_group_by_count.
        -- rewrite (count_text_zero _ _ Hcout). apply count_text_nonneg.
      * unfold update_status. cbn [snd]. apply map_ext. intros r.
        destruct (category_where kw top r) eqn:Hw.
        -- apply category_where_spec in Hw. by rewrite decide_True.
        -- rewrite decide_False; [done |].
           rewrite <- category_where_spec. congruence.
  - (* rows, but none with a sub-category *)
    apply top_group_None, group_by_count_nil in Htop.
    simpl. split_and!; try done; try lia.
    split; [| done]. intros _ r Hr Hc. unfold no_sub_category.
    destruct (category_sub r) as [c |] eqn:Hs; [| by left].
    destruct (String.eqb_spec c "") as [-> | Hne]; [by right |].
    assert (Hin : c ∈ grouped_sub_categories kw db)
      by (apply elem_of_grouped; eauto).
    rewrite Htop in Hin. inversion Hin.
Qed.

(** The fixture of [tests/test_filter.py]: groups of 5, 3 and 2 rows
    and one row without sub-category. *)
Definition camping_rows : table :=
  let row a sub sv := example_row a "camping" sub None (Some sv) 0 None in
  [ row "A001" (Some "Tents") 50; row "A002" (Some "Tents") 80;
    row "A003" (Some "Tents") 120; row "A004" (Some "Tents") 30;
    row "A005" (Some "Tents") 200;
    row "B001" (Some "Sleeping Bags") 40; row "B002" (Some "Sleeping Bags") 150;
    row "B003" (Some "Sleeping Bags") 60;
    row "C001" (Some "Backpacks") 90; row "C002" (Some "Backpacks") 10;
    row "D001" None 25 ]%string.

Example camping_category_filter :
  let rep := (filter_by_top_category "camping" camping_rows).1 in
  (cat_total rep, top_category rep, top_category_count rep, cat_kept rep,
   cat_removed rep) = (11, Some "Tents"%string, 5, 5, 6).
Proof. reflexivity. Qed.

Example camping_then_sales_filter :
  let db1 := (filter_by_top_category "camping" camping_rows).2 in
  let rep := (filter_low_sales_asins "camping" 100 db1).1 in
  (total rep, removed rep, kept rep) = (5, 2, 3).
Proof. reflexivity. Qed.

(** *** The median price *)

Definition fle (a b : F64.float) : Prop := F64.leb a b = true.

Lemma insert_sorted_Forall (P : F64.float -> Prop) x l :
  P x -> Forall P l -> Forall P (insert_sorted x l).
Proof.
  intros Hx. induction 1 as [| y l Hy Hl IH]; simpl.
  - by constructor.
  - destruct (F64.leb x y).
    + constructor; [exact Hx |]. by constructor.
    + by constructor.
Qed.

Lemma insert_sorted_sorted x l :
  StronglySorted fle l -> StronglySorted fle (insert_sorted x l).
Proof.
  induction 1 as [| y l Hs IH Hy]; simpl.
  - repeat constructor.
  - destruct (F64.leb x y) eqn:Hxy.
    + constructor; [by constructor |].
      constructor; [exact Hxy |].
      eapply Forall_impl; [exact Hy |]. intros z Hz.
      exact (F64Props.leb_trans _ _ _ Hxy Hz).
    + constructor; [exact IH |].
      apply insert_sorted_Forall; [| exact Hy].
      by apply F64Props.leb_total.
Qed.

Lemma insert_sorted_perm x l : insert_sorted x l ≡ₚ x :: l.
Proof.
  induction l as [| y l IH]; simpl; [done |].
  destruct (F64.leb x y); [done |].
  rewrite IH. apply Permutation_swap.
Qed.

(** [ORDER BY price] sorts, and keeps every price with its
    multiplicity. *)
Lemma order_by_price_sorted l :
  StronglySorted fle (order_by_price l) /\ order_by_price l ≡ₚ l.
Proof.
  unfold order_by_price. induction l as [| x l [IHs IHp]]; simpl.
  - split; [constructor | done].
  - split; [by apply insert_sorted_sorted |].
    by rewrite insert_sorted_perm, IHp.
Qed.

(** The positive prices of all rows of the keyword in one
    sub-category, tagged or not, in table order. *)
Definition priced_in_category (kw top : string) (db : table) : list F64.float :=
  omap (fun r =>
          if for_keyword kw r && eq_text (category_sub r) top
             && gt_float (price r) F64.zero
          then price r else None) db.

(** The prices of the selected group proper: the untagged rows only. *)
Definition group_prices (kw top : string) (db : table) : list F64.float :=
  order_by_price (priced_in_category kw top (filter unfiltered db)).

Lemma median_of_selected kw db top :
  top_category (filter_by_top_category kw db).1 = Some top ->
  median_price (filter_by_top_category kw db).1
  = median_of_sorted (category_prices kw top db).
Proof.
  unfold filter_by_top_category.
  destruct (_ =? 0); [discriminate |].
  destruct (top_group _) as [[top' cnt] |]; [| discriminate].
  rewrite (surjective_pairing (update_status _ _ _)). simpl.
  by intros [= ->].
Qed.

Lemma median_odd prices k :
  length prices = (2 * k + 1)%nat ->
  median_of_sorted prices = Some (F64.round2 (nth k prices F64.zero)).
Proof.
  intros Hn. unfold median_of_sorted.
  destruct prices as [| p prices]; [simpl in Hn; lia |].
  rewrite Hn.
  replace ((2 * k + 1) mod 2)%nat with 1%nat
    by (rewrite Nat.add_comm, Nat.mul_comm, Nat.Div0.mod_add; reflexivity).
  replace ((2 * k + 1) / 2)%nat with k
    by (rewrite Nat.add_comm, Nat.mul_comm, Nat.div_add by lia; reflexivity).
  reflexivity.
Qed.

Lemma median_even prices k :
  length prices = (2 * k + 2)%nat ->
  median_of_sorted prices
  = Some (F64.round2
            (F64.div (F64.add (nth k prices F64.zero)
                              (nth (k + 1) prices F64.zero)) 2)).
Proof.
  intros Hn. unfold median_of_sorted.
  destruct prices as [| p prices]; [simpl in Hn; lia |].
  rewrite Hn.
  replace (2 * k + 2)%nat with ((k + 1) * 2)%nat by lia.
  rewrite Nat.Div0.mod_mul, Nat.div_mul by lia.
  replace (k + 1 - 1)%nat with k by lia.
  reflexivity.
Qed.

(** A sponsored row of the selected sub-category is not in the
    selected group, yet its price enters the median: the group has the
    single price 10, the reported median is 20. *)
Lemma C9_median_reads_tagged_rows :
  let db := [ example_row "A001" "camping" (Some "Tents"%string)
                (Some (F64.Finite 10)) None 0 None;
              example_row "A002" "camping" (Some "Tents"%string)
                (Some (F64.Finite 30)) None 1 (Some "sponsored"%string) ] in
  let rep := (filter_by_top_category "camping" db).1 in
  top_category rep = Some "Tents"%string /\
  group_prices "camping" "Tents" db = [F64.Finite 10] /\
  median_of_sorted (group_prices "camping" "Tents" db) = Some (F64.Finite 10) /\
  median_price rep = Some (F64.Finite 20) /\
  median_price rep <> median_of_sorted (group_prices "camping" "Tents" db).
Proof. vm_compute. repeat split; congruence. Qed.

(** C9, as the code has it.  When a sub-category is selected, the
    reported median is taken over the positive prices of all rows of
    the keyword in that sub-category, tagged or not: the prices are
    sorted in full, the list is a permutation of those prices, and the
    median is the middle element for an odd count and the mean of the
    two middle elements for an even count, rounded to two decimals;
    there is no median when there is no such price. *)
Theorem C9_median_price (kw : string) (db : table) (top : string) :
  top_category (filter_by_top_category kw db).1 = Some top ->
  let prices := category_prices kw top db in
  let median := median_price (filter_by_top_category kw db).1 in
  StronglySorted fle prices /\
  prices ≡ₚ priced_in_category kw top db /\
  (prices = [] -> median = None) /\
  (forall k, length prices = (2 * k + 1)%nat ->
     median = Some (F64.round2 (nth k prices F64.zero))) /\
  (forall k, length prices = (2 * k + 2)%nat ->
     median = Some (F64.round2
                      (F64.div (F64.add (nth k prices F64.zero)
                                        (nth (k + 1) prices F64.zero)) 2))).
Proof.
  intros Htop prices median. subst median.
  rewrite (median_of_selected kw db top Htop). fold prices.
  destruct (order_by_price_sorted (priced_in_category kw top db)) as [Hs Hp].
  split_and!.
  - exact Hs.
  - exact Hp.
  - by intros ->.
  - intros k. apply median_odd.
  - intros k. apply median_even.
Qed.

(** Prices 10 and 20 give the median 15. *)
Lemma C9_median_price_witness :
  let db := [ example_row "A001" "camping" (Some "Tents"%string)
                (Some (F64.Finite 20)) None 0 None;
              example_row "A002" "camping" (Some "Tents"%string)
                (Some (F64.Finite 10)) None 0 None ] in
  category_prices "camping" "Tents" db = [F64.Finite 10; F64.Finite 20] /\
  median_price (filter_by_top_category "camping" db).1 = Some (F64.Finite 15).
Proof.
  intro db. split; [reflexivity |].
  destruct (C9_median_price "camping" db "Tents" eq_refl) as (_ & _ & _ & _ & He).
  rewrite (He 0%nat eq_refl). reflexivity.
Defined.

(** A median is rounded to two decimals. *)
Example median_is_rounded :
  let p := F64.round64 (1234 # 1000) in
  median_of_sorted [p] = Some (F64.round64 (123 # 100)) /\
  F64.eqb p (F64.round64 (123 # 100)) = false.
Proof. vm_compute. split; reflexivity. Qed.

(** *** The upsert *)

(** The columns that [INSERT OR REPLACE] does not list are at their
    defaults in the row it writes. *)
Definition at_defaults (now : Z) (r : asin_row) : Prop :=
  filter_status r = None /\ created_at r = now /\
  sales_3m r = None /\ price_min r = None /\ price_max r = None /\
  price_min_date r = None /\ price_max_date r = None /\
  ss_monthly_sales r = None /\ listing_date r = None /\
  avg_monthly_sales r = None /\ sales_months_count r = None.

(** The descriptive columns that are copied from the item as they
    are. *)
Definition describes (it : item) (r : asin_row) : Prop :=
  name r = i_name it /\ brand r = i_brand it /\ category r = i_category it /\
  category_path r = i_category_path it /\
  category_main r = i_category_main it /\
  category_sub r = i_category_sub it /\
  page_rank r = i_page it /\ url r = i_url it /\
  is_sponsored r = (if i_is_sponsored it then 1 else 0) /\
  (forall v, i_sales_volume it = Some v -> sales_volume r = Some v).

Lemma row_of_item_Returns it a kw st sv now r :
  row_of_item it a kw st sv now = Returns r ->
  asin r = a /\ keyword r = kw /\ source_type r = st /\ source_value r = sv /\
  at_defaults now r /\ describes it r.
Proof.
  unfold row_of_item, mbind, py_bind.
  destruct (Utils.parse_price (i_price it)) as [p | e]; [| discriminate].
  destruct (i_sales_volume it) as [v |] eqn:Hsv.
  - intros [= <-]. unfold at_defaults, describes. simpl. rewrite Hsv. split_and!; auto.
  - destruct (Utils.parse_sales _) as [n | e]; [| discriminate].
    intros [= <-]. unfold at_defaults, describes. simpl. rewrite Hsv.
    split_and!; auto. discriminate.
Qed.


Lemma same_key_spec a kw r : same_key a kw r = true <-> asin r = a /\ keyword r = kw.
Proof. unfold same_key. by rewrite andb_true_iff, !String.eqb_eq. Qed.




End DatabaseProps.

(** ** The TTL cache *)

Module ApifyDBProps.
Import ApifyDB.





(** The payload carries no price series. *)
Definition no_series (data : payload) : Prop :=
  p_price_amazon_history data = [] /\ p_price_buybox_history data = [] /\
  p_price_new_history data = [].

Lemma has_history_false data : has_history data = false <-> no_series data.
Proof.
  unfold has_history, history_fields, no_series. simpl.
  destruct (p_price_amazon_history data), (p_price_buybox_history data),
    (p_price_new_history data); simpl; split; try done;
    intros (? & ? & ?); discriminate.
Qed.




(** The payload of [tests/test_apify_db.py]: a series of three prices
    and, here, a provider's summary of another magnitude. *)
Definition sample_payload (history : list history_record)
    (mn mx : option F64.float) (mn_date mx_date : option string) : payload :=
  {| p_asin := Some "B0BK9HFZ77"%string; p_country := Some "us"%string;
     p_name := Some "Amico 24 Pack LED Light"%string;
     p_brand := Some "Amico"%string; p_rating := None; p_n_reviews := Some 2270;
     p_main_category := None; p_primary_category := None;
     p_sub_categories := []; p_seller_type := Some "FBA"%string;
     p_in_stock := true; p_currency := Some "USD"%string;
     p_list_price := None; p_price := None; p_price_new := None;
     p_price_buybox := None; p_price_prime_exclusive := None;
     p_price_amazon := None;
     p_price_min := mn; p_price_max := mx;
     p_price_min_date := mn_date; p_price_max_date := mx_date;
     p_listed_at := None; p_tracked_since := None; p_last_updated := None;
     p_data_captured_at := None;
     p_price_amazon_history := []; p_price_buybox_history := [];
     p_price_new_history := history |}.

Definition dec (n : Z) : F64.float := F64.round64 (n # 100).




(** *** Freshness *)

Lemma fresh_spec now days e :
  fresh now days e = true <-> now - created_at e <= days * 86400.
Proof. unfold fresh, cutoff. rewrite Z.leb_le. lia. Qed.

Lemma select_fresh_lookup asins days now (c : cache) a e :
  select_fresh asins days now c !! a = Some e <->
  a ∈ asins /\ c !! a = Some e /\ fresh now days e = true.
Proof. unfold select_fresh. rewrite map_lookup_filter_Some. simpl. tauto. Qed.

Lemma is_cached_spec a days now (c : cache) :
  is_cached a days now c = true <->
  exists e, c !! a = Some e /\ fresh now days e = true.
Proof.
  unfold is_cached. destruct (c !! a) as [e |].
  - split; [eauto | by intros (e' & [= <-] & H)].
  - split; [done | by intros (e' & ? & _)].
Qed.

Lemma filter_ext_in {A : Type} (P Q : A -> Prop)
    `{!forall x, Decision (P x)} `{!forall x, Decision (Q x)} (l : list A) :
  (forall x, x ∈ l -> P x <-> Q x) -> filter P l = filter Q l.
Proof.
  induction l as [| x l IH]; intros Hext; [reflexivity |].
  rewrite !filter_cons.
  rewrite IH by (intros y Hy; apply Hext; by right).
  assert (Hx : P x <-> Q x) by (apply Hext; by left).
  destruct (decide (P x)), (decide (Q x)); try reflexivity; tauto.
Qed.

Lemma uncached_filter asins days now (c : cache) :
  get_uncached_asins asins days now c
  = filter (fun a => is_cached a days now c = false) asins.
Proof.
  unfold get_uncached_asins. destruct asins as [| a0 asins0]; [done |].
  apply filter_ext_in. intros a Ha.
  rewrite elem_of_dom, <- not_true_iff_false, is_cached_spec.
  split; intros Hn.
  - intros (e & He & Hf). apply Hn. exists e.
    apply select_fresh_lookup. auto.
  - intros [e He]. apply select_fresh_lookup in He as (_ & He & Hf). eauto.
Qed.

Lemma batch_lookup asins days now (c : cache) a e :
  get_cached_data_batch asins days now c !! a = Some e <->
  a ∈ asins /\ c !! a = Some e /\ fresh now days e = true.
Proof.
  unfold get_cached_data_batch. destruct asins as [| a0 asins0].
  - rewrite lookup_empty. split; [done | intros [Ha _]; inversion Ha].
  - apply select_fresh_lookup.
Qed.


(** The fixture of the tests: one fresh entry, two unknown
    identifiers; and the same entry twenty-five days later. *)
Example uncached_example :
  let data := sample_payload [] None None None None in
  let c := (save_apify_data data 1000 ∅).2 in
  get_uncached_asins ["B0BK9HFZ77"; "B0NEW12345"; "B0NEW67890"]%string 20 1000 c
    = ["B0NEW12345"; "B0NEW67890"]%string /\
  get_uncached_asins ["B0BK9HFZ77"; "B0NEW12345"]%string 20 (1000 + 25 * 86400) c
    = ["B0BK9HFZ77"; "B0NEW12345"]%string /\
  dom (get_cached_data_batch ["B0BK9HFZ77"; "B0NOTEXIST"]%string 20 1000 c)
    = {["B0BK9HFZ77"%string]} /\
  get_cached_data_batch ["B0BK9HFZ77"]%string 20 (1000 + 25 * 86400) c = ∅.
Proof. vm_compute. repeat split. Qed.

End ApifyDBProps.

(** ** Stale entries *)

Module StaleProps.
Import ApifyDB ApifyPrice ApifyDBProps.


Lemma clean_expired_lookup days now (c : cache) a e :
  (clean_expired_cache days now c).2 !! a = Some e <->
  c !! a = Some e /\ fresh now days e = true.
Proof. unfold clean_expired_cache. cbn [snd]. by rewrite map_lookup_filter_Some. Qed.



End StaleProps.

(* ===================================================================== *)
(** * Part III: further functions of the cited files                      *)
(* ===================================================================== *)

(** ** Rounding keeps the sign *)

Module F64Sign.
Import F64.

(** A float that is not negative. *)
Definition nonneg (a : float) : Prop :=
  match a with
  | Finite q => (0 <= q)%Q
  | Inf negative => negative = false
  end.

Lemma pow2_pos e : (0 < pow2 e)%Q.
Proof.
  unfold pow2. destruct (0 <=? e) eqn:He.
  - replace 0%Q with (inject_Z 0) by reflexivity. rewrite <- Zlt_Qlt.
    apply Z.pow_pos_nonneg; lia.
  - apply Qinv_lt_0_compat.
    replace 0%Q with (inject_Z 0) by reflexivity. rewrite <- Zlt_Qlt.
    apply Z.pow_pos_nonneg; lia.
Qed.

Lemma rne_nonneg x : (0 <= x)%Q -> 0 <= rne x.
Proof.
  intros Hx. unfold rne.
  assert (Hf : 0 <= Qfloor x) by (change 0 with (Qfloor 0); by apply Qfloor_resp_le).
  destruct (Qcompare _ _); [destruct (Z.even _) | |]; lia.
Qed.

Lemma round64_nonneg x : (0 <= x)%Q -> nonneg (round64 x).
Proof.
  intros Hx. unfold round64.
  destruct (Qeq_bool x 0); [simpl; apply Qle_refl |].
  rewrite (proj2 (Qle_bool_iff 0 x) Hx). simpl negb. cbv zeta.
  destruct (Qle_bool _ _); [reflexivity |].
  simpl. rewrite Qred_correct.
  apply Qmult_le_0_compat; [| apply Qlt_le_weak, pow2_pos].
  replace 0%Q with (inject_Z 0) by reflexivity. rewrite <- Zle_Qle.
  apply rne_nonneg. apply Qle_shift_div_l; [apply pow2_pos |].
  rewrite Qmult_0_l. apply Qabs_nonneg.
Qed.

Lemma mul_nonneg a k : nonneg a -> (0 < k)%Q -> nonneg (mul a k).
Proof.
  destruct a as [q | n]; simpl; intros Ha Hk.
  - apply round64_nonneg. apply Qmult_le_0_compat; [done | by apply Qlt_le_weak].
  - subst n. simpl. by rewrite (proj2 (Qle_bool_iff 0 k) (Qlt_le_weak _ _ Hk)).
Qed.

(** [int] of a float that is not negative: a natural number, or the
    overflow of [int(inf)]. *)
Lemma to_int_nonneg a :
  nonneg a ->
  to_int a = Raises OverflowError \/ exists v, to_int a = Returns v /\ 0 <= v.
Proof.
  destruct a as [q | n]; simpl; intros Ha; [right | by left].
  eexists. split; [reflexivity |].
  apply Z.quot_pos; [| lia]. destruct q as [qn qd]. unfold Qle in Ha. simpl in *. lia.
Qed.

End F64Sign.

(** ** What the backtracking matcher finds *)

Module RegexProps.
Import Regex.

(** Every character of a string is in a class. *)
Fixpoint all_in (p : ascii -> bool) (s : string) : Prop :=
  match s with
  | String a s' => p a = true /\ all_in p s'
  | EmptyString => True
  end.

(** [matches r s c c']: the expression [r] matches exactly the text [s],
    and the groups recorded on the way turn [c] into [c']. *)
Inductive matches : re -> string -> captures -> captures -> Prop :=
| matches_cls p a c :
    p a = true -> matches (Cls p) (String a EmptyString) c c
| matches_star p s c :
    all_in p s -> matches (Star p) s c c
| matches_seq r1 r2 s1 s2 c c1 c2 :
    matches r1 s1 c c1 -> matches r2 s2 c1 c2 ->
    matches (Seq r1 r2) (s1 +:+ s2) c c2
| matches_opt_skip r c :
    matches (Opt r) EmptyString c c
| matches_opt_take r s c c' :
    matches r s c c' -> matches (Opt r) s c c'
| matches_group n r s c c' :
    matches r s c c' -> matches (Group n r) s c (set_group n s c').

Lemma append_cons a s1 s2 : String a s1 +:+ s2 = String a (s1 +:+ s2).
Proof. reflexivity. Qed.

Lemma length_append s1 s2 :
  String.length (s1 +:+ s2) = (String.length s1 + String.length s2)%nat.
Proof.
  induction s1 as [| a s1 IH]; [reflexivity |].
  rewrite append_cons. simpl. by rewrite IH.
Qed.

Lemma append_assoc s1 s2 s3 : (s1 +:+ s2) +:+ s3 = s1 +:+ (s2 +:+ s3).
Proof.
  induction s1 as [| a s1 IH]; [reflexivity |].
  rewrite !append_cons. by rewrite IH.
Qed.

Lemma append_nil_r s : s +:+ EmptyString = s.
Proof.
  induction s as [| a s IH]; [reflexivity |].
  rewrite append_cons. by rewrite IH.
Qed.

Lemma substring_prefix s1 s2 : substring 0 (String.length s1) (s1 +:+ s2) = s1.
Proof.
  induction s1 as [| a s1 IH].
  - by destruct s2.
  - rewrite append_cons. simpl. by rewrite IH.
Qed.

Lemma consumed_append s1 s2 : consumed (s1 +:+ s2) s2 = s1.
Proof.
  unfold consumed. rewrite length_append.
  replace (String.length s1 + String.length s2 - String.length s2)%nat
    with (String.length s1) by lia.
  apply substring_prefix.
Qed.

Lemma star_sound {A : Type} p s (k : string -> option A) res :
  star p s k = Some res ->
  exists s1 s2, s = s1 +:+ s2 /\ all_in p s1 /\ k s2 = Some res.
Proof.
  induction s as [| a s IH]; simpl; intros H.
  - exists EmptyString, EmptyString. by repeat split.
  - destruct (p a) eqn:Hp.
    + destruct (star p s k) as [r |] eqn:Hs.
      * injection H as ->. destruct (IH eq_refl) as (s1 & s2 & -> & H1 & H2).
        exists (String a s1), s2. by repeat split.
      * exists EmptyString, (String a s). by repeat split.
    + exists EmptyString, (String a s). by repeat split.
Qed.

(** Whatever the matcher returns comes from a match of the expression
    at the head of the text, followed by a success of what comes after
    it. *)
Lemma run_sound r : forall s c k res,
  run r s c k = Some res ->
  exists s1 s2 c', s = s1 +:+ s2 /\ matches r s1 c c' /\ k s2 c' = Some res.
Proof.
  induction r as [p | p | r1 IH1 r2 IH2 | r IH | n r IH]; intros s c k res H;
    simpl in H.
  - destruct s as [| a s]; [discriminate |].
    destruct (p a) eqn:Hp; [| discriminate].
    exists (String a EmptyString), s, c. repeat split; [by constructor | done].
  - apply star_sound in H as (s1 & s2 & -> & H1 & H2).
    exists s1, s2, c. repeat split; [by constructor | done].
  - apply IH1 in H as (s1 & s' & c1 & -> & H1 & H).
    apply IH2 in H as (s2 & s3 & c2 & -> & H2 & H).
    exists (s1 +:+ s2), s3, c2. repeat split.
    + by rewrite append_assoc.
    + by econstructor.
    + done.
  - destruct (run r s c k) as [res' |] eqn:Hr.
    + injection H as ->. apply IH in Hr as (s1 & s2 & c' & -> & H1 & H2).
      exists s1, s2, c'. repeat split; [by constructor | done].
    + exists EmptyString, s, c. repeat split; [constructor | done].
  - apply IH in H as (s1 & s2 & c' & -> & H1 & H2).
    rewrite consumed_append in H2.
    exists s1, s2, (set_group n s1 c'). repeat split; [by constructor | done].
Qed.

(** A result of [re.search] is a match of the expression somewhere in
    the text. *)
Lemma search_sound r s m :
  search r s = Some m ->
  exists pre mid post, s = pre +:+ mid +:+ post /\ matches r mid no_captures m.
Proof.
  induction s as [| a s IH]; simpl; intros H.
  - destruct (match_here r EmptyString) as [c |] eqn:Hm; [| discriminate].
    injection H as ->. apply run_sound in Hm as (s1 & s2 & c' & Hs & H1 & H2).
    injection H2 as ->. exists EmptyString, s1, s2. by split.
  - destruct (match_here r (String a s)) as [c |] eqn:Hm.
    + injection H as ->. apply run_sound in Hm as (s1 & s2 & c' & Hs & H1 & H2).
      injection H2 as ->. exists EmptyString, s1, s2. by split.
    + destruct (IH H) as (pre & mid & post & -> & Hmid).
      exists (String a pre), mid, post. by split.
Qed.

(** Inversion of [matches], one lemma for each form of expression. *)
Lemma matches_cls_inv p s c c' :
  matches (Cls p) s c c' ->
  exists a, s = String a EmptyString /\ p a = true /\ c' = c.
Proof. inversion 1; subst. eauto. Qed.

Lemma matches_star_inv p s c c' :
  matches (Star p) s c c' -> all_in p s /\ c' = c.
Proof. inversion 1; subst. auto. Qed.

Lemma matches_seq_inv r1 r2 s c c' :
  matches (Seq r1 r2) s c c' ->
  exists s1 s2 c1, s = s1 +:+ s2 /\ matches r1 s1 c c1 /\ matches r2 s2 c1 c'.
Proof. inversion 1; subst. eauto 10. Qed.

Lemma matches_opt_inv r s c c' :
  matches (Opt r) s c c' -> (s = EmptyString /\ c' = c) \/ matches r s c c'.
Proof. inversion 1; subst; auto. Qed.

Lemma matches_group_inv n r s c c' :
  matches (Group n r) s c c' ->
  exists c1, matches r s c c1 /\ c' = set_group n s c1.
Proof. inversion 1; subst. eauto. Qed.

Lemma matches_plus_inv p s c c' :
  matches (Plus p) s c c' ->
  exists a s', s = String a s' /\ p a = true /\ all_in p s' /\ c' = c.
Proof.
  intros H. apply matches_seq_inv in H as (s1 & s2 & c1 & -> & H1 & H2).
  apply matches_cls_inv in H1 as (a & -> & Ha & ->).
  apply matches_star_inv in H2 as [Hs ->].
  exists a, s2. auto.
Qed.

Lemma all_in_append p s1 s2 : all_in p (s1 +:+ s2) <-> all_in p s1 /\ all_in p s2.
Proof.
  induction s1 as [| a s1 IH]; [simpl; tauto |].
  rewrite append_cons. simpl. rewrite IH. tauto.
Qed.

(** A greedy repetition always returns when what follows it does. *)
Lemma star_total {A : Type} p s (k : string -> option A) :
  (forall s', is_Some (k s')) -> is_Some (star p s k).
Proof.
  intros Hk. induction s as [| a s IH]; simpl; [apply Hk |].
  destruct (p a); [| apply Hk].
  destruct (star p s k); [eauto | apply Hk].
Qed.

(** The groups do not decide whether an expression matches. *)
Lemma matches_any_captures r : forall s c c',
  matches r s c c' -> forall d, exists d', matches r s d d'.
Proof.
  induction r as [p | p | r1 IH1 r2 IH2 | r IH | n r IH]; intros s c c' H d.
  - apply matches_cls_inv in H as (a & -> & Ha & _). eexists. by constructor.
  - apply matches_star_inv in H as [Hs _]. eexists. by constructor.
  - apply matches_seq_inv in H as (s1 & s2 & c1 & -> & H1 & H2).
    destruct (IH1 _ _ _ H1 d) as [d1 Hd1].
    destruct (IH2 _ _ _ H2 d1) as [d2 Hd2].
    eexists. by econstructor.
  - apply matches_opt_inv in H as [[-> _] | H].
    + eexists. constructor.
    + destruct (IH _ _ _ H d) as [d' Hd']. eexists. by apply matches_opt_take.
  - apply matches_group_inv in H as (c1 & H & _).
    destruct (IH _ _ _ H d) as [d' Hd']. eexists. by constructor.
Qed.

Lemma star_falls_back {A : Type} p s (k : string -> option A) :
  is_Some (k s) -> is_Some (star p s k).
Proof.
  intros Hk. destruct s as [| a s]; simpl; [done |].
  destruct (p a); [| done]. by destruct (star p s k).
Qed.

Lemma star_complete {A : Type} p s1 s2 (k : string -> option A) :
  all_in p s1 -> is_Some (k s2) -> is_Some (star p (s1 +:+ s2) k).
Proof.
  intros H1 Hk. induction s1 as [| a s1 IH].
  - by apply star_falls_back.
  - destruct H1 as [Ha H1]. rewrite append_cons. simpl. rewrite Ha.
    destruct (IH H1) as [res ->]. eauto.
Qed.

(** The matcher succeeds whenever the expression matches a prefix of
    the text after which the rest of the pattern succeeds. *)
Lemma run_complete r : forall s1 c c',
  matches r s1 c c' ->
  forall s2 k d, (forall d', is_Some (k s2 d')) ->
    is_Some (run r (s1 +:+ s2) d k).
Proof.
  induction r as [p | p | r1 IH1 r2 IH2 | r IH | n r IH];
    intros s1 c c' H s2 k d Hk; simpl.
  - apply matches_cls_inv in H as (a & -> & Ha & _).
    rewrite append_cons. by rewrite Ha.
  - apply matches_star_inv in H as [Hs _]. by apply star_complete.
  - apply matches_seq_inv in H as (s1' & s2' & c1 & -> & H1 & H2).
    rewrite append_assoc. eapply IH1; [exact H1 |].
    intros d'. by eapply IH2.
  - apply matches_opt_inv in H as [[-> _] | H].
    + change (EmptyString +:+ s2) with s2.
      destruct (run r s2 d k); [eauto | apply Hk].
    + destruct (IH _ _ _ H s2 k d Hk) as [res ->]. eauto.
  - apply matches_group_inv in H as (c1 & H & _).
    eapply IH; [exact H |]. intros d'. apply Hk.
Qed.

(** [re.search] finds a match whenever the text has one. *)
Lemma search_complete r pre mid post c c' :
  matches r mid c c' -> is_Some (search r (pre +:+ mid +:+ post)).
Proof.
  intros H. induction pre as [| a pre IH].
  - change (EmptyString +:+ mid +:+ post) with (mid +:+ post).
    assert (Hm : is_Some (match_here r (mid +:+ post)))
      by (eapply run_complete; [exact H | eauto]).
    destruct Hm as [res Hm]. destruct (mid +:+ post); simpl; rewrite Hm; eauto.
  - rewrite append_cons. simpl.
    destruct (match_here r (String a (pre +:+ mid +:+ post))); [eauto | exact IH].
Qed.

End RegexProps.

(** ** [src/utils.py]: the parsers *)

Module UtilsProps.
Import Regex Utils RegexProps.

Lemma all_chars_all_in p s : all_chars p s = true <-> all_in p s.
Proof.
  induction s as [| a s IH]; simpl; [tauto |].
  rewrite andb_true_iff, IH. tauto.
Qed.

(** A digit is not a dot. *)
Lemma digit_not_dot a : is_digit a = true -> Ascii.eqb a "." = false.
Proof.
  destruct (Ascii.eqb_spec a ".") as [-> |]; [| done]. by vm_compute.
Qed.

Lemma split_dot_digits ds :
  all_in is_digit ds -> split_dot ds = (ds, None).
Proof.
  induction ds as [| a ds IH]; simpl; [done |].
  intros [Ha Hds]. by rewrite (digit_not_dot a Ha), (IH Hds).
Qed.

Lemma split_dot_fraction ds fs :
  all_in is_digit ds -> split_dot (ds +:+ String "." fs) = (ds, Some fs).
Proof.
  induction ds as [| a ds IH]; [done |].
  intros [Ha Hds]. rewrite append_cons. simpl.
  by rewrite (digit_not_dot a Ha), (IH Hds).
Qed.

Lemma digit_value_nonneg a : is_digit a = true -> 0 <= digit_value a.
Proof.
  unfold is_digit, digit_value. rewrite andb_true_iff, !N.leb_le. lia.
Qed.

Lemma digits_value_nonneg s : forall acc,
  0 <= acc -> all_in is_digit s -> 0 <= digits_value acc s.
Proof.
  induction s as [| a s IH]; simpl; intros acc Hacc H; [done |].
  destruct H as [Ha Hs]. apply IH; [| done].
  pose proof (digit_value_nonneg a Ha). lia.
Qed.

(** The number a decimal literal writes. *)
Definition decimal_value (ds fs : string) : Q :=
  inject_Z (digits_value 0 (ds +:+ fs)) / inject_Z (10 ^ Z.of_nat (String.length fs)).

Lemma decimal_value_nonneg ds fs :
  all_in is_digit ds -> all_in is_digit fs -> (0 <= decimal_value ds fs)%Q.
Proof.
  intros Hd Hf. unfold decimal_value.
  assert (H0 : 0 <= digits_value 0 (ds +:+ fs))
    by (apply digits_value_nonneg; [lia | by apply all_in_append]).
  assert (H1 : 0 < 10 ^ Z.of_nat (String.length fs)) by (apply Z.pow_pos_nonneg; lia).
  apply Qle_shift_div_l.
  - replace 0%Q with (inject_Z 0) by reflexivity. by rewrite <- Zlt_Qlt.
  - rewrite Qmult_0_l. replace 0%Q with (inject_Z 0) by reflexivity.
    by rewrite <- Zle_Qle.
Qed.

(** *** [parse_sales] *)

(** An occurrence of the sales pattern: a number (digits, with an
    optional fraction), optional white space, an optional unit letter,
    optional white space, and a plus sign. *)
Record occurrence : Type := {
  o_digit : ascii; o_digits : string;   (* the integer part *)
  o_fraction : string;                  (* empty, or a dot and digits *)
  o_space1 : string;
  o_unit : option ascii;
  o_space2 : string
}.

Definition o_number (o : occurrence) : string :=
  String (o_digit o) (o_digits o) +:+ o_fraction o.

Definition o_text (o : occurrence) : string :=
  o_number o +:+ o_space1 o
    +:+ match o_unit o with Some u => String u EmptyString | None => EmptyString end
    +:+ o_space2 o +:+ "+".

Definition well_formed (o : occurrence) : Prop :=
  is_digit (o_digit o) = true /\ all_in is_digit (o_digits o) /\
  (o_fraction o = EmptyString \/
   exists f fs, o_fraction o = String "." (String f fs) /\
                is_digit f = true /\ all_in is_digit fs) /\
  all_in is_space (o_space1 o) /\ all_in is_space (o_space2 o) /\
  match o_unit o with Some u => is_unit u = true | None => True end.

(** What a match of the pattern is made of, and what its groups
    hold. *)
Lemma sales_match_shape mid m :
  matches sales_re mid no_captures m ->
  exists o, well_formed o /\ mid = o_text o /\
    m 1%nat = Some (o_number o) /\
    m 2%nat = (fun u => String u EmptyString) <$> o_unit o.
Proof.
  unfold sales_re. intros H.
  apply matches_seq_inv in H as (g1 & rest & c1 & -> & Hg1 & H).
  apply matches_group_inv in Hg1 as (c0 & Hnum & ->).
  apply matches_seq_inv in Hnum as (ip & fr & c0' & -> & Hip & Hfr).
  apply matches_plus_inv in Hip as (d & ds & -> & Hd & Hds & ->).
  assert (Hfr' : (fr = EmptyString \/
                  exists f fs, fr = String "." (String f fs) /\
                               is_digit f = true /\ all_in is_digit fs)
                 /\ c0 = no_captures).
  { apply matches_opt_inv in Hfr as [[-> ->] | Hfr]; [by split; [left |] |].
    apply matches_seq_inv in Hfr as (dot & fs & c' & -> & Hdot & Hfs).
    apply matches_cls_inv in Hdot as (a & -> & Ha & ->).
    apply matches_plus_inv in Hfs as (f & fs' & -> & Hf & Hfs' & ->).
    unfold is_char in Ha. apply Ascii.eqb_eq in Ha as ->.
    split; [right; eauto | done]. }
  destruct Hfr' as [Hfrac ->].
  apply matches_seq_inv in H as (ws1 & rest1 & c2 & -> & Hws1 & H).
  apply matches_star_inv in Hws1 as [Hws1 ->].
  apply matches_seq_inv in H as (u & rest2 & c3 & -> & Hu & H).
  apply matches_seq_inv in H as (ws2 & plus & c4 & -> & Hws2 & Hplus).
  apply matches_star_inv in Hws2 as [Hws2 ->].
  apply matches_cls_inv in Hplus as (a & -> & Ha & ->).
  unfold is_char in Ha. apply Ascii.eqb_eq in Ha as ->.
  apply matches_opt_inv in Hu as [[-> ->] | Hu].
  - exists {| o_digit := d; o_digits := ds; o_fraction := fr; o_space1 := ws1;
              o_unit := None; o_space2 := ws2 |}.
    unfold well_formed, o_text, o_number. simpl. split_and!; auto.
  - apply matches_group_inv in Hu as (c' & Hu & ->).
    apply matches_cls_inv in Hu as (a & -> & Ha & ->).
    exists {| o_digit := d; o_digits := ds; o_fraction := fr; o_space1 := ws1;
              o_unit := Some a; o_space2 := ws2 |}.
    unfold well_formed, o_text, o_number. simpl. split_and!; auto.
Qed.

Lemma all_in_star p s c : all_in p s -> matches (Star p) s c c.
Proof. by constructor. Qed.

Lemma matches_plus p a s c :
  p a = true -> all_in p s -> matches (Plus p) (String a s) c c.
Proof.
  intros Ha Hs. change (String a s) with (String a EmptyString +:+ s).
  eapply matches_seq; by constructor.
Qed.

(** Every well-formed occurrence is matched by the pattern. *)
Lemma occurrence_matches o :
  well_formed o -> exists m, matches sales_re (o_text o) no_captures m.
Proof.
  intros (Hd & Hds & Hfr & Hw1 & Hw2 & Hu).
  unfold sales_re, o_text, o_number.
  assert (Hnum : matches
            (Group 1 (Seq (Plus is_digit)
                          (Opt (Seq (Cls (is_char ".")) (Plus is_digit)))))
            (String (o_digit o) (o_digits o) +:+ o_fraction o) no_captures
            (set_group 1 (String (o_digit o) (o_digits o) +:+ o_fraction o)
               no_captures)).
  { apply matches_group. eapply matches_seq; [by apply matches_plus |].
    destruct Hfr as [-> | (f & fs & -> & Hf & Hfs)].
    - apply matches_opt_skip.
    - apply matches_opt_take.
      change (String "." (String f fs))
        with (String "." EmptyString +:+ String f fs).
      eapply matches_seq; [by constructor | by apply matches_plus]. }
  destruct (o_unit o) as [u |].
  - eexists. eapply matches_seq; [exact Hnum |].
    eapply matches_seq; [by apply all_in_star |].
    eapply matches_seq.
    + apply matches_opt_take, matches_group. by constructor.
    + eapply matches_seq; [by apply all_in_star | by constructor].
  - eexists. eapply matches_seq; [exact Hnum |].
    eapply matches_seq; [by apply all_in_star |].
    eapply matches_seq.
    + apply matches_opt_skip.
    + eapply matches_seq; [by apply all_in_star | by constructor].
Qed.

(** The digits after the dot. *)
Definition o_fraction_digits (o : occurrence) : string :=
  match o_fraction o with
  | String _ fs => fs
  | EmptyString => EmptyString
  end.

(** [number *= 1000] for K, [number *= 1000000] for M, in either
    case of the letter. *)
Definition scaled (u : option ascii) (number : F64.float) : F64.float :=
  match u with
  | Some u =>
      if Ascii.eqb u "K" || Ascii.eqb u "k" then F64.mul number 1000
      else if Ascii.eqb u "M" || Ascii.eqb u "m" then F64.mul number 1000000
      else number
  | None => number
  end.

(** The sales volume that an occurrence writes: the number as a
    float, scaled by the unit, truncated. *)
Definition occurrence_value (o : occurrence) : py_result Z :=
  F64.to_int
    (scaled (o_unit o)
       (F64.round64
          (decimal_value (String (o_digit o) (o_digits o)) (o_fraction_digits o)))).

Lemma float_of_occurrence o :
  well_formed o ->
  all_in is_digit (o_fraction_digits o) /\
  float_of_str (o_number o)
  = Returns (F64.round64
               (decimal_value (String (o_digit o) (o_digits o))
                  (o_fraction_digits o))).
Proof.
  intros (Hd & Hds & Hfr & _). unfold o_number, o_fraction_digits.
  assert (Hint : all_in is_digit (String (o_digit o) (o_digits o))) by done.
  destruct Hfr as [-> | (f & fs & -> & Hf & Hfs)].
  - split; [done |].
    unfold float_of_str. rewrite append_nil_r.
    rewrite (split_dot_digits _ Hint), (proj2 (all_chars_all_in is_digit _) Hint).
    cbn [all_chars andb String.length Nat.add Nat.eqb negb].
    reflexivity.
  - split; [done |].
    assert (Hfrac : all_in is_digit (String f fs)) by done.
    unfold float_of_str.
    rewrite (split_dot_fraction _ (String f fs) Hint).
    rewrite (proj2 (all_chars_all_in is_digit _) Hint),
      (proj2 (all_chars_all_in is_digit _) Hfrac).
    cbn [andb String.length]. rewrite Nat.add_succ_r. reflexivity.
Qed.

Lemma is_unit_cases u :
  is_unit u = true -> u = "K"%char \/ u = "k"%char \/ u = "M"%char \/ u = "m"%char.
Proof.
  unfold is_unit. rewrite !orb_true_iff, !Ascii.eqb_eq. tauto.
Qed.

(** What [parse_sales] computes once the pattern is found. *)
Lemma parse_sales_of_match text m o :
  text <> EmptyString ->
  search sales_re text = Some m ->
  well_formed o -> m 1%nat = Some (o_number o) ->
  m 2%nat = (fun u => String u EmptyString) <$> o_unit o ->
  parse_sales (Some text) = occurrence_value o.
Proof.
  intros Hne Hs Hwf H1 H2. unfold parse_sales.
  destruct text as [| a text]; [done |]. rewrite Hs, H1, H2. simpl default.
  destruct (float_of_occurrence o Hwf) as [_ ->].
  unfold mbind, py_bind, occurrence_value, scaled.
  destruct Hwf as (_ & _ & _ & _ & _ & Hu).
  destruct (o_unit o) as [u |]; [| reflexivity].
  destruct (is_unit_cases u Hu) as [-> | [-> | [-> | ->]]]; reflexivity.
Qed.

(** The text has an occurrence of the pattern. *)
Definition has_occurrence (text : string) : Prop :=
  exists pre o post, well_formed o /\ text = pre +:+ o_text o +:+ post.

Lemma parse_sales_found text m :
  search sales_re text = Some m ->
  exists pre o post, well_formed o /\ text = pre +:+ o_text o +:+ post /\
    (text <> EmptyString -> parse_sales (Some text) = occurrence_value o).
Proof.
  intros Hs.
  destruct (search_sound _ _ _ Hs) as (pre & mid & post & -> & Hm).
  destruct (sales_match_shape _ _ Hm) as (o & Hwf & -> & H1 & H2).
  exists pre, o, post. split_and!; [done | done |].
  intros Hne. by eapply parse_sales_of_match.
Qed.

Lemma parse_sales_no_occurrence text :
  ~ has_occurrence text -> parse_sales (Some text) = Returns 0.
Proof.
  intros Hno. unfold parse_sales. destruct text as [| a text]; [done |].
  destruct (search sales_re (String a text)) as [m |] eqn:Hs; [| done].
  destruct (parse_sales_found _ m Hs) as (pre & o & post & Hwf & Heq & _).
  destruct Hno. by exists pre, o, post.
Qed.

(** [parse_sales], in full: without message, and on a text without
    occurrence of the pattern, the result is 0; on a text with an
    occurrence, the result is the value of one of its occurrences. *)
Theorem parse_sales_spec (text : string) :
  parse_sales None = Returns 0 /\
  (~ has_occurrence text -> parse_sales (Some text) = Returns 0) /\
  (has_occurrence text ->
   exists pre o post, well_formed o /\ text = pre +:+ o_text o +:+ post /\
     parse_sales (Some text) = occurrence_value o).
Proof.
  split; [reflexivity |].
  split; [apply parse_sales_no_occurrence |].
  intros (pre & o & post & Hwf & Heq).
  destruct (occurrence_matches o Hwf) as [m0 Hm0].
  assert (Hs : is_Some (search sales_re text))
    by (rewrite Heq; eapply search_complete; exact Hm0).
  destruct Hs as [m Hs].
  destruct (parse_sales_found text m Hs) as (pre' & o' & post' & Hwf' & Heq' & Hval).
  exists pre', o', post'. split_and!; [done | done |].
  apply Hval. intros ->. rewrite Heq in Hs.
  destruct pre; [| discriminate Heq]. destruct o. discriminate Heq.
Qed.

Lemma parse_sales_cases text :
  parse_sales (Some text) = Returns 0 \/
  exists o, well_formed o /\ parse_sales (Some text) = occurrence_value o.
Proof.
  destruct text as [| a text]; [by left |].
  destruct (search sales_re (String a text)) as [m |] eqn:Hs.
  - right. destruct (search_sound _ _ _ Hs) as (pre & mid & post & Heq & Hm).
    destruct (sales_match_shape _ _ Hm) as (o & Hwf & _ & H1 & H2).
    exists o. split; [done |]. by eapply parse_sales_of_match.
  - left. unfold parse_sales. by rewrite Hs.
Qed.

Lemma occurrence_value_nonneg o :
  well_formed o ->
  occurrence_value o = Raises OverflowError \/
  exists v, occurrence_value o = Returns v /\ 0 <= v.
Proof.
  intros Hwf. unfold occurrence_value. apply F64Sign.to_int_nonneg.
  assert (Hn : F64Sign.nonneg
            (F64.round64 (decimal_value (String (o_digit o) (o_digits o))
                            (o_fraction_digits o)))).
  { apply F64Sign.round64_nonneg, decimal_value_nonneg.
    - destruct Hwf as (Hd & Hds & _). done.
    - by destruct (float_of_occurrence o Hwf). }
  unfold scaled. destruct (o_unit o) as [u |]; [| done].
  destruct (_ || _); [by apply F64Sign.mul_nonneg |].
  destruct (_ || _); [by apply F64Sign.mul_nonneg | done].
Qed.

(** [parse_sales] never returns a negative number, and the only
    exception it raises is the [OverflowError] of [int(inf)]: the text
    of group 1 is always a literal that [float] accepts. *)
Theorem parse_sales_result (message : option string) :
  parse_sales message = Raises OverflowError \/
  exists v, parse_sales message = Returns v /\ 0 <= v.
Proof.
  destruct message as [text |]; [| right; by exists 0].
  destruct (parse_sales_cases text) as [-> | (o & Hwf & ->)].
  - right. by exists 0.
  - by apply occurrence_value_nonneg.
Qed.

(** A number of four hundred digits is beyond the floats: [int]
    raises. *)
Example parse_sales_overflow :
  parse_sales (Some (String.concat "" (repeat "9" 400) +:+ "+ bought"))
  = Raises OverflowError.
Proof. vm_compute. reflexivity. Qed.

Definition not_plus (a : ascii) : bool := negb (is_char "+" a).

(** A message without plus sign gives 0, whatever else it holds. *)
Theorem parse_sales_without_plus (text : string) :
  all_in not_plus text -> parse_sales (Some text) = Returns 0.
Proof.
  intros Hno. apply parse_sales_no_occurrence. intros (pre & o & post & _ & ->).
  apply all_in_append in Hno as [_ Hno].
  apply all_in_append in Hno as [Hno _].
  unfold o_text in Hno.
  repeat (apply all_in_append in Hno as [_ Hno]).
  destruct Hno as [Hno _]. discriminate Hno.
Qed.

Lemma parse_sales_without_plus_witness :
  parse_sales (Some "500 bought in past month"%string) = Returns 0.
Proof. apply parse_sales_without_plus. vm_compute. tauto. Defined.

(** "2K+ bought in past month" has the occurrence "2K+", worth
    2000. *)
Lemma parse_sales_spec_witness :
  parse_sales (Some "2K+ bought in past month"%string) = Returns 2000 /\
  exists pre o post,
    well_formed o /\
    "2K+ bought in past month"%string = pre +:+ o_text o +:+ post /\
    parse_sales (Some "2K+ bought in past month"%string) = occurrence_value o.
Proof.
  split; [reflexivity |].
  apply (parse_sales_spec "2K+ bought in past month").
  exists EmptyString,
    {| o_digit := "2"; o_digits := EmptyString; o_fraction := EmptyString;
       o_space1 := EmptyString; o_unit := Some "K"%char;
       o_space2 := EmptyString |}, " bought in past month"%string.
  split; [| reflexivity].
  unfold well_formed. simpl. split_and!; auto.
Defined.

(** *** [parse_price] *)

Definition price_char (a : ascii) : bool := is_digit a || is_char "." a.
Definition not_price_char (a : ascii) : bool := negb (price_char a).

Lemma float_of_str_nonneg t f : float_of_str t = Returns f -> F64Sign.nonneg f.
Proof.
  unfold float_of_str. destruct (split_dot t) as [i fr].
  set (fs := match fr with Some f0 => f0 | None => EmptyString end).
  destruct (all_chars is_digit i) eqn:Hi; [| discriminate].
  destruct (all_chars is_digit fs) eqn:Hf; [| discriminate].
  simpl andb. destruct (negb _); [| discriminate]. intros [= <-].
  apply F64Sign.round64_nonneg.
  apply (decimal_value_nonneg i fs); by apply all_chars_all_in.
Qed.

Lemma float_of_str_no_overflow t : float_of_str t <> Raises OverflowError.
Proof.
  unfold float_of_str. destruct (split_dot t) as [i fr].
  by destruct (_ && _).
Qed.

Lemma remove_commas_class p s :
  p ","%char = false ->
  (all_in (fun a => negb (p a)) (remove_commas s)
   <-> all_in (fun a => negb (p a)) s).
Proof.
  intros Hc. induction s as [| a s IH]; simpl; [tauto |].
  destruct (Ascii.eqb_spec a ",") as [-> | Hne]; simpl; rewrite IH.
  - rewrite Hc. simpl. tauto.
  - tauto.
Qed.

Lemma search_price_None t :
  search price_re t = None <-> all_in not_price_char t.
Proof.
  split.
  - induction t as [| a t IH]; simpl; [done |]. intros H.
    destruct (match_here price_re (String a t)) as [m |] eqn:Hm; [discriminate |].
    split; [| by apply IH].
    unfold not_price_char. destruct (price_char a) eqn:Ha; [| done].
    unfold match_here, price_re in Hm. simpl in Hm. fold (price_char a) in Hm.
    rewrite Ha in Hm.
    assert (Hs : is_Some
              (star (fun a => is_digit a || is_char "." a) t
                 (fun s' => Some (set_group 0 (consumed (String a t) s') no_captures))))
      by (apply star_total; eauto).
    destruct Hs as [res Hs]. rewrite Hs in Hm. discriminate.
  - intros Hno. destruct (search price_re t) as [m |] eqn:Hs; [| done].
    destruct (search_sound _ _ _ Hs) as (pre & mid & post & -> & Hm).
    unfold price_re in Hm. apply matches_group_inv in Hm as (c & Hm & _).
    apply matches_plus_inv in Hm as (a & s' & -> & Ha & _).
    apply all_in_append in Hno as [_ Hno].
    apply all_in_append in Hno as [[Hno _] _].
    unfold not_price_char, price_char in Hno. rewrite Ha in Hno. discriminate.
Qed.

(** [parse_price] on a text: the result is [None] exactly when the
    text has neither digit nor dot; a price it returns is never
    negative (a minus sign before the number is not read); the only
    exception is the [ValueError] of [float]. *)
Theorem parse_price_of_text (s : string) :
  (parse_price (PyStr s) = Returns None <-> all_in not_price_char s) /\
  (forall f, parse_price (PyStr s) = Returns (Some f) -> F64Sign.nonneg f) /\
  parse_price (PyStr s) <> Raises OverflowError.
Proof.
  unfold parse_price.
  destruct (search price_re (remove_commas s)) as [m |] eqn:Hs.
  - assert (Hno : ~ all_in not_price_char s).
    { intros H. apply (proj2 (remove_commas_class price_char s eq_refl)) in H.
      apply search_price_None in H. congruence. }
    unfold mbind, py_bind, mret, py_ret.
    destruct (float_of_str (default EmptyString (m 0%nat))) as [f | e] eqn:Hf.
    + split_and!; [split; [discriminate | done] | | discriminate].
      intros f' [= <-]. by eapply float_of_str_nonneg.
    + split_and!; [split; [discriminate | done] | discriminate |].
      intros [= ->]. by apply float_of_str_no_overflow in Hf.
  - apply search_price_None in Hs.
    apply (proj1 (remove_commas_class price_char s eq_refl)) in Hs.
    split_and!; [done | discriminate | discriminate].
Qed.

Example parse_price_examples :
  parse_price (PyStr "$29.99") = Returns (Some (F64.round64 (2999 # 100))) /\
  parse_price (PyStr "1,299.00") = Returns (Some (F64.Finite 1299)) /\
  parse_price (PyStr "-5.00") = Returns (Some (F64.Finite 5)) /\
  parse_price (PyStr "N/A") = Returns None /\
  parse_price (PyStr "v1.2.3") = Raises ValueError /\
  parse_price (PyStr "ca. 20") = Raises ValueError.
Proof. vm_compute. repeat split. Qed.

End UtilsProps.

(** ** [src/utils.py]: chunks and product types *)

Module UtilsMore.
Import RegexProps.

(** [chunk_list]: the slices [lst[i:i+chunk_size]] for [i] in
    [range(0, len(lst), chunk_size)].  [range] raises on a step of
    zero and is empty for a negative step. *)
Definition chunk_list {A : Type} (lst : list A) (chunk_size : Z)
    : py_result (list (list A)) :=
  if chunk_size =? 0 then Raises ValueError
  else if chunk_size <? 0 then Returns []
  else
    let n := Z.to_nat chunk_size in
    Returns ((fun k => take n (drop (k * n) lst))
               <$> seq 0 ((length lst + n - 1) / n)).

(** [str.lower] on the code points 0..255: the letters A-Z, and the
    capital letters of Latin-1. *)
Definition lower_char (a : ascii) : ascii :=
  let n := N_of_ascii a in
  if (((65 <=? n) && (n <=? 90))
      || ((192 <=? n) && (n <=? 222) && negb (n =? 215)))%N
  then ascii_of_N (n + 32) else a.

Fixpoint lower (s : string) : string :=
  match s with
  | String a s' => String (lower_char a) (lower s')
  | EmptyString => EmptyString
  end.

(** A product: [product.get('name', '')] and
    [product.get('category', '')]. *)
Record product : Type := { p_name : string; p_category : string }.

Definition is_same_type (p : product) (keyword : string)
    (target_category : option string) : bool :=
  if negb (Analyzer.contains (lower keyword) (lower (p_name p))) then false
  else
    match target_category with
    | None | Some EmptyString => true
    | Some tc =>
        if negb (Analyzer.contains (lower tc) (lower (p_category p)))
        then false else true
    end.

Definition filter_same_type (products : list product) (keyword : string)
    (target_category : option string) : list product :=
  filter (fun p => is_same_type p keyword target_category) products.

(** *** Chunks *)

Lemma concat_slices {A : Type} (l : list A) n m :
  concat ((fun k => take n (drop (k * n) l)) <$> seq 0 m) = take (m * n) l.
Proof.
  induction m as [| m IH]; [reflexivity |].
  rewrite seq_S, fmap_app, concat_app, IH. simpl.
  rewrite app_nil_r, take_take_drop. f_equal. lia.
Qed.

Lemma range_count n len :
  (0 < n)%nat ->
  let m := ((len + n - 1) / n)%nat in
  (len <= m * n)%nat /\ (forall i, (i < m)%nat -> (i * n < len)%nat).
Proof.
  intros Hn m.
  pose proof (Nat.div_mod_eq (len + n - 1) n) as Hdm.
  pose proof (Nat.mod_upper_bound (len + n - 1) n) as Hr.
  fold m in Hdm. split; [nia |]. intros i Hi.
  assert (i * n <= (m - 1) * n)%nat by nia. nia.
Qed.

(** For a positive chunk size, the chunks put one after the other give
    the list back; every chunk has between one and [chunk_size]
    elements, and every chunk but the last has exactly [chunk_size]. *)
Theorem chunk_list_partition {A : Type} (lst : list A) (chunk_size : Z) :
  0 < chunk_size ->
  exists chunks,
    chunk_list lst chunk_size = Returns chunks /\
    concat chunks = lst /\
    (forall i c, chunks !! i = Some c ->
       (0 < length c <= Z.to_nat chunk_size)%nat /\
       ((S i < length chunks)%nat -> length c = Z.to_nat chunk_size)).
Proof.
  intros Hpos. unfold chunk_list.
  destruct (Z.eqb_spec chunk_size 0) as [H0 | _]; [lia |].
  destruct (Z.ltb_spec chunk_size 0) as [H0 | _]; [lia |].
  set (n := Z.to_nat chunk_size). assert (Hn : (0 < n)%nat) by lia.
  destruct (range_count n (length lst) Hn) as [Hup Hlow].
  set (m := ((length lst + n - 1) / n)%nat) in *.
  eexists. split; [reflexivity |]. split.
  - rewrite concat_slices. by apply take_ge.
  - intros i c Hi. rewrite list_lookup_fmap in Hi.
    destruct (seq 0 m !! i) as [k |] eqn:Hk; [| discriminate].
    apply lookup_seq in Hk as [-> Him]. simpl in Hi. injection Hi as <-.
    rewrite length_fmap, length_seq, length_take, length_drop.
    pose proof (Hlow i Him) as Hi.
    split; [lia |]. intros Hnext. pose proof (Hlow (S i) Hnext). lia.
Qed.

Lemma chunk_list_partition_witness :
  chunk_list [1; 2; 3; 4; 5] 2 = Returns [[1; 2]; [3; 4]; [5]].
Proof.
  destruct (chunk_list_partition [1; 2; 3; 4; 5] 2) as (chunks & H & _); [lia |].
  reflexivity.
Defined.

(** A chunk size of zero raises; a negative one gives no chunk at
    all, so the elements are lost. *)
Example chunk_list_edges :
  chunk_list [1; 2; 3] 0 = Raises ValueError /\
  chunk_list [1; 2; 3] (-2) = Returns [] /\
  chunk_list (@nil Z) 3 = Returns [].
Proof. repeat split. Qed.

(** *** Product types *)

(** [needle] occurs in [hay]. *)
Definition occurs_in (needle hay : string) : Prop :=
  exists pre post, hay = pre +:+ needle +:+ post.

Lemma prefix_spec needle : forall hay,
  String.prefix needle hay = true <-> exists post, hay = needle +:+ post.
Proof.
  induction needle as [| a needle IH]; intros hay.
  - destruct hay; simpl; split; eauto.
  - destruct hay as [| b hay]; simpl.
    + split; [discriminate | intros [post H]; discriminate H].
    + destruct (ascii_dec a b) as [-> | Hne].
      * rewrite IH. split; intros [post H]; exists post.
        -- rewrite append_cons. by rewrite H.
        -- rewrite append_cons in H. by injection H.
      * split; [discriminate |]. intros [post H].
        rewrite append_cons in H. injection H as H1 H2. congruence.
Qed.

(** Python's [needle in hay], as the analyzer and the product filter
    use it. *)
Lemma contains_cons needle b hay :
  Analyzer.contains needle (String b hay)
  = String.prefix needle (String b hay) || Analyzer.contains needle hay.
Proof. reflexivity. Qed.

Lemma contains_spec needle hay :
  Analyzer.contains needle hay = true <-> occurs_in needle hay.
Proof.
  unfold occurs_in. induction hay as [| b hay IH].
  - change (Analyzer.contains needle EmptyString)
      with (String.prefix needle EmptyString || false).
    rewrite orb_false_r, prefix_spec. split.
    + intros [post H]. by exists EmptyString, post.
    + intros (pre & post & H). destruct pre; [by exists post | discriminate H].
  - rewrite contains_cons, orb_true_iff, prefix_spec, IH. split.
    + intros [[post H] | (pre & post & H)].
      * by exists EmptyString, post.
      * exists (String b pre), post. rewrite append_cons. by rewrite H.
    + intros (pre & post & H). destruct pre as [| a pre].
      * left. by exists post.
      * right. rewrite append_cons in H. injection H as _ H. by exists pre, post.
Qed.

Lemma lower_char_idemp a : lower_char (lower_char a) = lower_char a.
Proof. destruct a as [[] [] [] [] [] [] [] []]; reflexivity. Qed.

Lemma lower_idemp s : lower (lower s) = lower s.
Proof.
  induction s as [| a s IH]; [reflexivity |].
  simpl. by rewrite lower_char_idemp, IH.
Qed.

(** The category test of [is_same_type]: none without target
    category (absent or empty). *)
Definition category_matches (target_category : option string) (p : product) : Prop :=
  match target_category with
  | None | Some EmptyString => True
  | Some tc => occurs_in (lower tc) (lower (p_category p))
  end.

Lemma is_same_type_spec p keyword target_category :
  is_same_type p keyword target_category = true <->
  occurs_in (lower keyword) (lower (p_name p)) /\ category_matches target_category p.
Proof.
  unfold is_same_type, category_matches. rewrite <- !contains_spec.
  destruct (Analyzer.contains (lower keyword) (lower (p_name p))); simpl.
  - destruct target_category as [[| c tc] |]; [tauto | | tauto].
    rewrite <- contains_spec.
    destruct (Analyzer.contains _ (lower (p_category p))); simpl; split;
      try tauto; intros [_ H]; discriminate H.
  - split; [discriminate | intros [H _]; discriminate H].
Qed.

(** [filter_same_type] keeps, in their order, exactly the products
    whose name holds the keyword, and whose category holds the target
    category when one is given, letter case apart; the case of the
    keyword does not matter. *)
Theorem filter_same_type_spec (products : list product) (keyword : string)
    (target_category : option string) :
  filter_same_type products keyword target_category `sublist_of` products /\
  (forall p, p ∈ filter_same_type products keyword target_category <->
     p ∈ products /\
     occurs_in (lower keyword) (lower (p_name p)) /\
     category_matches target_category p) /\
  filter_same_type products (lower keyword) target_category
  = filter_same_type products keyword target_category.
Proof.
  unfold filter_same_type. split_and!.
  - apply sublist_filter.
  - intros p. rewrite list_elem_of_filter, Is_true_true, is_same_type_spec. tauto.
  - apply list_filter_iff. intros p.
    by rewrite !Is_true_true, !is_same_type_spec, lower_idemp.
Qed.

Example filter_same_type_examples :
  let station := {| p_name := "Portable Power Station 1000W"; p_category := "" |} in
  let panel := {| p_name := "Solar Panel 100W"; p_category := "" |} in
  filter_same_type [station; panel] "power station" None = [station] /\
  filter_same_type [station; panel] "POWER" None = [station] /\
  filter_same_type [station; panel] "" None = [station; panel] /\
  filter_same_type [station; panel] "power" (Some "Tools"%string) = [].
Proof. repeat split. Qed.

End UtilsMore.

(** ** [src/database.py]: resets, counts and the run as a whole *)

Module StoreMore.
Import Database DatabaseProps.

(** [get_asins_for_enrichment]:
    [SELECT asin FROM asins WHERE keyword = ? AND filter_status IS NULL] *)
Definition get_asins_for_enrichment (kw : string) (db : table) : list string :=
  asin <$> filter (fun r => for_keyword kw r && unfiltered r) db.

(** [get_existing_asins]: [SELECT DISTINCT asin ... WHERE keyword = ?],
    as a set. *)
Definition get_existing_asins (kw : string) (db : table) : gset string :=
  list_to_set (asin <$> filter (for_keyword kw) db).

(** [get_asin_count]: [SELECT COUNT(DISTINCT asin) ...], over all rows of
    the keyword or over the untagged ones. *)
Definition get_asin_count (kw : string) (include_filtered : bool) (db : table) : Z :=
  let w r := if include_filtered then for_keyword kw r
             else for_keyword kw r && unfiltered r in
  Z.of_nat (length (remove_dups (asin <$> filter w db))).

(** [UNIQUE(asin, keyword)] *)
Definition unique_keys (db : table) : Prop :=
  NoDup ((fun r => (asin r, keyword r)) <$> db).

(** *** The reset *)

Definition reset_row (kw : string) (r : asin_row) : asin_row :=
  if for_keyword kw r && negb (unfiltered r) then set_filter_status None r else r.

Lemma reset_table kw db : (reset_filter_status kw db).2 = reset_row kw <$> db.
Proof. unfold reset_filter_status. cbn [snd]. apply map_is_fmap. Qed.

Lemma reset_row_status kw r :
  filter_status (reset_row kw r) = if for_keyword kw r then None else filter_status r.
Proof.
  unfold reset_row, unfiltered, is_null.
  destruct (for_keyword kw r); simpl; [| reflexivity].
  destruct (filter_status r) eqn:Hs; simpl; [reflexivity | exact Hs].
Qed.

Lemma reset_row_untagged kw r : filter_status r = None -> reset_row kw r = r.
Proof.
  intros H. unfold reset_row, unfiltered. rewrite H. simpl.
  by rewrite andb_false_r.
Qed.

Lemma set_set_filter_status v w r :
  set_filter_status v (set_filter_status w r) = set_filter_status v r.
Proof. reflexivity. Qed.

Lemma reset_again kw db :
  reset_filter_status kw (reset_filter_status kw db).2
  = (0, (reset_filter_status kw db).2).
Proof.
  rewrite reset_table.
  assert (Hnone : forall r, r ∈ reset_row kw <$> db ->
            (for_keyword kw r && negb (unfiltered r)) = false).
  { intros r' (r & -> & _)%list_elem_of_fmap.
    unfold unfiltered, for_keyword. rewrite reset_row_status.
    unfold reset_row, for_keyword.
    destruct (String.eqb (keyword r) kw) eqn:Hk; simpl.
    - destruct (unfiltered r); simpl; rewrite Hk; reflexivity.
    - by rewrite Hk. }
  unfold reset_filter_status. f_equal.
  + induction (reset_row kw <$> db) as [| r l IH]; [reflexivity |].
    rewrite count_where_cons, IH.
    * rewrite (Hnone r); [reflexivity | by left].
    * intros r' Hr'. apply Hnone. by right.
  + induction (reset_row kw <$> db) as [| r l IH]; [reflexivity |].
    simpl. rewrite (Hnone r) by (by left). f_equal.
    apply IH. intros r' Hr'. apply Hnone. by right.
Qed.

(** [reset_filter_status] clears the tag of every row of the keyword,
    changes no other column and no row of another keyword, and returns
    the number of rows that had a tag; a second reset finds nothing to
    do. *)
Theorem reset_filter_status_spec (kw : string) (db : table) :
  let db' := (reset_filter_status kw db).2 in
  length db' = length db /\
  (forall i r, db !! i = Some r ->
     db' !! i = Some (if bool_decide (keyword r = kw)
                      then set_filter_status None r else r)) /\
  (reset_filter_status kw db).1
    = count_where (fun r => for_keyword kw r && negb (unfiltered r)) db /\
  reset_filter_status kw db' = (0, db').
Proof.
  cbv zeta. split_and!; [| | reflexivity | apply reset_again];
    rewrite reset_table.
  - by rewrite length_fmap.
  - intros i r Hi. rewrite list_lookup_fmap, Hi. simpl. f_equal.
    unfold reset_row. destruct (for_keyword kw r) eqn:Hk; simpl.
    + apply for_keyword_eq in Hk. rewrite bool_decide_true by done.
      destruct (unfiltered r) eqn:Hu; simpl; [| reflexivity].
      apply unfiltered_None in Hu. rewrite <- Hu at 1.
      symmetry. apply set_filter_status_id.
    + rewrite bool_decide_false; [done |]. rewrite <- for_keyword_eq. congruence.
Qed.

(** *** What a stage may change *)

(** A row after a stage for keyword [kw]: the same row, or, when it
    is a row of [kw] without tag, the row with a tag. *)
Definition tags_for (kw : string) (r r' : asin_row) : Prop :=
  r' = r \/
  (keyword r = kw /\ filter_status r = None /\
   exists tag, r' = set_filter_status (Some tag) r).

Lemma tags_for_refl kw db : Forall2 (tags_for kw) db db.
Proof. induction db; constructor; auto. by left. Qed.

Lemma tags_for_trans kw db db' db'' :
  Forall2 (tags_for kw) db db' -> Forall2 (tags_for kw) db' db'' ->
  Forall2 (tags_for kw) db db''.
Proof.
  intros H. revert db''.
  induction H as [| r r' db db' Hr Hdb IH]; intros db'' H';
    inversion H' as [| ? r'' ? db3 Hr' Hdb']; subst; constructor; [| by apply IH].
  destruct Hr as [-> | (Hk & Hn & tag & ->)]; [exact Hr' |].
  destruct Hr' as [-> | (_ & Hn' & _)]; [right; eauto | discriminate Hn'].
Qed.

Lemma update_status_for kw tag w db :
  (forall r, w r = true -> for_keyword kw r = true /\ unfiltered r = true) ->
  Forall2 (tags_for kw) db (update_status tag w db).2.
Proof.
  intros Hw. unfold update_status. cbn [snd].
  induction db as [| r db IH]; simpl; constructor; [| exact IH].
  destruct (w r) eqn:Hr; [| by left].
  destruct (Hw r Hr) as [Hk Hu].
  right. split_and!; [by apply for_keyword_eq | by apply unfiltered_None | eauto].
Qed.

(** Every [WHERE] clause of a stage asks for the keyword and for
    [filter_status IS NULL]. *)
Ltac where_guard :=
  let r := fresh "r" in
  let H := fresh "H" in
  intros r H; cbv beta in H;
  destruct (for_keyword _ r), (unfiltered r); simpl in H;
  rewrite ?andb_false_r in H; first [discriminate H | by split].

Lemma run_stage_for kw s db : Forall2 (tags_for kw) db (run_stage kw s db).
Proof.
  destruct s as [| | max_sales | max_price | cutoff_date months]; simpl.
  - apply update_status_for. where_guard.
  - unfold filter_by_top_category.
    destruct (_ =? 0); [apply tags_for_refl |].
    destruct (top_group _) as [[top cnt] |]; [| apply tags_for_refl].
    apply update_status_for. where_guard.
  - apply update_status_for. where_guard.
  - unfold filter_by_price.
    destruct (_ =? 0); [apply tags_for_refl |].
    apply update_status_for. where_guard.
  - unfold filter_by_listing_date.
    destruct (_ =? 0); [apply tags_for_refl |].
    eapply tags_for_trans; apply update_status_for; where_guard.
Qed.

Lemma run_stages_for kw ss db : Forall2 (tags_for kw) db (run_stages kw ss db).
Proof.
  revert db. induction ss as [| s ss IH]; intros db; simpl.
  - apply tags_for_refl.
  - eapply tags_for_trans; [apply run_stage_for | apply IH].
Qed.

(** The stages of one keyword never touch the rows of another, and
    the set of untagged rows only shrinks: the identifiers still to be
    enriched after any sequence of stages are among those before, in
    the same order. *)
Theorem stages_frame (kw : string) (ss : list stage) (db : table) :
  let db' := run_stages kw ss db in
  length db' = length db /\
  (forall i r, db !! i = Some r -> keyword r <> kw -> db' !! i = Some r) /\
  (forall kw', get_asins_for_enrichment kw' db'
                 `sublist_of` get_asins_for_enrichment kw' db) /\
  (forall kw', kw' <> kw ->
     get_asins_for_enrichment kw' db' = get_asins_for_enrichment kw' db).
Proof.
  cbv zeta. pose proof (run_stages_for kw ss db) as H. split_and!.
  - symmetry. by eapply Forall2_length.
  - intros i r Hi Hne.
    destruct (Forall2_lookup_l _ _ _ _ _ H Hi) as (r' & Hi' & [-> | (Hk & _)]);
      [done | congruence].
  - intros kw'. unfold get_asins_for_enrichment.
    induction H as [| r r' db0 db1 Hr _ IH]; [done |].
    rewrite !filter_bool_cons.
    destruct Hr as [-> | (Hk & Hn & tag & ->)].
    + destruct (_ && _); [| done]. rewrite !fmap_cons. by apply sublist_skip.
    + replace (for_keyword kw' (set_filter_status (Some tag) r)
               && unfiltered (set_filter_status (Some tag) r)) with false
        by (unfold unfiltered; simpl; by rewrite andb_false_r).
      destruct (_ && _); [| done]. rewrite fmap_cons. by apply sublist_cons.
  - intros kw' Hne. unfold get_asins_for_enrichment. f_equal.
    induction H as [| r r' db0 db1 Hr _ IH]; [done |].
    rewrite !filter_bool_cons.
    destruct Hr as [-> | (Hk & Hn & tag & ->)]; [by rewrite IH |].
    assert (Hk' : for_keyword kw' r = false).
    { apply not_true_iff_false. rewrite for_keyword_eq. congruence. }
    replace (for_keyword kw' (set_filter_status (Some tag) r)) with false
      by (rewrite <- Hk'; reflexivity).
    by rewrite Hk'.
Qed.

(** *** Running the pipeline again *)

Lemma reset_absorbs_tags kw db db' :
  Forall2 (tags_for kw) db db' -> reset_row kw <$> db' = reset_row kw <$> db.
Proof.
  induction 1 as [| r r' db db' Hr _ IH]; [done |].
  rewrite !fmap_cons, IH. f_equal.
  destruct Hr as [-> | (Hk & Hn & tag & ->)]; [done |].
  rewrite (reset_row_untagged kw r Hn).
  unfold reset_row, unfiltered, for_keyword. simpl.
  rewrite Hk, String.eqb_refl. simpl.
  rewrite set_set_filter_status, <- Hn. apply set_filter_status_id.
Qed.

(** A reset undoes every sequence of stages of the keyword; so a
    second run of the same stages, after the reset the pipeline starts
    with, ends in the same table as the first: which rows are kept,
    and why the others are not, does not depend on earlier runs. *)
Theorem rerun_after_reset (kw : string) (ss : list stage) (db : table) :
  let run d := run_stages kw ss (reset_filter_status kw d).2 in
  (reset_filter_status kw (run_stages kw ss db)).2 = (reset_filter_status kw db).2 /\
  run (run db) = run db.
Proof.
  cbv zeta.
  assert (Habs : forall d, (reset_filter_status kw (run_stages kw ss d)).2
                           = (reset_filter_status kw d).2).
  { intros d. rewrite !reset_table. apply reset_absorbs_tags, run_stages_for. }
  split; [apply Habs |].
  rewrite Habs. f_equal.
  by rewrite reset_again.
Qed.

(** *** Counting distinct identifiers *)

Lemma remove_dups_NoDup {A : Type} `{EqDecision A} (l : list A) :
  NoDup l -> remove_dups l = l.
Proof.
  induction 1 as [| x l Hx _ IH]; [reflexivity |].
  simpl. destruct (decide_rel elem_of x l) as [Hin | _]; [done |]. by rewrite IH.
Qed.

Definition key (r : asin_row) : string * string := (asin r, keyword r).

Lemma asins_NoDup kw w db :
  unique_keys db ->
  NoDup (asin <$> filter (fun r => for_keyword kw r && w r) db).
Proof.
  unfold unique_keys. intros Hu.
  apply NoDup_fmap_2_strong.
  - intros x y Hx Hy Hxy.
    apply list_elem_of_filter in Hx as [Hx Hxin].
    apply list_elem_of_filter in Hy as [Hy Hyin].
    apply Is_true_true, andb_true_iff in Hx as [Hx _].
    apply Is_true_true, andb_true_iff in Hy as [Hy _].
    apply for_keyword_eq in Hx, Hy.
    assert (Hkey : key x = key y) by (unfold key; congruence).
    apply NoDup_fmap_1 in Hu as Hnd.
    apply list_elem_of_lookup in Hxin as [i Hi], Hyin as [j Hj].
    assert (i = j); [| congruence].
    eapply (NoDup_lookup _ i j (key x) Hu); rewrite list_lookup_fmap.
    + by rewrite Hi.
    + rewrite Hj. simpl. f_equal. symmetry. exact Hkey.
  - apply NoDup_filter. by apply NoDup_fmap_1 in Hu.
Qed.

(** With unique keys, the distinct identifiers of the untagged rows
    are as many as the untagged rows. *)
Lemma get_asin_count_unfiltered kw db :
  unique_keys db -> get_asin_count kw false db = count_where (candidate kw) db.
Proof.
  intros Hu. unfold get_asin_count, count_where, candidate.
  rewrite (remove_dups_NoDup _ (asins_NoDup kw unfiltered db Hu)).
  by rewrite length_fmap.
Qed.

Lemma tags_for_keys kw db db' :
  Forall2 (tags_for kw) db db' -> key <$> db' = key <$> db.
Proof.
  induction 1 as [| r r' db db' Hr _ IH]; [done |].
  rewrite !fmap_cons, IH. f_equal.
  by destruct Hr as [-> | (_ & _ & tag & ->)].
Qed.

Lemma stages_keep_keys kw ss db :
  unique_keys db -> unique_keys (run_stages kw ss db).
Proof.
  unfold unique_keys. intros Hu.
  change (fun r => (asin r, keyword r)) with key in *.
  by rewrite (tags_for_keys kw _ _ (run_stages_for kw ss db)).
Qed.

Lemma guarded_update_counts kw tag w db :
  (forall r, w r = true -> for_keyword kw r = true /\ unfiltered r = true) ->
  let total := count_where (candidate kw) db in
  let removed := (update_status tag w db).1 in
  total - removed = count_where (candidate kw) (update_status tag w db).2 /\
  0 <= removed <= total.
Proof.
  intros Hw. cbv zeta.
  assert (Hc : forall r, w r = true -> candidate kw r = true).
  { intros r Hr. destruct (Hw r Hr) as [Hk Hu]. unfold candidate. by rewrite Hk, Hu. }
  rewrite (count_after_update kw tag w db Hc).
  unfold update_status. cbn [fst].
  pose proof (count_where_nonneg w db). pose proof (count_where_le kw w db Hc).
  split; lia.
Qed.

Definition untagged_count (kw : string) (db : table) : Z :=
  count_where (candidate kw) db.

Lemma sales_report kw max_sales db :
  let rep := (filter_low_sales_asins kw max_sales db).1 in
  let db' := (filter_low_sales_asins kw max_sales db).2 in
  total rep = untagged_count kw db /\ kept rep = untagged_count kw db' /\
  removed rep = total rep - kept rep /\ 0 <= removed rep.
Proof.
  cbv zeta. unfold filter_low_sales_asins, untagged_count.
  rewrite (surjective_pairing (update_status _ _ _)).
  cbn [fst snd total kept removed]. fold (candidate kw).
  match goal with
  | |- context [update_status ?tag ?w db] =>
      destruct (guarded_update_counts kw tag w db) as [H1 H2]; [where_guard |]
  end.
  cbv zeta in H1, H2. split_and!; lia.
Qed.

Lemma price_report kw max_price db :
  let rep := (filter_by_price kw max_price db).1 in
  let db' := (filter_by_price kw max_price db).2 in
  total rep = untagged_count kw db /\ kept rep = untagged_count kw db' /\
  removed rep = total rep - kept rep /\ 0 <= removed rep.
Proof.
  cbv zeta. unfold filter_by_price, untagged_count. fold (candidate kw).
  destruct (Z.eqb_spec (count_where (candidate kw) db) 0) as [H0 | _].
  { cbn [fst snd total kept removed]. split_and!; lia. }
  rewrite (surjective_pairing (update_status _ _ _)).
  cbn [fst snd total kept removed].
  match goal with
  | |- context [update_status ?tag ?w db] =>
      destruct (guarded_update_counts kw tag w db) as [H1 H2]; [where_guard |]
  end.
  cbv zeta in H1, H2. split_and!; lia.
Qed.

Lemma listing_report_counts kw cutoff_date months db :
  let rep := (filter_by_listing_date kw cutoff_date months db).1 in
  let db' := (filter_by_listing_date kw cutoff_date months db).2 in
  ld_total rep = untagged_count kw db /\ ld_kept rep = untagged_count kw db' /\
  ld_removed rep = ld_total rep - ld_kept rep /\
  ld_removed rep = ld_removed_by_date rep + ld_removed_by_sales_months rep /\
  0 <= ld_removed_by_date rep /\ 0 <= ld_removed_by_sales_months rep.
Proof.
  cbv zeta. unfold filter_by_listing_date, untagged_count. fold (candidate kw).
  destruct (Z.eqb_spec (count_where (candidate kw) db) 0) as [H0 | _].
  { cbn [fst snd ld_total ld_kept ld_removed ld_removed_by_date
         ld_removed_by_sales_months]. split_and!; lia. }
  rewrite (surjective_pairing (update_status "listing_date_filtered" _ db)).
  rewrite (surjective_pairing (update_status "sales_months_filtered" _ _)).
  cbn [fst snd ld_total ld_kept ld_removed ld_removed_by_date
       ld_removed_by_sales_months].
  match goal with
  | |- context [update_status "sales_months_filtered" ?w2
                  (update_status "listing_date_filtered" ?w1 db).2] =>
      destruct (guarded_update_counts kw "listing_date_filtered" w1 db)
        as [H1 H1']; [where_guard |];
      destruct (guarded_update_counts kw "sales_months_filtered" w2
                  (update_status "listing_date_filtered" w1 db).2)
        as [H2 H2']; [where_guard |]
  end.
  cbv zeta in H1, H1', H2, H2'. split_and!; lia.
Qed.

(** What the sales, price and listing-date filters report is what the
    table shows: on a table with unique keys, [total] is
    [get_asin_count] before the stage, [kept] is [get_asin_count]
    after it, and [removed] is their difference, which is never
    negative; the listing-date filter removes what its two criteria
    remove together. *)
Theorem filter_reports_agree (kw : string) (db : table)
    (max_sales : Z) (max_price : F64.float) (cutoff_date : string) (months : Z) :
  unique_keys db ->
  let before := get_asin_count kw false db in
  let sales := filter_low_sales_asins kw max_sales db in
  let price := filter_by_price kw max_price db in
  let listing := filter_by_listing_date kw cutoff_date months db in
  (total sales.1 = before /\
   kept sales.1 = get_asin_count kw false sales.2 /\
   removed sales.1 = before - kept sales.1 /\ 0 <= removed sales.1) /\
  (total price.1 = before /\
   kept price.1 = get_asin_count kw false price.2 /\
   removed price.1 = before - kept price.1 /\ 0 <= removed price.1) /\
  (ld_total listing.1 = before /\
   ld_kept listing.1 = get_asin_count kw false listing.2 /\
   ld_removed listing.1 = before - ld_kept listing.1 /\
   ld_removed listing.1
     = ld_removed_by_date listing.1 + ld_removed_by_sales_months listing.1 /\
   0 <= ld_removed_by_date listing.1 /\
   0 <= ld_removed_by_sales_months listing.1).
Proof.
  intros Hu. cbv zeta.
  assert (Hafter : forall s, get_asin_count kw false (run_stage kw s db)
                             = untagged_count kw (run_stage kw s db)).
  { intros s. apply get_asin_count_unfiltered.
    apply (stages_keep_keys kw [s] db Hu). }
  rewrite (get_asin_count_unfiltered kw db Hu). fold (untagged_count kw db).
  change (filter_low_sales_asins kw max_sales db).2
    with (run_stage kw (LowSales max_sales) db).
  change (filter_by_price kw max_price db).2
    with (run_stage kw (Price max_price) db).
  change (filter_by_listing_date kw cutoff_date months db).2
    with (run_stage kw (ListingDate cutoff_date months) db).
  rewrite !Hafter.
  pose proof (sales_report kw max_sales db) as Hs.
  pose proof (price_report kw max_price db) as Hp.
  pose proof (listing_report_counts kw cutoff_date months db) as Hl.
  cbv zeta in Hs, Hp, Hl.
  destruct Hs as (Hs1 & Hs2 & Hs3 & Hs4), Hp as (Hp1 & Hp2 & Hp3 & Hp4),
    Hl as (Hl1 & Hl2 & Hl3 & Hl4 & Hl5 & Hl6).
  simpl run_stage.
  split_and!; try assumption; congruence.
Qed.


Lemma filter_reports_agree_witness :
  unique_keys camping_rows /\
  removed (filter_low_sales_asins "camping" 100 camping_rows).1
    = get_asin_count "camping" false camping_rows
      - kept (filter_low_sales_asins "camping" 100 camping_rows).1.
Proof.
  assert (Hu : unique_keys camping_rows)
    by (apply (bool_decide_unpack _); vm_compute; exact I).
  split; [exact Hu |].
  exact (proj1 (proj2 (proj2 (proj1
    (filter_reports_agree "camping" camping_rows 100 F64.zero "2024-01-01" 6 Hu))))).
Defined.


(** *** Which criterion of the listing-date filter a row is charged to *)

(** The tag an untagged row gets: the date is looked at first. *)
Definition age_tag (cutoff_date : string) (months : Z) (r : asin_row)
    : option string :=
  if lt_text (listing_date r) cutoff_date then Some "listing_date_filtered"%string
  else if gt_Z (sales_months_count r) months then Some "sales_months_filtered"%string
  else None.

Definition listing_row (kw cutoff_date : string) (months : Z) (r : asin_row)
    : asin_row :=
  if candidate kw r then set_filter_status (age_tag cutoff_date months r) r else r.

Lemma count_where_ext w1 w2 db :
  (forall r, r ∈ db -> w1 r = w2 r) -> count_where w1 db = count_where w2 db.
Proof.
  induction db as [| r db IH]; intros Hext; [reflexivity |].
  rewrite !count_where_cons, (Hext r) by (by left).
  rewrite IH; [reflexivity |]. intros r' Hr'. apply Hext. by right.
Qed.

Lemma count_where_fmap w (f : asin_row -> asin_row) db :
  count_where w (f <$> db) = count_where (fun r => w (f r)) db.
Proof.
  induction db as [| r db IH]; [reflexivity |].
  rewrite fmap_cons, !count_where_cons, IH. reflexivity.
Qed.

Definition old_listing (kw cutoff_date : string) (r : asin_row) : bool :=
  for_keyword kw r && negb (is_null (listing_date r))
  && lt_text (listing_date r) cutoff_date && unfiltered r.

Definition many_months (kw : string) (months : Z) (r : asin_row) : bool :=
  for_keyword kw r && negb (is_null (sales_months_count r))
  && gt_Z (sales_months_count r) months && unfiltered r.

Definition tag_if (tag : string) (w : asin_row -> bool) (r : asin_row) : asin_row :=
  if w r then set_filter_status (Some tag) r else r.

Lemma old_listing_spec kw cutoff_date r :
  old_listing kw cutoff_date r
  = candidate kw r && lt_text (listing_date r) cutoff_date.
Proof.
  unfold old_listing, candidate.
  destruct (listing_date r) as [d |];
    [destruct (lt_text (Some d) cutoff_date) |];
    destruct (for_keyword kw r), (unfiltered r); reflexivity.
Qed.

Lemma many_months_spec kw months r :
  many_months kw months r
  = candidate kw r && gt_Z (sales_months_count r) months.
Proof.
  unfold many_months, candidate.
  destruct (sales_months_count r) as [n |];
    [destruct (gt_Z (Some n) months) |];
    destruct (for_keyword kw r), (unfiltered r); reflexivity.
Qed.

Lemma candidate_tagged kw tag r :
  candidate kw (set_filter_status (Some tag) r) = false.
Proof. unfold candidate. apply andb_false_r. Qed.

Lemma many_months_after kw cutoff_date months r :
  many_months kw months (tag_if "listing_date_filtered" (old_listing kw cutoff_date) r)
  = candidate kw r && negb (lt_text (listing_date r) cutoff_date)
    && gt_Z (sales_months_count r) months.
Proof.
  rewrite many_months_spec. unfold tag_if. rewrite old_listing_spec.
  destruct (candidate kw r) eqn:Hc,
    (lt_text (listing_date r) cutoff_date) eqn:Hl; cbn [andb negb];
    rewrite ?candidate_tagged, ?Hc; reflexivity.
Qed.

Lemma listing_row_spec kw cutoff_date months r :
  tag_if "sales_months_filtered" (many_months kw months)
    (tag_if "listing_date_filtered" (old_listing kw cutoff_date) r)
  = listing_row kw cutoff_date months r.
Proof.
  unfold tag_if at 1. rewrite many_months_after.
  unfold tag_if, listing_row, age_tag. rewrite old_listing_spec.
  destruct (candidate kw r) eqn:Hc,
    (lt_text (listing_date r) cutoff_date) eqn:Hl,
    (gt_Z (sales_months_count r) months) eqn:Hg; cbn [andb negb];
    try reflexivity.
  apply andb_true_iff in Hc as [_ Hu]. apply unfiltered_None in Hu.
  rewrite <- Hu. symmetry. apply set_filter_status_id.
Qed.

(** The listing-date filter tags an untagged row of the keyword with
    [listing_date_filtered] when its listing date is before the
    cut-off, whatever its months of sales; with
    [sales_months_filtered] when its date is missing or not before
    the cut-off and it has more months of sales than allowed; and
    not at all otherwise.  The two counts of the report count these
    two disjoint sets, so a row that fails both criteria is counted
    under the date. *)
Theorem listing_date_attribution (kw cutoff_date : string) (months : Z)
    (db : table) :
  let rep := (filter_by_listing_date kw cutoff_date months db).1 in
  let db' := (filter_by_listing_date kw cutoff_date months db).2 in
  db' = listing_row kw cutoff_date months <$> db /\
  ld_removed_by_date rep
    = count_where (fun r => candidate kw r
                            && lt_text (listing_date r) cutoff_date) db /\
  ld_removed_by_sales_months rep
    = count_where (fun r => candidate kw r
                            && negb (lt_text (listing_date r) cutoff_date)
                            && gt_Z (sales_months_count r) months) db.
Proof.
  cbv zeta. unfold filter_by_listing_date. fold (candidate kw).
  destruct (Z.eqb_spec (count_where (candidate kw) db) 0) as [H0 | _].
  - pose proof (count_where_zero _ _ H0) as Hnone.
    cbn [fst snd ld_removed_by_date ld_removed_by_sales_months].
    split_and!.
    + symmetry. rewrite <- (list_fmap_id db) at 2.
      apply list_fmap_ext. intros i r Hr.
      unfold listing_row. by rewrite (Hnone r) by (by eapply list_elem_of_lookup_2).
    + symmetry. apply Z.le_antisymm; [| apply count_where_nonneg].
      rewrite <- H0. apply count_where_le.
      intros r Hr. by apply andb_true_iff in Hr as [Hr _].
    + symmetry. apply Z.le_antisymm; [| apply count_where_nonneg].
      rewrite <- H0. apply count_where_le.
      intros r Hr. apply andb_true_iff in Hr as [Hr _].
      by apply andb_true_iff in Hr as [Hr _].
  - rewrite (surjective_pairing (update_status "listing_date_filtered" _ db)).
    rewrite (surjective_pairing (update_status "sales_months_filtered" _ _)).
    cbn [fst snd ld_removed_by_date ld_removed_by_sales_months].
    unfold update_status. cbn [fst snd]. rewrite !map_is_fmap.
    split_and!.
    + rewrite <- list_fmap_compose. apply list_fmap_ext.
      intros i r _. apply listing_row_spec.
    + apply count_where_ext. intros r _. apply old_listing_spec.
    + rewrite count_where_fmap. apply count_where_ext. intros r _.
      apply many_months_after.
Qed.

(** A product listed long ago with many months of sales is charged
    to the date; one without listing date to its months of sales. *)
Example listing_date_attribution_example :
  let row a d n :=
    mk_row a "camping" "" "" None None None None None None None None None
      None None None 0 None 0 None None None None None None d None n in
  let db := [row "A1" (Some "2020-05-01") (Some 30);
             row "A2" None (Some 30);
             row "A3" (Some "2024-11-01") (Some 2);
             row "A4" (Some "") None]%string in
  let r := filter_by_listing_date "camping" "2024-06-01" 6 db in
  (filter_status <$> r.2)
    = [Some "listing_date_filtered"; Some "sales_months_filtered"; None;
       Some "listing_date_filtered"]%string /\
  (ld_total r.1, ld_removed_by_date r.1, ld_removed_by_sales_months r.1,
   ld_kept r.1) = (4, 2, 1, 1).
Proof. vm_compute. split; reflexivity. Qed.


(** *** [save_asins] as a whole *)

Lemma insert_or_replace_unique r db :
  unique_keys db -> unique_keys (insert_or_replace r db).
Proof.
  unfold unique_keys, insert_or_replace. intros Hu.
  rewrite fmap_app. apply NoDup_app. split_and!.
  - eapply sublist_NoDup; [exact Hu |].
    apply fmap_sublist, sublist_filter.
  - intros k Hk Hr. apply list_elem_of_fmap in Hk as (x & -> & Hx).
    apply list_elem_of_filter in Hx as [Hx _].
    apply list_elem_of_singleton in Hr.
    apply Is_true_true, negb_true_iff in Hx.
    assert (Hs : same_key (asin r) (keyword r) x = true)
      by (apply same_key_spec; split; congruence).
    congruence.
  - simpl. apply NoDup_singleton.
Qed.

Lemma elem_of_insert_or_replace r db x :
  x ∈ insert_or_replace r db <->
  x = r \/ (x ∈ db /\ same_key (asin r) (keyword r) x = false).
Proof.
  unfold insert_or_replace.
  rewrite elem_of_app, list_elem_of_filter, list_elem_of_singleton,
    Is_true_true, negb_true_iff. tauto.
Qed.

Lemma insert_or_replace_other_keywords kw r db :
  keyword r = kw ->
  filter (fun x => negb (for_keyword kw x)) (insert_or_replace r db)
  = filter (fun x => negb (for_keyword kw x)) db.
Proof.
  intros Hk. unfold insert_or_replace.
  rewrite filter_app, filter_cons_False, filter_nil, app_nil_r.
  - rewrite list_filter_filter. apply ApifyDBProps.filter_ext_in. intros x _.
    rewrite !Is_true_true, !negb_true_iff. split; [tauto |].
    intros Hx. split; [exact Hx |].
    apply not_true_iff_false. rewrite same_key_spec. intros [_ Hkx].
    apply not_true_iff_false in Hx. apply Hx. apply for_keyword_eq. congruence.
  - rewrite Is_true_true, negb_true_iff.
    apply not_false_iff_true. by apply for_keyword_eq.
Qed.

Lemma elem_of_existing kw db a :
  a ∈ get_existing_asins kw db <->
  exists r, r ∈ db /\ keyword r = kw /\ asin r = a.
Proof.
  unfold get_existing_asins.
  rewrite elem_of_list_to_set, list_elem_of_fmap.
  setoid_rewrite list_elem_of_filter.
  setoid_rewrite Is_true_true. setoid_rewrite for_keyword_eq.
  split.
  - intros (r & Ha & Hk & Hr). eauto.
  - intros (r & Hr & Hk & Ha). eauto.
Qed.

(** A row written by this call of [save_asins]. *)
Definition written (asins : list item) (kw : string) (now : Z) (r : asin_row)
    : Prop :=
  keyword r = kw /\ at_defaults now r /\
  exists it, it ∈ asins /\ i_asin it = Some (asin r) /\ describes it r.

Record saved (asins : list item) (kw : string) (now : Z) (db : table)
    (out : Z * table) : Prop := {
  saved_unique : unique_keys db -> unique_keys out.2;
  saved_count : 0 <= out.1 <= Z.of_nat (length asins);
  saved_length : Z.of_nat (length out.2) <= Z.of_nat (length db) + out.1;
  saved_others :
    filter (fun x => negb (for_keyword kw x)) out.2
    = filter (fun x => negb (for_keyword kw x)) db;
  saved_existing :
    forall a, a ∈ get_existing_asins kw db -> a ∈ get_existing_asins kw out.2;
  saved_rows :
    forall r, r ∈ out.2 -> r ∈ db \/ written asins kw now r
}.

Lemma save_asins_snoc asins it kw st sv now db :
  save_asins (asins ++ [it]) kw st sv now db
  = save_one kw st sv now (save_asins asins kw st sv now db) it.
Proof. unfold save_asins. by rewrite fold_left_app. Qed.

Lemma written_mono asins it kw now r :
  written asins kw now r -> written (asins ++ [it]) kw now r.
Proof.
  intros (Hk & Hd & it' & Hin & Ha). split_and!; [done | done |].
  exists it'. split; [| exact Ha]. apply elem_of_app. by left.
Qed.

Lemma save_asins_saved asins kw st sv now db :
  saved asins kw now db (save_asins asins kw st sv now db).
Proof.
  induction asins as [| it asins IH] using rev_ind.
  - split; simpl; try done; try lia. auto.
  - destruct IH as [IHu IHc IHl IHo IHe IHr].
    rewrite save_asins_snoc.
    set (acc := save_asins asins kw st sv now db) in *.
    assert (Hskip : saved (asins ++ [it]) kw now db acc).
    { split; try done.
      - rewrite length_app. simpl. lia.
      - intros r Hr. destruct (IHr r Hr) as [? | Hw]; [by left | right].
        by apply written_mono. }
    unfold save_one.
    destruct (i_asin it) as [[| ch a'] |] eqn:Ha; try exact Hskip.
    destruct (row_of_item it (String ch a') kw st sv now) as [r | e] eqn:Hrow;
      [| exact Hskip].
    destruct (row_of_item_Returns _ _ _ _ _ _ _ Hrow)
      as (Hra & Hrk & _ & _ & Hdef & Hdesc).
    split; cbn [fst snd].
    + intros Hu. by apply insert_or_replace_unique, IHu.
    + rewrite length_app. simpl. lia.
    + unfold insert_or_replace. rewrite length_app. simpl.
      pose proof (length_filter
                    (fun x => negb (same_key (asin r) (keyword r) x)) acc.2).
      lia.
    + by rewrite insert_or_replace_other_keywords.
    + intros a Ha0. apply IHe in Ha0.
      apply elem_of_existing in Ha0 as (x & Hx & Hxk & Hxa).
      apply elem_of_existing.
      destruct (same_key (asin r) (keyword r) x) eqn:Hs.
      * apply same_key_spec in Hs as [Hs1 Hs2]. exists r.
        split_and!; [apply elem_of_insert_or_replace; by left | done | congruence].
      * exists x. split_and!; [| done | done].
        apply elem_of_insert_or_replace. by right.
    + intros x Hx. apply elem_of_insert_or_replace in Hx as [-> | [Hx _]].
      * right. split_and!; [done | done |].
        exists it. split_and!; [| congruence | done].
        apply elem_of_app. right. by left.
      * destruct (IHr x Hx) as [? | Hw]; [by left | right].
        by apply written_mono.
Qed.

(** [save_asins] keeps the table well formed.  Whatever the items,
    one pair of identifier and keyword never has two rows; the count
    returned is at most the number of items, and the table grows by
    at most that count; rows of other keywords stay as they are and
    in their order; no identifier of the keyword gets lost; and every
    row that was not in the table before belongs to the keyword, has
    no tag and no enrichment, and describes one of the items. *)
Theorem save_asins_invariants (asins : list item) (kw st sv : string) (now : Z)
    (db : table) :
  unique_keys db ->
  let saved_count := (save_asins asins kw st sv now db).1 in
  let db' := (save_asins asins kw st sv now db).2 in
  unique_keys db' /\
  0 <= saved_count <= Z.of_nat (length asins) /\
  Z.of_nat (length db') <= Z.of_nat (length db) + saved_count /\
  filter (fun x => negb (for_keyword kw x)) db'
    = filter (fun x => negb (for_keyword kw x)) db /\
  (forall a, a ∈ get_existing_asins kw db -> a ∈ get_existing_asins kw db') /\
  (forall r, r ∈ db' -> r ∈ db \/ written asins kw now r).
Proof.
  intros Hu. cbv zeta.
  destruct (save_asins_saved asins kw st sv now db) as [H1 H2 H3 H4 H5 H6].
  split_and!; first [lia | auto].
Qed.


(** An item that is scraped twice in one batch is stored once. *)
Lemma save_asins_invariants_witness :
  let it := {| i_asin := Some "A003"%string; i_name := None; i_brand := None;
               i_category := None; i_category_path := None;
               i_category_main := None; i_category_sub := Some "Tents"%string;
               i_price := Utils.PyNone; i_stars := None; i_rating := None;
               i_total_reviews := None; i_ratings_total := None;
               i_sales_volume := Some 120;
               i_purchase_history_message := None; i_page := None;
               i_url := None; i_is_sponsored := false |} in
  let out := save_asins [it; it] "camping" "keyword_search" "camping" 7 camping_rows in
  unique_keys camping_rows /\ unique_keys out.2 /\
  out.1 = 2 /\ length out.2 = length camping_rows.
Proof.
  intros it out.
  assert (Hu : unique_keys camping_rows)
    by (apply (bool_decide_unpack _); vm_compute; exact I).
  split; [exact Hu |]. split; [| split; reflexivity].
  exact (proj1 (save_asins_invariants [it; it] "camping" "keyword_search"
                  "camping" 7 camping_rows Hu)).
Defined.

End StoreMore.

(** ** [src/apify_db.py], [src/apify_price.py]: writes, reads and cleanups *)

Module CacheMore.
Import ApifyDB ApifyPrice ApifyDBProps StaleProps.

(** [batch_save_apify_data].  Every save reads the clock, so each
    payload comes with the time of its save. *)
Definition batch_save_apify_data (data_list : list (payload * Z)) (c : cache)
    : Z * cache :=
  foldl (fun acc d =>
           let r := save_apify_data d.1 d.2 acc.2 in
           (if r.1 then acc.1 + 1 else acc.1, r.2))
        (0, c) data_list.

Record cache_stats : Type := {
  total : Z;
  valid_count : Z;
  expired_count : Z
}.

(** [get_cache_stats]: the window is the constant 20. *)
Definition get_cache_stats (now : Z) (c : cache) : cache_stats :=
  let total := Z.of_nat (size c) in
  let valid_count :=
    Z.of_nat (size (filter (fun kv : string * entry => fresh now 20 kv.2 = true) c)) in
  {| total := total; valid_count := valid_count;
     expired_count := total - valid_count |}.

(** A payload that [save_apify_data] stores. *)
Definition storable (data : payload) : bool :=
  match p_asin data with
  | None | Some EmptyString => false
  | Some _ => true
  end.

Lemma save_storable data now c :
  (save_apify_data data now c).1 = storable data.
Proof.
  unfold save_apify_data, storable.
  by destruct (p_asin data) as [[| ch a] |].
Qed.

Lemma save_cache data now c a :
  p_asin data = Some a -> a <> ""%string ->
  (save_apify_data data now c).2 = <[a := entry_of_payload data now]> c.
Proof.
  intros Ha Hne. unfold save_apify_data. rewrite Ha.
  by destruct a as [| ch a].
Qed.

Lemma save_not_storable data now c :
  storable data = false -> (save_apify_data data now c).2 = c.
Proof.
  unfold save_apify_data, storable.
  by destruct (p_asin data) as [[| ch a] |].
Qed.

(** What is saved is read back.  After a payload with an identifier
    has been saved, the single-identifier get returns its entry; while
    the window still holds the time of the save, [is_cached] is true,
    the uncached query never lists the identifier, the batch get
    returns the entry whenever the identifier is asked for, and
    [get_price_history] answers from the entry without asking the
    provider and without writing.  The entries of other identifiers
    are as before. *)
Theorem save_then_read (data : payload) (a : string) (now now' days : Z)
    (c : cache) :
  p_asin data = Some a -> a <> ""%string ->
  now' - now <= days * 86400 ->
  let c' := (save_apify_data data now c).2 in
  let e := entry_of_payload data now in
  (save_apify_data data now c).1 = true /\
  get_cached_data a c' = Some e /\
  is_cached a days now' c' = true /\
  (forall asins, a ∉ get_uncached_asins asins days now' c') /\
  (forall asins, a ∈ asins ->
     get_cached_data_batch asins days now' c' !! a = Some e) /\
  (forall fetched,
     get_price_history a days now' fetched c'
     = (Some (format_cached_data a e), c')) /\
  (forall b, b <> a -> get_cached_data b c' = get_cached_data b c).
Proof.
  intros Ha Hne Hwin. cbv zeta.
  rewrite (save_cache data now c a Ha Hne).
  assert (Hget : (<[a := entry_of_payload data now]> c) !! a
                 = Some (entry_of_payload data now)) by apply lookup_insert_eq.
  assert (Hfr : fresh now' days (entry_of_payload data now) = true).
  { apply fresh_spec. unfold entry_of_payload.
    destruct (reconciled data) as [[[mn mx] mnd] mxd]. simpl. lia. }
  assert (Hc : is_cached a days now' (<[a := entry_of_payload data now]> c) = true).
  { apply is_cached_spec. eauto. }
  split_and!.
  - rewrite save_storable. unfold storable. rewrite Ha. by destruct a.
  - exact Hget.
  - exact Hc.
  - intros asins. rewrite uncached_filter, list_elem_of_filter.
    intros [Hn _]. congruence.
  - intros asins Hin. apply batch_lookup. auto.
  - intros fetched. unfold get_price_history, get_cached_data.
    by rewrite Hc, Hget.
  - intros b Hb. unfold get_cached_data. by apply lookup_insert_ne.
Qed.

Lemma save_then_read_witness :
  let data := sample_payload [] None None None None in
  let c' := (save_apify_data data 1000 ∅).2 in
  is_cached "B0BK9HFZ77" 20 (1000 + 19 * 86400) c' = true /\
  get_uncached_asins ["B0BK9HFZ77"]%string 20 (1000 + 19 * 86400) c' = [].
Proof.
  intros data c'.
  destruct (save_then_read data "B0BK9HFZ77" 1000 (1000 + 19 * 86400) 20 ∅)
    as (_ & _ & H3 & _); [reflexivity | discriminate | lia |].
  split; [exact H3 | reflexivity].
Defined.


Lemma created_at_entry data now : created_at (entry_of_payload data now) = now.
Proof.
  unfold entry_of_payload.
  by destruct (reconciled data) as [[[mn mx] mnd] mxd].
Qed.

Lemma entry_prices data now :
  (price_min (entry_of_payload data now), price_max (entry_of_payload data now),
   price_min_date (entry_of_payload data now),
   price_max_date (entry_of_payload data now)) = reconciled data.
Proof.
  unfold entry_of_payload.
  by destruct (reconciled data) as [[[mn mx] mnd] mxd].
Qed.

(** The first answer for a product and the next one.  When the cache
    has no fresh entry, [get_price_history] answers with what it
    parses from the provider's payload and saves the payload; a
    repeated call within the window is answered from the saved entry.
    The two answers name the same product, but the second one reports
    no history count, and where the first has no minimum or maximum
    the second has the summary of the provider. *)
Theorem fetch_then_cached (raw : payload) (a : string) (now now' days : Z)
    (c : cache) (again : option payload) :
  is_cached a days now c = false ->
  p_asin raw = Some a -> a <> ""%string ->
  now' - now <= days * 86400 ->
  let first := get_price_history a days now (Some raw) c in
  let second := get_price_history a days now' again first.2 in
  second.2 = first.2 /\
  exists h1 h2,
    first.1 = Some h1 /\ second.1 = Some h2 /\
    h_asin h1 = a /\ h_asin h2 = a /\ h_from_cache h2 = true /\
    h_history_count h1
      = Z.of_nat (length (valid_prices (first_history (history_fields raw)))) /\
    h_history_count h2 = 0 /\
    h_price_min h2 = match h_price_min h1 with
                     | Some p => Some p
                     | None => p_price_min raw
                     end /\
    h_price_max h2 = match h_price_max h1 with
                     | Some p => Some p
                     | None => p_price_max raw
                     end.
Proof.
  intros Hnc Ha Hne Hwin. cbv zeta.
  set (e := entry_of_payload raw now).
  assert (Hfirst : get_price_history a days now (Some raw) c
                   = (parse_price_history raw, <[a := e]> c)).
  { unfold get_price_history. rewrite Hnc.
    by rewrite (save_cache raw now c a Ha Hne). }
  rewrite Hfirst. cbn [fst snd].
  assert (Hget : (<[a := e]> c) !! a = Some e) by apply lookup_insert_eq.
  assert (Hc : is_cached a days now' (<[a := e]> c) = true).
  { apply is_cached_spec. exists e. split; [exact Hget |].
    apply fresh_spec. unfold e. rewrite created_at_entry. lia. }
  unfold get_price_history, get_cached_data. rewrite Hc, Hget. cbn [fst snd].
  split; [reflexivity |].
  pose proof (entry_prices raw now) as Hp. fold e in Hp.
  unfold parse_price_history. rewrite Ha.
  destruct a as [| ch a']; [done |].
  unfold reconciled, calc_price_history in Hp.
  set (valid := valid_prices (first_history (history_fields raw))) in *.
  destruct (has_history raw) eqn:Hh.
  - destruct (min_record valid) as [mn |] eqn:Hmn,
      (max_record valid) as [mx |] eqn:Hmx; injection Hp as H1 H2 H3 H4;
      (eexists _, _; split_and!; [reflexivity | reflexivity | ..]); simpl; auto.
  - assert (Hv : valid = []).
    { apply has_history_false in Hh as (H1 & H2 & H3).
      unfold valid, history_fields. by rewrite H1, H2, H3. }
    rewrite Hv. simpl. injection Hp as H1 H2 H3 H4.
    eexists _, _; split_and!; [reflexivity | reflexivity | ..]; simpl; auto.
Qed.

(** A provider summary without series: nothing on the first call,
    the summary on the second. *)
Lemma fetch_then_cached_witness :
  let raw := sample_payload [] (Some (dec 999)) (Some (dec 2999)) None None in
  let first := get_price_history "B0BK9HFZ77" 20 1000 (Some raw) ∅ in
  let second := get_price_history "B0BK9HFZ77" 20 5000 None first.2 in
  (h_price_min <$> first.1) = Some None /\
  (h_price_min <$> second.1) = Some (Some (dec 999)) /\
  second.2 = first.2.
Proof.
  intros raw first second.
  destruct (fetch_then_cached raw "B0BK9HFZ77" 1000 5000 20 ∅ None)
    as [H _]; [reflexivity | reflexivity | discriminate | lia |].
  split_and!; [reflexivity | reflexivity | exact H].
Defined.


(** *** Cleanup and statistics *)

Lemma size_fresh_stale now days (c : cache) :
  (size (filter (fun kv : string * entry => fresh now days kv.2 = true) c)
   + size (filter (fun kv : string * entry => fresh now days kv.2 = false) c)
   = size c)%nat.
Proof.
  rewrite <- (map_filter_union_complement
                (fun kv : string * entry => fresh now days kv.2 = true) c) at 3.
  rewrite map_size_disj_union by apply map_disjoint_filter_complement.
  f_equal. f_equal. apply map_filter_ext. intros a e _. simpl.
  by rewrite not_true_iff_false.
Qed.

Lemma is_cached_clean a days now (c : cache) :
  is_cached a days now (clean_expired_cache days now c).2
  = is_cached a days now c.
Proof.
  apply eq_true_iff_eq. rewrite !is_cached_spec.
  setoid_rewrite clean_expired_lookup.
  split; [intros (e & [He Hf] & _) | intros (e & He & Hf)]; eauto.
Qed.

(** [clean_expired_cache] returns the number of entries it deletes;
    what stays are exactly the entries captured within the window,
    so the reads that take the same window answer as before; a
    second cleanup at that time deletes nothing. *)
Theorem clean_expired_spec (days now : Z) (c : cache) :
  let deleted := (clean_expired_cache days now c).1 in
  let c' := (clean_expired_cache days now c).2 in
  deleted = Z.of_nat (size c) - Z.of_nat (size c') /\
  0 <= deleted <= Z.of_nat (size c) /\
  (forall a e, c' !! a = Some e <->
     c !! a = Some e /\ now - created_at e <= days * 86400) /\
  (forall a, is_cached a days now c' = is_cached a days now c) /\
  (forall asins, get_uncached_asins asins days now c'
                 = get_uncached_asins asins days now c) /\
  (forall asins, get_cached_data_batch asins days now c'
                 = get_cached_data_batch asins days now c) /\
  clean_expired_cache days now c' = (0, c').
Proof.
  cbv zeta. pose proof (size_fresh_stale now days c) as Hsz.
  split_and!.
  - unfold clean_expired_cache. cbn [fst snd]. lia.
  - unfold clean_expired_cache. cbn [fst snd]. lia.
  - unfold clean_expired_cache. cbn [fst snd]. lia.
  - intros a e. by rewrite clean_expired_lookup, fresh_spec.
  - intros a. apply is_cached_clean.
  - intros asins. rewrite !uncached_filter.
    apply filter_ext_in. intros a _. by rewrite is_cached_clean.
  - intros asins. apply map_eq. intros a. apply option_eq. intros e.
    rewrite !batch_lookup, clean_expired_lookup. tauto.
  - assert (Hid : (clean_expired_cache days now
                     (clean_expired_cache days now c).2).2
                  = (clean_expired_cache days now c).2).
    { apply map_eq. intros a. apply option_eq. intros e.
      rewrite !clean_expired_lookup. tauto. }
    pose proof (size_fresh_stale now days (clean_expired_cache days now c).2)
      as Hsz'.
    rewrite (surjective_pairing (clean_expired_cache days now _)).
    rewrite Hid. f_equal.
    unfold clean_expired_cache in *. cbn [fst snd] in *.
    rewrite Hid in Hsz'. lia.
Qed.

(** [get_cache_stats] splits the table into the entries within
    twenty days and the others; the expired count is what a cleanup
    with the default window deletes, and it is zero after one. *)
Theorem cache_stats_spec (now : Z) (c : cache) :
  let s := get_cache_stats now c in
  total s = Z.of_nat (size c) /\
  total s = valid_count s + expired_count s /\
  0 <= valid_count s /\ 0 <= expired_count s /\
  expired_count s = (clean_expired_cache 20 now c).1 /\
  valid_count s = Z.of_nat (size (clean_expired_cache 20 now c).2) /\
  expired_count (get_cache_stats now (clean_expired_cache 20 now c).2) = 0 /\
  (expired_count s = 0 <->
     forall a e, c !! a = Some e -> now - created_at e <= 20 * 86400).
Proof.
  cbv zeta. pose proof (size_fresh_stale now 20 c) as Hsz.
  assert (Hid : filter (fun kv : string * entry => fresh now 20 kv.2 = true)
                  (clean_expired_cache 20 now c).2
                = (clean_expired_cache 20 now c).2).
  { apply map_filter_id. intros a e He.
    apply clean_expired_lookup in He. simpl. tauto. }
  unfold get_cache_stats. cbn [total valid_count expired_count].
  split_and!; try (unfold clean_expired_cache; cbn [fst snd]; lia).
  - rewrite Hid. lia.
  - split.
    + intros H0 a e He. apply fresh_spec.
      destruct (fresh now 20 e) eqn:Hf; [done |].
      assert (Hin : filter (fun kv : string * entry => fresh now 20 kv.2 = false) c
                    !! a = Some e) by (by apply map_lookup_filter_Some).
      assert (He0 : filter (fun kv : string * entry => fresh now 20 kv.2 = false) c
                    = ∅) by (apply map_size_empty_iff; lia).
      rewrite He0, lookup_empty in Hin. discriminate.
    + intros Hall.
      rewrite (map_filter_id
                 (fun kv : string * entry => fresh now 20 kv.2 = true) c); [lia |].
      intros a e He. simpl. apply fresh_spec. eauto.
Qed.

(** *** Batches of saves *)

Lemma batch_save_snoc l d c :
  batch_save_apify_data (l ++ [d]) c
  = let acc := batch_save_apify_data l c in
    let r := save_apify_data d.1 d.2 acc.2 in
    (if r.1 then acc.1 + 1 else acc.1, r.2).
Proof. unfold batch_save_apify_data. by rewrite foldl_app. Qed.

Lemma save_lookup_other data now c a :
  p_asin data <> Some a -> (save_apify_data data now c).2 !! a = c !! a.
Proof.
  intros Hne. unfold save_apify_data.
  destruct (p_asin data) as [[| ch b] |]; [done | | done].
  cbn [snd]. apply lookup_insert_ne. congruence.
Qed.

Lemma batch_save_lookup_other l c a :
  (forall d, d ∈ l -> p_asin d.1 <> Some a) ->
  (batch_save_apify_data l c).2 !! a = c !! a.
Proof.
  induction l as [| d l IH] using rev_ind; intros Hno; [reflexivity |].
  rewrite batch_save_snoc. cbv zeta. cbn [snd].
  rewrite save_lookup_other by (apply Hno, elem_of_app; right; by left).
  apply IH. intros d' Hd'. apply Hno, elem_of_app. by left.
Qed.

(** [batch_save_apify_data] counts the payloads that have an
    identifier, repetitions included; for each identifier the entry
    of the last payload that names it is the one stored; identifiers
    that no payload names keep their entries. *)
Theorem batch_save_spec (data_list : list (payload * Z)) (c : cache) :
  let saved_count := (batch_save_apify_data data_list c).1 in
  let c' := (batch_save_apify_data data_list c).2 in
  saved_count
    = Z.of_nat (length (filter (fun d => storable d.1 = true) data_list)) /\
  0 <= saved_count <= Z.of_nat (length data_list) /\
  (forall before d after a,
     data_list = before ++ d :: after ->
     p_asin d.1 = Some a -> a <> ""%string ->
     (forall d', d' ∈ after -> p_asin d'.1 <> Some a) ->
     c' !! a = Some (entry_of_payload d.1 d.2)) /\
  (forall a, (forall d, d ∈ data_list -> p_asin d.1 <> Some a) ->
     c' !! a = c !! a).
Proof.
  cbv zeta.
  assert (Hcount : (batch_save_apify_data data_list c).1
            = Z.of_nat (length (filter (fun d => storable d.1 = true) data_list))).
  { induction data_list as [| d l IH] using rev_ind; [reflexivity |].
    rewrite batch_save_snoc. cbv zeta. cbn [fst].
    rewrite save_storable, filter_app, length_app, IH, filter_cons, filter_nil.
    destruct (storable d.1); simpl; lia. }
  split_and!.
  - exact Hcount.
  - lia.
  - rewrite Hcount. pose proof (length_filter (fun d => storable d.1 = true) data_list).
    lia.
  - intros before d after a -> Ha Hne Hafter.
    change (before ++ d :: after) with (before ++ [d] ++ after).
    rewrite app_assoc.
    unfold batch_save_apify_data. rewrite foldl_app.
    fold (batch_save_apify_data (before ++ [d]) c).
    rewrite (surjective_pairing (batch_save_apify_data (before ++ [d]) c)).
    set (n0 := (batch_save_apify_data (before ++ [d]) c).1).
    set (c0 := (batch_save_apify_data (before ++ [d]) c).2).
    assert (Hc0 : c0 !! a = Some (entry_of_payload d.1 d.2)).
    { unfold c0. rewrite batch_save_snoc. cbv zeta. cbn [snd].
      rewrite (save_cache _ _ _ a Ha Hne). apply lookup_insert_eq. }
    clearbody n0 c0. rewrite <- Hc0.
    revert n0 c0 Hc0. clear Hcount.
    induction after as [| d' after IH] using rev_ind; intros n0 c0 Hc0;
      [reflexivity |].
    rewrite foldl_app. cbn [foldl snd].
    rewrite save_lookup_other by (apply Hafter, elem_of_app; right; by left).
    apply IH; [| exact Hc0].
    intros d'' Hd''. apply Hafter, elem_of_app. by left.
  - intros a Hno. by apply batch_save_lookup_other.
Qed.

Lemma batch_save_spec_witness :
  let d1 := sample_payload [] (Some (dec 999)) None None None in
  let d2 := sample_payload [] (Some (dec 899)) None None None in
  (batch_save_apify_data [(d1, 10); (d2, 20)] ∅).2 !! "B0BK9HFZ77"%string
  = Some (entry_of_payload d2 20).
Proof.
  intros d1 d2.
  destruct (batch_save_spec [(d1, 10); (d2, 20)] ∅) as (_ & _ & H & _).
  apply (H [(d1, 10)] (d2, 20) [] "B0BK9HFZ77"%string);
    [reflexivity | reflexivity | discriminate |].
  intros d' Hd'. inversion Hd'.
Defined.


(** *** [get_multiple_price_history] *)

(** What the provider returns for a list of identifiers: [None] when
    the call raises, otherwise one result for each identifier, [None]
    where the result has no items. *)
Definition provider : Type := list string -> option (list (option payload)).

Abbreviation answers := (gmap string price_history).

(** One round of the loop over [zip(uncached_asins, batch_results)]. *)
Definition take_result (now : Z) (acc : answers * cache)
    (ar : string * option payload) : answers * cache :=
  match ar.2 with
  | Some raw_data =>
      let c' := (save_apify_data raw_data now acc.2).2 in
      match parse_price_history raw_data with
      | Some parsed => (<[h_asin parsed := parsed]> acc.1, c')
      | None => (acc.1, c')
      end
  | None => acc
  end.

Definition cached_answers (asins : list string) (cache_days now : Z)
    (c : cache) : answers :=
  map_imap (fun a e => Some (format_cached_data a e))
    (get_cached_data_batch asins cache_days now c).

Definition get_multiple_price_history (asins : list string)
    (cache_days now : Z) (scrape : provider) (c : cache) : answers * cache :=
  match asins with
  | [] => (∅, c)
  | _ =>
      let results := cached_answers asins cache_days now c in
      let uncached_asins := get_uncached_asins asins cache_days now c in
      match uncached_asins with
      | [] => (results, c)
      | _ =>
          match scrape uncached_asins with
          | Some batch_results =>
              fold_left (take_result now) (zip uncached_asins batch_results)
                (results, c)
          | None => (results, c)
          end
      end
  end.

Lemma cached_answers_lookup asins days now c a h :
  cached_answers asins days now c !! a = Some h <->
  exists e, a ∈ asins /\ c !! a = Some e /\ fresh now days e = true /\
            h = format_cached_data a e.
Proof.
  unfold cached_answers. rewrite map_lookup_imap.
  destruct (get_cached_data_batch asins days now c !! a) as [e |] eqn:Hb; simpl.
  - apply batch_lookup in Hb as (Hin & He & Hf). split.
    + intros [= <-]. eauto.
    + intros (e' & _ & He' & _ & ->). congruence.
  - split; [done |]. intros (e & Hin & He & Hf & _).
    assert (Hb' : get_cached_data_batch asins days now c !! a = Some e)
      by (by apply batch_lookup).
    congruence.
Qed.

Lemma parse_price_history_Some raw h :
  parse_price_history raw = Some h ->
  p_asin raw = Some (h_asin h) /\ h_asin h <> ""%string /\
  h_from_cache h = false.
Proof.
  unfold parse_price_history.
  destruct (p_asin raw) as [[| ch a] |]; try discriminate.
  cbv zeta.
  destruct (min_record (valid_prices (first_history (history_fields raw)))),
    (max_record (valid_prices (first_history (history_fields raw))));
    intros [= <-]; by simpl.
Qed.

(** The answers that come from the cache are those of the listed
    identifiers with an entry inside the window. *)
Definition from_cache_ok (asins : list string) (days now : Z) (c : cache)
    (results : answers) : Prop :=
  forall a h, results !! a = Some h ->
    h_asin h = a /\
    (h_from_cache h = true ->
     exists e, a ∈ asins /\ c !! a = Some e /\ fresh now days e = true /\
               h = format_cached_data a e).

Lemma take_results_ok asins days now c l acc :
  from_cache_ok asins days now c acc.1 ->
  from_cache_ok asins days now c (fold_left (take_result now) l acc).1 /\
  (forall a, is_Some (acc.1 !! a) ->
     is_Some ((fold_left (take_result now) l acc).1 !! a)).
Proof.
  revert acc. induction l as [| [a0 [raw |]] l IH]; intros acc Hok; simpl.
  - auto.
  - unfold take_result at 2 4. cbn [snd].
    destruct (parse_price_history raw) as [parsed |] eqn:Hp.
    + destruct (parse_price_history_Some raw parsed Hp) as (_ & _ & Hfc).
      match goal with
      | |- context [fold_left _ l ?acc'] => destruct (IH acc') as [IH1 IH2]
      end.
      { cbn [fst]. intros a h.
        destruct (decide (h_asin parsed = a)) as [<- | Hne].
        - rewrite lookup_insert_eq. intros [= <-]. split; [done | congruence].
        - rewrite lookup_insert_ne by done. apply Hok. }
      split; [exact IH1 |]. intros a Ha. apply IH2. cbn [fst].
      destruct (decide (h_asin parsed = a)) as [<- | Hne].
      * rewrite lookup_insert_eq. eauto.
      * by rewrite lookup_insert_ne.
    + apply (IH (acc.1, _)). exact Hok.
  - unfold take_result at 2 4. cbn [snd]. by apply IH.
Qed.

(** [get_multiple_price_history] asks the provider only when some
    listed identifier has no entry inside the window; when all have
    one, the answers are the formatted entries and the cache is not
    written.  In every case an answer is filed under the identifier
    it names, every listed identifier with an entry inside the window
    has an answer, and an answer marked as cached is the formatted
    entry of such an identifier. *)
Theorem multiple_price_history_spec (asins : list string) (days now : Z)
    (scrape : provider) (c : cache) :
  let out := get_multiple_price_history asins days now scrape c in
  ((forall a, a ∈ asins -> is_cached a days now c = true) ->
   out = (cached_answers asins days now c, c)) /\
  (forall a h, out.1 !! a = Some h -> h_asin h = a) /\
  (forall a, a ∈ asins -> is_cached a days now c = true -> is_Some (out.1 !! a)) /\
  (forall a h, out.1 !! a = Some h -> h_from_cache h = true ->
     a ∈ asins /\ exists e, c !! a = Some e /\
       now - created_at e <= days * 86400 /\ h = format_cached_data a e).
Proof.
  cbv zeta.
  assert (Hok0 : from_cache_ok asins days now c (cached_answers asins days now c)).
  { intros a h Hh. apply cached_answers_lookup in Hh as (e & Hin & He & Hf & ->).
    split; [reflexivity | eauto 6]. }
  assert (Hall : forall a, a ∈ asins -> is_cached a days now c = true ->
                   is_Some (cached_answers asins days now c !! a)).
  { intros a Hin Hc. apply is_cached_spec in Hc as (e & He & Hf).
    exists (format_cached_data a e). apply cached_answers_lookup. eauto 6. }
  assert (Hout : from_cache_ok asins days now c
                   (get_multiple_price_history asins days now scrape c).1 /\
                 forall a, is_Some (cached_answers asins days now c !! a) ->
                   is_Some ((get_multiple_price_history asins days now scrape c).1
                            !! a)).
  { unfold get_multiple_price_history.
    destruct asins as [| a0 asins0] eqn:Hasins.
    - split; [intros a h Hh; cbn [fst] in Hh; by rewrite lookup_empty in Hh |].
      intros a [h Hh]. apply cached_answers_lookup in Hh as (e & Hin & _).
      inversion Hin.
    - rewrite <- Hasins in *.
      destruct (get_uncached_asins asins days now c) as [| u us]; [auto |].
      destruct (scrape (u :: us)) as [batch_results |]; [| auto].
      apply (take_results_ok asins days now c _ (_, c)). exact Hok0. }
  destruct Hout as [Hok Hkeep].
  split_and!.
  - intros Hc. unfold get_multiple_price_history.
    destruct asins as [| a0 asins0] eqn:Hasins.
    + reflexivity.
    + rewrite <- Hasins in *.
      assert (Hun : get_uncached_asins asins days now c = []).
      { rewrite uncached_filter.
        destruct (filter (fun a => is_cached a days now c = false) asins)
          as [| x l'] eqn:Hf; [done |].
        assert (Hx : x ∈ filter (fun a => is_cached a days now c = false) asins)
          by (rewrite Hf; by left).
        apply list_elem_of_filter in Hx as [Hx Hin].
        rewrite (Hc x Hin) in Hx. discriminate. }
      by rewrite Hun.
  - intros a h Hh. by destruct (Hok a h Hh).
  - intros a Hin Hc. apply Hkeep. by apply Hall.
  - intros a h Hh Hfc. destruct (Hok a h Hh) as [_ Hcache].
    destruct (Hcache Hfc) as (e & Hin & He & Hf & ->).
    split; [exact Hin |]. exists e. split_and!; [done | | done].
    by apply fresh_spec.
Qed.

(** One identifier answered from the cache, one by the provider. *)
Example multiple_price_history_example :
  let data := sample_payload [] (Some (dec 999)) None None None in
  let other := sample_payload [Point (Some (dec 1250)) (Some "2024-03-01"%string)]
                 None None None None in
  let c := (save_apify_data data 1000 ∅).2 in
  let scrape (l : list string) :=
    Some ((fun _ => Some other) <$> l) in
  let out := get_multiple_price_history ["B0BK9HFZ77"]%string 20 2000 scrape c in
  (h_from_cache <$> out.1 !! "B0BK9HFZ77"%string) = Some true /\
  (h_price_min <$> out.1 !! "B0BK9HFZ77"%string) = Some (Some (dec 999)) /\
  out.2 = c.
Proof. vm_compute. repeat split. Qed.

End CacheMore.

(** ** [src/ai_analyzer.py]: the range of the concurrency *)

Module AnalyzerMore.
Import Analyzer AnalyzerProps.

(** With a ceiling of at least one, the concurrency of every reachable
    state lies between one and the greater of five and the ceiling:
    the controller never stalls and never runs away; with a ceiling of
    at least five the ceiling itself is the bound. *)
Theorem concurrency_bounds (m : Z) (st : controller) :
  reachable m st -> 1 <= m ->
  1 <= current_concurrent st <= Z.max 5 m /\
  (5 <= m -> current_concurrent st <= m).
Proof.
  intros Hr Hm.
  assert (H : max_concurrent st = m /\ 1 <= current_concurrent st <= Z.max 5 m).
  { induction Hr as [| st _ IH | a st _ IH].
    - simpl. lia.
    - destruct IH as [IHm IHc]. simpl. lia.
    - destruct IH as [IHm IHc].
      destruct a as [| | msg]; simpl; [| auto |]; unfold adjust_concurrency.
      + destruct (success_threshold st <=? consecutive_successes st + 1);
          simpl; split; lia.
      + destruct (is_server_error msg); simpl; [| auto].
        split; [exact IHm |].
          assert (current_concurrent st / 2 <= current_concurrent st)
          by (apply Z.div_le_upper_bound; lia).
        lia. }
  destruct H as [_ H]. split; [exact H | lia].
Qed.

Lemma concurrency_bounds_witness :
  let st := after_attempt (Failed "503 Service Unavailable") (init 50) in
  reachable 50 st /\ 1 <= current_concurrent st <= 50.
Proof.
  intro st.
  assert (Hr : reachable 50 st) by (repeat constructor).
  split; [exact Hr |].
  destruct (concurrency_bounds 50 st Hr) as [[H1 _] H2]; [lia |].
  split; [exact H1 | apply H2; lia].
Defined.

(** A ceiling below five does not hold at the start: a batch begins
    with five, and the ceiling is reached only with the third judgment
    in a row. *)
Example ceiling_below_five :
  let st := start_batch (init 2) in
  current_concurrent st = 5 /\
  current_concurrent
    (after_attempt Judged (after_attempt Judged (after_attempt Judged st))) = 2.
Proof. split; reflexivity. Qed.

End AnalyzerMore.

(** ** [src/database.py]: the distributions shown before a filter runs *)

Module Distributions.
Import Database DatabaseProps StoreMore.

(** [col = x], [col <= x], [col >= x]: not true on [NULL]. *)
Definition eq_Z (v : option Z) (x : Z) : bool :=
  match v with Some n => n =? x | None => false end.
Definition le_Z (v : option Z) (x : Z) : bool :=
  match v with Some n => n <=? x | None => false end.
Definition eq_float (v : option F64.float) (x : F64.float) : bool :=
  match v with Some p => F64.eqb p x | None => false end.
Definition le_float (v : option F64.float) (x : F64.float) : bool :=
  match v with Some p => F64.leb p x | None => false end.
Definition ge_text (v : option string) (x : string) : bool :=
  match v with Some s => negb (String.ltb s x) | None => false end.

Record distribution : Type := {
  no_data : Z; under_threshold : Z; over_threshold : Z; d_total : Z
}.

(** [get_sales_distribution] *)
Definition get_sales_distribution (kw : string) (max_sales : Z) (db : table)
    : distribution :=
  let no_data :=
    count_where (fun r => for_keyword kw r
                          && (is_null (sales_volume r) || eq_Z (sales_volume r) 0)
                          && unfiltered r) db in
  let under_threshold :=
    count_where (fun r => for_keyword kw r && gt_Z (sales_volume r) 0
                          && le_Z (sales_volume r) max_sales && unfiltered r) db in
  let over_threshold :=
    count_where (fun r => for_keyword kw r && gt_Z (sales_volume r) max_sales
                          && unfiltered r) db in
  {| no_data := no_data; under_threshold := under_threshold;
     over_threshold := over_threshold;
     d_total := no_data + under_threshold + over_threshold |}.

(** [get_price_distribution] *)
Definition get_price_distribution (kw : string) (max_price : F64.float)
    (db : table) : distribution :=
  let no_data :=
    count_where (fun r => for_keyword kw r
                          && (is_null (price r) || eq_float (price r) F64.zero)
                          && unfiltered r) db in
  let under_threshold :=
    count_where (fun r => for_keyword kw r && gt_float (price r) F64.zero
                          && le_float (price r) max_price && unfiltered r) db in
  let over_threshold :=
    count_where (fun r => for_keyword kw r && gt_float (price r) max_price
                          && unfiltered r) db in
  {| no_data := no_data; under_threshold := under_threshold;
     over_threshold := over_threshold;
     d_total := no_data + under_threshold + over_threshold |}.

Record listing_distribution : Type := {
  no_date_data : Z; new_by_date : Z; old_by_date : Z;
  no_sales_months_data : Z; new_by_sales_months : Z; old_by_sales_months : Z;
  l_total : Z
}.

(** [get_listing_date_distribution], with the cut-off date as text. *)
Definition get_listing_date_distribution (kw cutoff_date : string) (months : Z)
    (db : table) : listing_distribution :=
  {| no_date_data :=
       count_where (fun r => for_keyword kw r && is_null (listing_date r)
                             && unfiltered r) db;
     new_by_date :=
       count_where (fun r => for_keyword kw r
                             && ge_text (listing_date r) cutoff_date
                             && unfiltered r) db;
     old_by_date :=
       count_where (fun r => for_keyword kw r && negb (is_null (listing_date r))
                             && lt_text (listing_date r) cutoff_date
                             && unfiltered r) db;
     old_by_sales_months :=
       count_where (fun r => for_keyword kw r
                             && negb (is_null (sales_months_count r))
                             && gt_Z (sales_months_count r) months
                             && unfiltered r) db;
     new_by_sales_months :=
       count_where (fun r => for_keyword kw r
                             && negb (is_null (sales_months_count r))
                             && le_Z (sales_months_count r) months
                             && unfiltered r) db;
     no_sales_months_data :=
       count_where (fun r => for_keyword kw r && is_null (sales_months_count r)
                             && unfiltered r) db;
     l_total := count_where (fun r => for_keyword kw r && unfiltered r) db |}.

(** *** Counting by cases *)

Lemma count_where_sum3 (w w1 w2 w3 : asin_row -> bool) db :
  (forall r, r ∈ db ->
     Z.b2z (w1 r) + Z.b2z (w2 r) + Z.b2z (w3 r) = Z.b2z (w r)) ->
  count_where w1 db + count_where w2 db + count_where w3 db = count_where w db.
Proof.
  induction db as [| r db IH]; intros Hpt; [reflexivity |].
  rewrite !count_where_cons.
  assert (Hr := Hpt r (list_elem_of_here r db)).
  assert (Hrest := IH (fun x Hx => Hpt x (list_elem_of_further x r db Hx))).
  destruct (w r), (w1 r), (w2 r), (w3 r); simpl in Hr; lia.
Qed.

Lemma count_where_split (w p : asin_row -> bool) db :
  count_where w db
  = count_where (fun r => w r && p r) db
    + count_where (fun r => w r && negb (p r)) db.
Proof.
  induction db as [| r db IH]; [reflexivity |].
  rewrite !count_where_cons, IH. destruct (w r), (p r); simpl; lia.
Qed.

(** What the listing-date filter counts under each criterion. *)
Lemma listing_counts kw cutoff_date months db :
  let rep := (filter_by_listing_date kw cutoff_date months db).1 in
  ld_removed_by_date rep = count_where (old_listing kw cutoff_date) db /\
  ld_removed_by_sales_months rep
  = count_where (fun r => many_months kw months r
                          && negb (lt_text (listing_date r) cutoff_date)) db.
Proof.
  cbv zeta. unfold filter_by_listing_date. fold (candidate kw).
  assert (Hle1 : forall r, old_listing kw cutoff_date r = true ->
                           candidate kw r = true).
  { intros r. rewrite old_listing_spec. by intros [? _]%andb_true_iff. }
  assert (Hle2 : forall r,
             many_months kw months r
             && negb (lt_text (listing_date r) cutoff_date) = true ->
             candidate kw r = true).
  { intros r. rewrite many_months_spec.
    by intros [[? _]%andb_true_iff _]%andb_true_iff. }
  destruct (Z.eqb_spec (count_where (candidate kw) db) 0) as [H0 | _].
  - cbn [fst ld_removed_by_date ld_removed_by_sales_months].
    pose proof (count_where_le kw _ db Hle1).
    pose proof (count_where_le kw _ db Hle2).
    pose proof (count_where_nonneg (old_listing kw cutoff_date) db).
    pose proof (count_where_nonneg
                  (fun r => many_months kw months r
                            && negb (lt_text (listing_date r) cutoff_date)) db).
    split; lia.
  - rewrite (surjective_pairing (update_status "listing_date_filtered" _ db)).
    rewrite (surjective_pairing (update_status "sales_months_filtered" _ _)).
    cbn [fst snd ld_removed_by_date ld_removed_by_sales_months].
    unfold update_status. cbn [fst snd]. rewrite !map_is_fmap.
    split; [reflexivity |].
    rewrite count_where_fmap. apply count_where_ext. intros r _.
    change (many_months kw months
              (tag_if "listing_date_filtered" (old_listing kw cutoff_date) r)
            = many_months kw months r
              && negb (lt_text (listing_date r) cutoff_date)).
    rewrite many_months_after, many_months_spec.
    destruct (candidate kw r), (lt_text (listing_date r) cutoff_date),
      (gt_Z (sales_months_count r) months); reflexivity.
Qed.

(** The bucket [over_threshold] of the sales and of the price
    distribution is the number of rows the filter with the same
    threshold then removes, and [old_by_date] is what the listing-date
    filter removes by date.  [old_by_sales_months] is not what that
    filter removes by months of sales: it exceeds it by the number of
    untagged rows that are old by both criteria, which the filter
    charges to the date. *)
Theorem distributions_predict_removals (kw cutoff_date : string)
    (max_sales months : Z) (max_price : F64.float) (db : table) :
  over_threshold (get_sales_distribution kw max_sales db)
    = removed (filter_low_sales_asins kw max_sales db).1 /\
  over_threshold (get_price_distribution kw max_price db)
    = removed (filter_by_price kw max_price db).1 /\
  let d := get_listing_date_distribution kw cutoff_date months db in
  let rep := (filter_by_listing_date kw cutoff_date months db).1 in
  old_by_date d = ld_removed_by_date rep /\
  old_by_sales_months d
    = ld_removed_by_sales_months rep
      + count_where (fun r => candidate kw r
                              && lt_text (listing_date r) cutoff_date
                              && gt_Z (sales_months_count r) months) db.
Proof.
  split_and!.
  - unfold filter_low_sales_asins.
    by rewrite (surjective_pairing (update_status _ _ _)).
  - unfold filter_by_price. fold (candidate kw).
    destruct (Z.eqb_spec (count_where (candidate kw) db) 0) as [H0 | _].
    + cbn [fst removed over_threshold get_price_distribution].
      apply Z.le_antisymm; [| apply count_where_nonneg].
      rewrite <- H0. apply count_where_le. intros r Hr. unfold candidate.
      destruct (for_keyword kw r), (unfiltered r); try done.
      by rewrite andb_false_r in Hr.
    + by rewrite (surjective_pairing (update_status _ _ _)).
  - cbv zeta.
    destruct (listing_counts kw cutoff_date months db) as [H1 H2].
    cbv zeta in H1, H2. rewrite H1, H2. split; [reflexivity |].
    cbn [old_by_sales_months get_listing_date_distribution].
    fold (many_months kw months).
    rewrite (count_where_split (many_months kw months)
               (fun r => negb (lt_text (listing_date r) cutoff_date)) db).
    f_equal. apply count_where_ext. intros r _. rewrite many_months_spec.
    destruct (candidate kw r), (lt_text (listing_date r) cutoff_date),
      (gt_Z (sales_months_count r) months); reflexivity.
Qed.

(** No untagged row of the keyword has a negative sales volume,
    respectively a negative price. *)
Definition sales_nonneg (kw : string) (db : table) : Prop :=
  forall r v, r ∈ db -> candidate kw r = true -> sales_volume r = Some v -> 0 <= v.

Definition prices_nonneg (kw : string) (db : table) : Prop :=
  forall r p, r ∈ db -> candidate kw r = true -> price r = Some p ->
    F64.leb F64.zero p = true.

(** For a threshold that is not negative and a table without negative
    sales volumes, the three buckets of the sales distribution are a
    partition of the untagged rows of the keyword: their sum is the
    total the sales filter reports, and the first two together are
    what it keeps. *)
Theorem sales_distribution_partition (kw : string) (max_sales : Z) (db : table) :
  0 <= max_sales -> sales_nonneg kw db ->
  let d := get_sales_distribution kw max_sales db in
  let rep := (filter_low_sales_asins kw max_sales db).1 in
  d_total d = total rep /\ no_data d + under_threshold d = kept rep.
Proof.
  intros Hmax Hnn. cbv zeta.
  assert (Hsum : d_total (get_sales_distribution kw max_sales db)
                 = count_where (candidate kw) db).
  { cbn [d_total get_sales_distribution]. apply count_where_sum3.
    intros r Hr. unfold candidate.
    destruct (for_keyword kw r) eqn:Hk, (unfiltered r) eqn:Hu;
      rewrite ?andb_false_r; try reflexivity.
    assert (Hv := fun v => Hnn r v Hr). unfold candidate in Hv.
    rewrite Hk, Hu in Hv.
    destruct (sales_volume r) as [v |]; [| reflexivity].
    specialize (Hv v eq_refl eq_refl). cbn.
    destruct (Z.eqb_spec v 0), (Z.ltb_spec 0 v), (Z.leb_spec v max_sales),
      (Z.ltb_spec max_sales v); simpl; lia. }
  unfold filter_low_sales_asins in *.
  rewrite (surjective_pairing (update_status _ _ _)).
  cbn [fst total kept] in *. fold (candidate kw).
  split; [exact Hsum |].
  cbn [d_total no_data under_threshold get_sales_distribution] in *.
  unfold update_status. cbn [fst]. lia.
Qed.

Lemma sales_distribution_partition_witness :
  sales_nonneg "camping" camping_rows /\
  d_total (get_sales_distribution "camping" 100 camping_rows)
    = total (filter_low_sales_asins "camping" 100 camping_rows).1.
Proof.
  assert (Hnn : sales_nonneg "camping" camping_rows).
  { intros r v Hr _ Hv.
    repeat (apply elem_of_cons in Hr as [-> | Hr];
            [injection Hv as <-; lia |]).
    inversion Hr. }
  split; [exact Hnn |].
  apply (sales_distribution_partition "camping" 100 camping_rows); [lia | exact Hnn].
Defined.

(** With a negative threshold a row without sales is counted twice. *)
Example sales_distribution_negative_threshold :
  let db := [example_row "A1" "camping" None None (Some 0) 0 None] in
  let d := get_sales_distribution "camping" (-1) db in
  (no_data d, under_threshold d, over_threshold d, d_total d) = (1, 0, 1, 2).
Proof. reflexivity. Qed.

Lemma price_buckets p mx :
  F64.leb F64.zero p = true -> F64.leb F64.zero mx = true ->
  Z.b2z (F64.eqb p F64.zero) + Z.b2z (F64.ltb F64.zero p && F64.leb p mx)
  + Z.b2z (F64.ltb mx p) = 1.
Proof.
  intros Hp Hmx.
  destruct (F64.eqb p F64.zero) eqn:He.
  - rewrite (F64Props.ltb_false_of_zero p mx He Hmx).
    rewrite (F64Props.ltb_false_of_eqb p F64.zero He). reflexivity.
  - assert (Hlt : F64.ltb F64.zero p = true).
    { revert Hp He. unfold F64.leb, F64.eqb, F64.ltb.
      rewrite <- (F64Props.compare_antisym F64.zero p).
      destruct (F64.compare F64.zero p); simpl; congruence. }
    rewrite Hlt. unfold F64.leb, F64.ltb.
    rewrite <- (F64Props.compare_antisym mx p).
    destruct (F64.compare mx p); reflexivity.
Qed.

(** The same for prices: with a threshold and prices that are not
    negative, the three buckets of the price distribution are a
    partition of the untagged rows of the keyword, and the first two
    are what the price filter keeps. *)
Theorem price_distribution_partition (kw : string) (max_price : F64.float)
    (db : table) :
  F64.leb F64.zero max_price = true -> prices_nonneg kw db ->
  let d := get_price_distribution kw max_price db in
  let rep := (filter_by_price kw max_price db).1 in
  d_total d = total rep /\ no_data d + under_threshold d = kept rep.
Proof.
  intros Hmax Hnn. cbv zeta.
  assert (Hsum : d_total (get_price_distribution kw max_price db)
                 = count_where (candidate kw) db).
  { cbn [d_total get_price_distribution]. apply count_where_sum3.
    intros r Hr. unfold candidate.
    destruct (for_keyword kw r) eqn:Hk, (unfiltered r) eqn:Hu;
      rewrite ?andb_false_r; try reflexivity.
    assert (Hv := fun p => Hnn r p Hr). unfold candidate in Hv.
    rewrite Hk, Hu in Hv.
    destruct (price r) as [p |]; [| reflexivity].
    specialize (Hv p eq_refl eq_refl).
    cbn -[F64.eqb F64.ltb F64.leb]. rewrite !andb_true_r.
    apply (price_buckets p max_price Hv Hmax). }
  unfold filter_by_price in *. fold (candidate kw) in *.
  destruct (Z.eqb_spec (count_where (candidate kw) db) 0) as [H0 | _].
  - cbn [fst total kept removed] in *.
    cbn [d_total no_data under_threshold over_threshold get_price_distribution]
      in *.
    pose proof (count_where_nonneg
      (fun r => for_keyword kw r
                && (is_null (price r) || eq_float (price r) F64.zero)
                && unfiltered r) db).
    pose proof (count_where_nonneg
      (fun r => for_keyword kw r && gt_float (price r) F64.zero
                && le_float (price r) max_price && unfiltered r) db).
    pose proof (count_where_nonneg
      (fun r => for_keyword kw r && gt_float (price r) max_price
                && unfiltered r) db).
    split; lia.
  - rewrite (surjective_pairing (update_status _ _ _)) in *.
    cbn [fst total kept removed] in *.
    cbn [d_total no_data under_threshold over_threshold get_price_distribution]
      in *.
    unfold update_status. cbn [fst]. split; lia.
Qed.

Lemma price_distribution_partition_witness :
  let db := [example_row "A1" "camping" None (Some (F64.round64 (1999 # 100)))
               None 0 None;
             example_row "A2" "camping" None (Some (F64.round64 (4950 # 100)))
               None 0 None;
             example_row "A3" "camping" None None None 0 None] in
  let mx := F64.round64 (30 # 1) in
  prices_nonneg "camping" db /\
  d_total (get_price_distribution "camping" mx db)
    = total (filter_by_price "camping" mx db).1.
Proof.
  intros db mx.
  assert (Hnn : prices_nonneg "camping" db).
  { intros r p Hr _ Hp.
    repeat (apply elem_of_cons in Hr as [-> | Hr];
            [first [discriminate Hp | injection Hp as <-; reflexivity] |]).
    inversion Hr. }
  split; [exact Hnn |].
  apply (price_distribution_partition "camping" mx db); [reflexivity | exact Hnn].
Defined.

(** The untagged rows of the keyword fall into exactly one bucket by
    listing date (no date, new, old) and into exactly one by months of
    sales (no data, new, old); each triple adds up to the total.  A
    row with an empty listing date counts as old. *)
Theorem listing_distribution_partition (kw cutoff_date : string) (months : Z)
    (db : table) :
  let d := get_listing_date_distribution kw cutoff_date months db in
  no_date_data d + new_by_date d + old_by_date d = l_total d /\
  no_sales_months_data d + new_by_sales_months d + old_by_sales_months d
    = l_total d /\
  l_total d = ld_total (filter_by_listing_date kw cutoff_date months db).1.
Proof.
  cbv zeta.
  cbn [no_date_data new_by_date old_by_date no_sales_months_data
       new_by_sales_months old_by_sales_months l_total
       get_listing_date_distribution].
  split_and!.
  - apply count_where_sum3. intros r _.
    destruct (for_keyword kw r), (unfiltered r); rewrite ?andb_false_r;
      try reflexivity.
    destruct (listing_date r) as [d |]; [| reflexivity].
    cbn -[String.ltb]. destruct (String.ltb d cutoff_date); reflexivity.
  - apply count_where_sum3. intros r _.
    destruct (for_keyword kw r), (unfiltered r); rewrite ?andb_false_r;
      try reflexivity.
    destruct (sales_months_count r) as [n |]; [| reflexivity].
    cbn. destruct (Z.leb_spec n months), (Z.ltb_spec months n); simpl; lia.
  - unfold filter_by_listing_date.
    destruct (Z.eqb_spec (count_where
                (fun r => for_keyword kw r && unfiltered r) db) 0) as [H0 | _].
    + by rewrite H0.
    + rewrite (surjective_pairing (update_status "listing_date_filtered" _ db)).
      by rewrite (surjective_pairing (update_status "sales_months_filtered" _ _)).
Qed.

Example listing_distribution_example :
  let row a d n :=
    mk_row a "camping" "" "" None None None None None None None None None
      None None None 0 None 0 None None None None None None d None n in
  let db := [row "A1" (Some "2020-05-01") (Some 30);
             row "A2" None (Some 30);
             row "A3" (Some "2024-11-01") (Some 2);
             row "A4" (Some "") None]%string in
  let d := get_listing_date_distribution "camping" "2024-06-01" 6 db in
  let rep := (filter_by_listing_date "camping" "2024-06-01" 6 db).1 in
  (no_date_data d, new_by_date d, old_by_date d) = (1, 1, 2) /\
  (no_sales_months_data d, new_by_sales_months d, old_by_sales_months d)
    = (1, 1, 2) /\
  (ld_removed_by_date rep, ld_removed_by_sales_months rep) = (2, 1).
Proof. vm_compute. repeat split. Qed.

End Distributions.

(** ** [src/database.py]: the enrichment updates *)

Module Enrichment.
Import Database DatabaseProps StoreMore Distributions.

(** [UPDATE asins SET ... WHERE w] *)
Definition update_where (w : asin_row -> bool) (f : asin_row -> asin_row)
    (db : table) : table :=
  map (fun r => if w r then f r else r) db.

Record category_info : Type := {
  ci_category_path : option string;
  ci_category_main : option string;
  ci_category_sub : option string
}.

(** [SET category_path = ?, category_main = ?, category_sub = ?] *)
Definition set_category (info : category_info) (r : asin_row) : asin_row :=
  mk_row (asin r) (keyword r) (source_type r) (source_value r) (name r)
    (brand r) (category r) (ci_category_path info) (ci_category_main info)
    (ci_category_sub info) (price r) (rating r) (reviews_count r)
    (sales_volume r) (page_rank r) (url r) (is_sponsored r) (filter_status r)
    (created_at r) (sales_3m r) (price_min r) (price_max r)
    (price_min_date r) (price_max_date r) (ss_monthly_sales r)
    (listing_date r) (avg_monthly_sales r) (sales_months_count r).

(** [get_asins_missing_category] *)
Definition missing_category (kw : string) (r : asin_row) : bool :=
  for_keyword kw r && (is_null (category_sub r) || eq_text (category_sub r) "").

Definition get_asins_missing_category (kw : string) (db : table) : list string :=
  asin <$> filter (missing_category kw) db.

(** [update_asin_category] *)
Definition update_asin_category (kw a : string) (info : category_info)
    (db : table) : bool * table :=
  (true, update_where (same_key a kw) (set_category info) db).

(** [batch_update_asin_categories]: the dictionary as the list of its
    items, in the order of iteration. *)
Definition batch_update_asin_categories (kw : string)
    (category_map : list (string * category_info)) (db : table) : Z * table :=
  fold_left (fun acc e =>
               (acc.1 + 1, update_where (same_key e.1 kw) (set_category e.2) acc.2))
    category_map (0, db).

Record history_data : Type := {
  hd_sales_3m : option Z;
  hd_price_min : option F64.float;
  hd_price_max : option F64.float;
  hd_price_min_date : option string;
  hd_price_max_date : option string;
  hd_ss_monthly_sales : option Z;
  hd_listing_date : option string;
  hd_avg_monthly_sales : option Z;
  hd_sales_months_count : option Z;
  hd_ss_rating : option F64.float;
  hd_ss_reviews : option Z
}.

Definition set_history (d : history_data) (r : asin_row) : asin_row :=
  mk_row (asin r) (keyword r) (source_type r) (source_value r) (name r)
    (brand r) (category r) (category_path r) (category_main r)
    (category_sub r) (price r) (rating r) (reviews_count r)
    (sales_volume r) (page_rank r) (url r) (is_sponsored r) (filter_status r)
    (created_at r) (hd_sales_3m d) (hd_price_min d) (hd_price_max d)
    (hd_price_min_date d) (hd_price_max_date d) (hd_ss_monthly_sales d)
    (hd_listing_date d) (hd_avg_monthly_sales d) (hd_sales_months_count d).

Definition set_rating (v : F64.float) (r : asin_row) : asin_row :=
  mk_row (asin r) (keyword r) (source_type r) (source_value r) (name r)
    (brand r) (category r) (category_path r) (category_main r)
    (category_sub r) (price r) (Some v) (reviews_count r)
    (sales_volume r) (page_rank r) (url r) (is_sponsored r) (filter_status r)
    (created_at r) (sales_3m r) (price_min r) (price_max r)
    (price_min_date r) (price_max_date r) (ss_monthly_sales r)
    (listing_date r) (avg_monthly_sales r) (sales_months_count r).

Definition set_reviews_count (v : Z) (r : asin_row) : asin_row :=
  mk_row (asin r) (keyword r) (source_type r) (source_value r) (name r)
    (brand r) (category r) (category_path r) (category_main r)
    (category_sub r) (price r) (rating r) (Some v)
    (sales_volume r) (page_rank r) (url r) (is_sponsored r) (filter_status r)
    (created_at r) (sales_3m r) (price_min r) (price_max r)
    (price_min_date r) (price_max_date r) (ss_monthly_sales r)
    (listing_date r) (avg_monthly_sales r) (sales_months_count r).

Definition no_rating (r : asin_row) : bool :=
  is_null (rating r) || eq_float (rating r) F64.zero.
Definition no_reviews (r : asin_row) : bool :=
  is_null (reviews_count r) || eq_Z (reviews_count r) 0.

(** The three statements that [batch_update_sellerspirit_history]
    runs for one identifier. *)
Definition update_history_entry (kw a : string) (d : history_data) (db : table)
    : table :=
  let db1 := update_where (same_key a kw) (set_history d) db in
  let db2 :=
    match hd_ss_rating d with
    | Some v => update_where (fun r => same_key a kw r && no_rating r)
                  (set_rating v) db1
    | None => db1
    end in
  match hd_ss_reviews d with
  | Some v => update_where (fun r => same_key a kw r && no_reviews r)
                (set_reviews_count v) db2
  | None => db2
  end.

(** [update_sellerspirit_history]: the first statement alone. *)
Definition update_sellerspirit_history (kw a : string) (d : history_data)
    (db : table) : bool * table :=
  (true, update_where (same_key a kw) (set_history d) db).

(** [batch_update_sellerspirit_history] *)
Definition batch_update_sellerspirit_history (kw : string)
    (history_map : list (string * history_data)) (db : table) : Z * table :=
  fold_left (fun acc e => (acc.1 + 1, update_history_entry kw e.1 e.2 acc.2))
    history_map (0, db).

(** *** Row by row *)

(** [d[a]] for a dictionary given by its items. *)
Fixpoint lookup_entry {X : Type} (a : string) (l : list (string * X)) : option X :=
  match l with
  | [] => None
  | e :: l' => if String.eqb e.1 a then Some e.2 else lookup_entry a l'
  end.

Lemma lookup_entry_None {X : Type} a (l : list (string * X)) :
  a ∉ l.*1 -> lookup_entry a l = None.
Proof.
  induction l as [| [k x] l IH]; [reflexivity |]. simpl. intros Hn.
  apply not_elem_of_cons in Hn as [Hne Hn].
  destruct (String.eqb_spec k a) as [-> | _]; [done | by apply IH].
Qed.

(** What a dictionary of updates, each on the row of its identifier
    under the keyword, does to one row. *)
Definition keyed {X : Type} (kw : string) (step : X -> asin_row -> asin_row)
    (l : list (string * X)) (r : asin_row) : asin_row :=
  if for_keyword kw r then
    match lookup_entry (asin r) l with
    | Some x => step x r
    | None => r
    end
  else r.

Lemma update_where_fmap w f db :
  update_where w f db = (fun r => if w r then f r else r) <$> db.
Proof. apply map_is_fmap. Qed.

Lemma keyed_updates {X : Type} kw (step : X -> asin_row -> asin_row)
    (l : list (string * X)) (n : Z) (db : table) :
  (forall x r, asin (step x r) = asin r /\ keyword (step x r) = keyword r) ->
  NoDup l.*1 ->
  fold_left (fun acc e =>
               (acc.1 + 1, update_where (same_key e.1 kw) (step e.2) acc.2))
    l (n, db)
  = (n + Z.of_nat (length l), keyed kw step l <$> db).
Proof.
  intros Hkey. revert n db.
  induction l as [| [a x] l IH]; intros n db Hnd.
  - simpl. rewrite Z.add_0_r. f_equal. symmetry. etransitivity; [| apply list_fmap_id].
    apply list_fmap_ext. intros i r _. unfold keyed. simpl.
    by destruct (for_keyword kw r).
  - rewrite fmap_cons in Hnd. apply NoDup_cons in Hnd as [Hna Hnd].
    cbn [fold_left fst snd] in *.
    rewrite IH by exact Hnd. f_equal; [simpl length; lia |].
    rewrite update_where_fmap, <- list_fmap_compose.
    apply list_fmap_ext. intros i r _. unfold compose, keyed. cbn [lookup_entry fst snd].
    destruct (same_key a kw r) eqn:Hs.
    + apply same_key_spec in Hs as [Ha Hk].
      destruct (Hkey x r) as [Hsa Hsk].
      unfold for_keyword. rewrite Hsk, Hsa, Hk, Ha, !String.eqb_refl.
      by rewrite (lookup_entry_None a l Hna).
    + destruct (for_keyword kw r) eqn:Hk; [| reflexivity].
      destruct (String.eqb_spec a (asin r)) as [Ha | _]; [| reflexivity].
      apply for_keyword_eq in Hk.
      assert (same_key a kw r = true) by (by apply same_key_spec).
      congruence.
Qed.

(** The row after the three statements for its identifier. *)
Definition enrich (d : history_data) (r : asin_row) : asin_row :=
  let r1 := set_history d r in
  let r2 := match hd_ss_rating d with
            | Some v => if no_rating r1 then set_rating v r1 else r1
            | None => r1
            end in
  match hd_ss_reviews d with
  | Some v => if no_reviews r2 then set_reviews_count v r2 else r2
  | None => r2
  end.

Lemma update_history_entry_rows kw a d db :
  update_history_entry kw a d db = update_where (same_key a kw) (enrich d) db.
Proof.
  unfold update_history_entry, enrich.
  destruct (hd_ss_rating d) as [v |], (hd_ss_reviews d) as [n |];
    rewrite !update_where_fmap, <- ?list_fmap_compose;
    apply list_fmap_ext; intros i r _; unfold compose;
    destruct (same_key a kw r) eqn:Hs; cbv zeta;
    repeat match goal with
           | |- context [same_key a kw (set_history d r)] =>
               change (same_key a kw (set_history d r)) with (same_key a kw r);
               rewrite Hs
           | |- context [same_key a kw (if ?c then set_rating ?v ?x else ?x)] =>
               replace (same_key a kw (if c then set_rating v x else x))
                 with (same_key a kw x) by (by destruct c)
           | |- context [same_key a kw r] => rewrite Hs
           end; cbn [andb]; reflexivity.
Qed.

Lemma enrich_key d r :
  asin (enrich d r) = asin r /\ keyword (enrich d r) = keyword r.
Proof.
  unfold enrich.
  destruct (hd_ss_rating d) as [v |], (hd_ss_reviews d) as [n |]; cbv zeta;
    repeat match goal with
           | |- context [if ?c then _ else _] => destruct c
           end; split; reflexivity.
Qed.

Lemma enrich_status d r : filter_status (enrich d r) = filter_status r.
Proof.
  unfold enrich.
  destruct (hd_ss_rating d) as [v |], (hd_ss_reviews d) as [n |]; cbv zeta;
    repeat match goal with
           | |- context [if ?c then _ else _] => destruct c
           end; reflexivity.
Qed.

Lemma keyed_preserves {X A : Type} kw (step : X -> asin_row -> asin_row)
    (l : list (string * X)) (proj : asin_row -> A) (db : table) :
  (forall x r, proj (step x r) = proj r) ->
  proj <$> (keyed kw step l <$> db) = proj <$> db.
Proof.
  intros Hp. rewrite <- list_fmap_compose. apply list_fmap_ext.
  intros i r _. unfold compose, keyed.
  destruct (for_keyword kw r); [| reflexivity].
  destruct (lookup_entry (asin r) l); [apply Hp | reflexivity].
Qed.


Lemma history_fold kw history_map n db :
  fold_left (fun acc e => (acc.1 + 1, update_history_entry kw e.1 e.2 acc.2))
    history_map (n, db)
  = fold_left (fun acc e =>
                 (acc.1 + 1, update_where (same_key e.1 kw) (enrich e.2) acc.2))
      history_map (n, db).
Proof.
  revert n db. induction history_map as [| e l IH]; intros n db; [reflexivity |].
  cbn [fold_left fst snd]. by rewrite update_history_entry_rows, IH.
Qed.

Lemma untagged_preserved kw (db db' : table) :
  key <$> db' = key <$> db -> filter_status <$> db' = filter_status <$> db ->
  get_asins_for_enrichment kw db' = get_asins_for_enrichment kw db /\
  count_where (candidate kw) db' = count_where (candidate kw) db.
Proof.
  revert db'. induction db as [| r db IH]; intros [| r' db'] Hk Hs;
    try discriminate; [done |].
  rewrite !fmap_cons in Hk. rewrite !fmap_cons in Hs.
  unfold key at 1 3 in Hk.
  injection Hk as Ha Hkw Hk. injection Hs as Hs1 Hs.
  destruct (IH db' Hk Hs) as [IH1 IH2].
  assert (Hc : candidate kw r' = candidate kw r).
  { unfold candidate, for_keyword, unfiltered. by rewrite Hkw, Hs1. }
  split.
  - unfold get_asins_for_enrichment in *.
    rewrite !(filter_bool_cons (fun r => for_keyword kw r && unfiltered r)).
    unfold candidate in Hc. rewrite Hc.
    destruct (for_keyword kw r && unfiltered r);
      rewrite ?fmap_cons, ?Ha; by rewrite IH1.
  - by rewrite !count_where_cons, IH2, Hc.
Qed.

(** [batch_update_sellerspirit_history] returns the number of entries
    of the dictionary, whether or not a row exists for them.  A row of
    the keyword whose identifier has an entry gets the nine history
    columns of the entry, also where the entry has none; its rating and
    its number of reviews are filled from the entry only where the row
    has none or zero.  Other rows stay as they are, and no row changes
    its identifier, keyword or tag: enrichment neither excludes a
    product nor brings one back. *)
Theorem history_update_spec (kw : string)
    (history_map : list (string * history_data)) (db : table) :
  NoDup history_map.*1 ->
  let out := batch_update_sellerspirit_history kw history_map db in
  out.1 = Z.of_nat (length history_map) /\
  out.2 = keyed kw enrich history_map <$> db /\
  filter_status <$> out.2 = filter_status <$> db /\
  key <$> out.2 = key <$> db /\
  get_asins_for_enrichment kw out.2 = get_asins_for_enrichment kw db /\
  count_where (candidate kw) out.2 = count_where (candidate kw) db.
Proof.
  intros Hnd. cbv zeta. unfold batch_update_sellerspirit_history.
  rewrite history_fold, (keyed_updates kw enrich history_map 0 db enrich_key Hnd).
  cbn [fst snd].
  assert (Hs : filter_status <$> (keyed kw enrich history_map <$> db)
               = filter_status <$> db)
    by (apply keyed_preserves; intros; apply enrich_status).
  assert (Hk : key <$> (keyed kw enrich history_map <$> db) = key <$> db).
  { apply keyed_preserves. intros x r. unfold key.
    by destruct (enrich_key x r) as [-> ->]. }
  destruct (untagged_preserved kw db _ Hk Hs) as [H1 H2].
  split_and!; done.
Qed.

(** An entry without rating for a row that has one, and an entry for
    an identifier that has no row. *)
Lemma history_update_spec_witness :
  let d n := {| hd_sales_3m := Some 90; hd_price_min := None;
                hd_price_max := None; hd_price_min_date := None;
                hd_price_max_date := None; hd_ss_monthly_sales := Some 30;
                hd_listing_date := Some "2024-11-01"%string;
                hd_avg_monthly_sales := Some 30;
                hd_sales_months_count := Some n;
                hd_ss_rating := Some (F64.round64 (45 # 10));
                hd_ss_reviews := None |} in
  let m := [("A001", d 3); ("Z999", d 12)]%string in
  let out := batch_update_sellerspirit_history "camping" m camping_rows in
  NoDup m.*1 /\ out.1 = 2 /\
  (sales_months_count <$> out.2) !! 0%nat = Some (Some 3) /\
  (rating <$> out.2) !! 0%nat = Some (Some (F64.round64 (45 # 10))) /\
  get_asins_for_enrichment "camping" out.2
    = get_asins_for_enrichment "camping" camping_rows.
Proof.
  intros d m out.
  assert (Hnd : NoDup m.*1)
    by (apply (bool_decide_unpack _); vm_compute; exact I).
  destruct (history_update_spec "camping" m camping_rows Hnd)
    as (H1 & _ & _ & _ & H5 & _).
  split_and!; [exact Hnd | exact H1 | reflexivity | reflexivity | exact H5].
Defined.

(** *** Categories *)

Lemma set_category_key info r :
  asin (set_category info r) = asin r /\
  keyword (set_category info r) = keyword r.
Proof. split; reflexivity. Qed.

Definition has_sub (info : category_info) : bool :=
  negb (is_null (ci_category_sub info) || eq_text (ci_category_sub info) "").

Lemma missing_after kw (category_map : list (string * category_info)) db :
  (forall a info, lookup_entry a category_map = Some info -> has_sub info = true) ->
  get_asins_missing_category kw (keyed kw set_category category_map <$> db)
  = filter (fun a => bool_decide (lookup_entry a category_map = None))
      (get_asins_missing_category kw db).
Proof.
  intros Hsub. unfold get_asins_missing_category.
  induction db as [| r db IH]; [reflexivity |].
  rewrite fmap_cons, !(filter_bool_cons (missing_category kw)).
  assert (Hrow : missing_category kw (keyed kw set_category category_map r)
                 = missing_category kw r
                   && bool_decide (lookup_entry (asin r) category_map = None)).
  { unfold keyed, missing_category.
    destruct (for_keyword kw r) eqn:Hk; [| by rewrite Hk].
    destruct (lookup_entry (asin r) category_map) as [info |] eqn:Hl.
    - specialize (Hsub _ _ Hl). unfold has_sub in Hsub.
      apply negb_true_iff in Hsub.
      change (for_keyword kw (set_category info r)) with (for_keyword kw r).
      change (category_sub (set_category info r)) with (ci_category_sub info).
      rewrite Hk, Hsub. cbn [andb]. by rewrite andb_false_r.
    - rewrite Hk. cbn [andb]. by rewrite andb_true_r. }
  rewrite Hrow.
  assert (Hasin : asin (keyed kw set_category category_map r) = asin r).
  { unfold keyed. destruct (for_keyword kw r); [| reflexivity].
    by destruct (lookup_entry (asin r) category_map). }
  destruct (missing_category kw r); cbn [andb]; [| exact IH].
  rewrite (fmap_cons asin r), filter_cons.
  destruct (decide (bool_decide (lookup_entry (asin r) category_map = None)))
    as [Hd | Hd].
  - apply Is_true_true in Hd. rewrite Hd, fmap_cons, Hasin. by rewrite IH.
  - apply Is_true_false in Hd. rewrite Hd. exact IH.
Qed.

(** [batch_update_asin_categories] returns the number of entries of
    the dictionary.  A row of the keyword whose identifier has an
    entry gets the three category columns of the entry; nothing else
    changes, in particular no tag.  When every entry has a
    sub-category, the identifiers that still miss one afterwards are
    those that missed one before and have no entry. *)
Theorem category_update_spec (kw : string)
    (category_map : list (string * category_info)) (db : table) :
  NoDup category_map.*1 ->
  let out := batch_update_asin_categories kw category_map db in
  out.1 = Z.of_nat (length category_map) /\
  out.2 = keyed kw set_category category_map <$> db /\
  filter_status <$> out.2 = filter_status <$> db /\
  key <$> out.2 = key <$> db /\
  ((forall a info, lookup_entry a category_map = Some info -> has_sub info = true) ->
   get_asins_missing_category kw out.2
   = filter (fun a => bool_decide (lookup_entry a category_map = None))
       (get_asins_missing_category kw db)).
Proof.
  intros Hnd. cbv zeta. unfold batch_update_asin_categories.
  rewrite (keyed_updates kw set_category category_map 0 db set_category_key Hnd).
  cbn [fst snd]. split_and!.
  - lia.
  - reflexivity.
  - by apply keyed_preserves.
  - by apply keyed_preserves.
  - intros Hsub. by apply missing_after.
Qed.

Lemma category_update_spec_witness :
  let info := {| ci_category_path := Some "Sports > Camping > Lanterns"%string;
                 ci_category_main := Some "Sports"%string;
                 ci_category_sub := Some "Lanterns"%string |} in
  let m := [("D001", info); ("Z999", info)]%string in
  let out := batch_update_asin_categories "camping" m camping_rows in
  NoDup m.*1 /\ out.1 = 2 /\
  get_asins_missing_category "camping" camping_rows = ["D001"%string] /\
  get_asins_missing_category "camping" out.2 = [].
Proof.
  intros info m out.
  assert (Hnd : NoDup m.*1)
    by (apply (bool_decide_unpack _); vm_compute; exact I).
  destruct (category_update_spec "camping" m camping_rows Hnd)
    as (H1 & _ & _ & _ & _).
  split_and!; [exact Hnd | exact H1 | reflexivity | reflexivity].
Defined.

End Enrichment.
